(** * Online retail database: triggers and product API

    A shallow embedding of the data-layer triggers ([update_stock],
    [enforce_positive_values]), of the sales function
    [get_monthly_sales], of the Express handlers and routes of the
    products and retail API and of the cache of the dashboard page, with
    the properties the specification states about them and further
    properties of the code.

    The first part holds the definitions, module by module; the second
    part holds the theorems. *)

From Stdlib Require Import ZArith NArith QArith Qround Qabs.
From Stdlib Require Import List String Ascii Bool Lia.
Import ListNotations.

Local Open Scope string_scope.
Local Open Scope list_scope.
Local Open Scope Z_scope.

(* ================================================================== *)
(** * Part I: definitions *)
(* ================================================================== *)

(** ** The PL/pgSQL triggers *)

Module Triggers.

(** *** SQL values

    A column value is either NULL ([None]) or a value.  Comparisons follow
    SQL's three-valued logic: a comparison with NULL is unknown ([None]),
    and both [IF] and [WHERE] take a branch only on TRUE.  Integer columns
    are unbounded integers and [unit_price] (NUMERIC) is an exact rational;
    the tables are not declared in the sources, so the columns are the ones
    the two trigger functions name. *)

Definition sql_lt_int (a b : option Z) : option bool :=
  match a, b with
  | Some x, Some y => Some (x <? y)
  | _, _ => None
  end.

Definition Qltb (x y : Q) : bool := negb (Qle_bool y x).

Definition sql_lt_numeric (a b : option Q) : option bool :=
  match a, b with
  | Some x, Some y => Some (Qltb x y)
  | _, _ => None
  end.

Definition sql_eq_text (a b : option string) : option bool :=
  match a, b with
  | Some x, Some y => Some (String.eqb x y)
  | _, _ => None
  end.

Definition sql_minus (a b : option Z) : option Z :=
  match a, b with
  | Some x, Some y => Some (x - y)
  | _, _ => None
  end.

Definition is_true (b : option bool) : bool :=
  match b with
  | Some true => true
  | _ => false
  end.

(** *** Tables *)

Module Retail.
Record row := mk {
  id : Z;
  stockcode : option string;
  quantity : option Z;
  unit_price : option Q
}.

Definition set_quantity (r : row) (q : option Z) : row :=
  {| id := id r; stockcode := stockcode r; quantity := q;
     unit_price := unit_price r |}.
End Retail.

Module Orders.
Record row := mk {
  product_id : option string;
  quantity : option Z
}.
End Orders.

Record database := mkdb {
  retail : list Retail.row;
  orders : list Orders.row
}.

(** *** Errors

    [RAISE EXCEPTION 'msg'] (SQLSTATE P0001, [raise_exception]) aborts the
    statement that fired the trigger. *)

Inductive sql_error :=
| raise_exception (message : string).

Inductive result (A : Type) :=
| Ok (a : A)
| Raised (e : sql_error).

Arguments Ok {A} a.
Arguments Raised {A} e.

Definition bind {A B : Type} (m : result A) (k : A -> result B) : result B :=
  match m with
  | Ok a => k a
  | Raised e => Raised e
  end.

Notation "x <- m ;; k" := (bind m (fun x => k))
  (at level 61, m at next level, right associativity).

(** *** [enforce_positive_values] (BEFORE INSERT OR UPDATE ON retail,
    FOR EACH ROW) *)

Definition enforce_positive_values (NEW : Retail.row) : result Retail.row :=
  if is_true (sql_lt_int (Retail.quantity NEW) (Some 0)) then
    Raised (raise_exception "Quantity cannot be negative")
  else if is_true (sql_lt_numeric (Retail.unit_price NEW) (Some 0%Q)) then
    Raised (raise_exception "Unit price cannot be negative")
  else
    Ok NEW.

(** *** Statements on [retail]

    Every row an INSERT or UPDATE on [retail] is about to write goes through
    the BEFORE row trigger; the first exception aborts the whole statement. *)

Definition insert_retail (NEW : Retail.row) (db : database)
  : result database :=
  NEW' <- enforce_positive_values NEW ;;
  Ok {| retail := retail db ++ [NEW']; orders := orders db |}.

Fixpoint update_rows (cond : Retail.row -> bool)
    (set : Retail.row -> Retail.row) (rows : list Retail.row)
  : result (list Retail.row) :=
  match rows with
  | [] => Ok []
  | r :: rest =>
      r' <- (if cond r then enforce_positive_values (set r) else Ok r) ;;
      rest' <- update_rows cond set rest ;;
      Ok (r' :: rest')
  end.

Definition update_retail (cond : Retail.row -> bool)
    (set : Retail.row -> Retail.row) (db : database) : result database :=
  rows <- update_rows cond set (retail db) ;;
  Ok {| retail := rows; orders := orders db |}.

(** *** [update_stock] (AFTER INSERT ON orders, FOR EACH ROW)

    [UPDATE retail SET quantity = quantity - NEW.quantity
     WHERE stockcode = NEW.product_id].  The value the function returns is
    ignored for an AFTER trigger.  The UPDATE is a statement on [retail] and
    fires that table's row trigger. *)

Definition stock_row_of (NEW : Orders.row) (r : Retail.row) : bool :=
  is_true (sql_eq_text (Retail.stockcode r) (Orders.product_id NEW)).

Definition decrement (NEW : Orders.row) (r : Retail.row) : Retail.row :=
  Retail.set_quantity r (sql_minus (Retail.quantity r) (Orders.quantity NEW)).

Definition update_stock (NEW : Orders.row) (db : database)
  : result database :=
  update_retail (stock_row_of NEW) (decrement NEW) db.

Definition insert_orders (NEW : Orders.row) (db : database)
  : result database :=
  update_stock NEW {| retail := retail db; orders := orders db ++ [NEW] |}.

(** *** Statements and transactions

    A transaction runs its statements in order on a working copy; it
    commits the copy when all succeed and keeps the initial state when one
    raises. *)

Inductive statement :=
| INSERT_INTO_retail (NEW : Retail.row)
| UPDATE_retail (cond : Retail.row -> bool) (set : Retail.row -> Retail.row)
| INSERT_INTO_orders (NEW : Orders.row).

Definition execute (s : statement) (db : database) : result database :=
  match s with
  | INSERT_INTO_retail NEW => insert_retail NEW db
  | UPDATE_retail cond set => update_retail cond set db
  | INSERT_INTO_orders NEW => insert_orders NEW db
  end.

Fixpoint execute_all (ss : list statement) (db : database)
  : result database :=
  match ss with
  | [] => Ok db
  | s :: rest => db' <- execute s db ;; execute_all rest db'
  end.

Inductive outcome :=
| COMMIT
| ROLLBACK (e : sql_error).

Definition transaction (ss : list statement) (db : database)
  : database * outcome :=
  match execute_all ss db with
  | Ok db' => (db', COMMIT)
  | Raised e => (db, ROLLBACK e)
  end.

(** A value is negative when it is not NULL and below zero. *)

Definition negative_int (v : option Z) : Prop :=
  exists z, v = Some z /\ z < 0.

Definition negative_numeric (v : option Q) : Prop :=
  exists q, v = Some q /\ (q < 0)%Q.

(** *** Sample data *)

Definition stock_20 : database :=
  {| retail := [ Retail.mk 1 (Some "85123A") (Some 20) (Some (5 # 2)%Q);
                 Retail.mk 2 (Some "71053") (Some 7) (Some (3 # 1)%Q) ];
     orders := [] |}.

Definition order_5 : Orders.row := Orders.mk (Some "85123A") (Some 5).

Definition order_unknown : Orders.row := Orders.mk (Some "99999") (Some 5).

Definition negative_line : Retail.row :=
  Retail.mk 3 (Some "85123A") (Some (-1)) (Some (5 # 2)%Q).

Definition zero_line : Retail.row :=
  Retail.mk 3 (Some "85123A") (Some 0) (Some 0%Q).

End Triggers.

(** ** JavaScript values

    What the handlers compute with, as far as the handlers use it. *)

Module JS.

(** *** Strings

    A string is its sequence of UTF-16 code units; [lit] gives the code
    units of an ASCII literal of the program. *)

Definition jsstring := list N.

Definition lit (s : string) : jsstring :=
  map N_of_ascii (list_ascii_of_string s).

Fixpoint str_eqb (a b : jsstring) : bool :=
  match a, b with
  | [], [] => true
  | x :: a', y :: b' => (x =? y)%N && str_eqb a' b'
  | _, _ => false
  end.

Definition includes (l : list jsstring) (s : jsstring) : bool :=
  existsb (str_eqb s) l.

(** [String.prototype.toUpperCase], on the code units whose upper-case form
    is one ASCII letter: [a]-[z], dotless i (U+0131) and long s (U+017F).
    Every other code unit is left as it is.  That is its upper-case form
    for most (the digits and [A]-[Z] among them); for the rest it is not,
    but their upper-case forms (a letter outside ASCII, or several code
    units such as SS for sharp s and ST for the st ligature) occur neither
    in ASC nor in DESC, and no more do they themselves: the handlers only
    ask of the result whether it is one of these two words, and return it
    when it is. *)

Definition toUpperCase_unit (c : N) : N :=
  if ((97 <=? c) && (c <=? 122))%N then (c - 32)%N
  else if (c =? 305)%N then 73%N
  else if (c =? 383)%N then 83%N
  else c.

Definition toUpperCase (s : jsstring) : jsstring := map toUpperCase_unit s.

(** White space and line terminators ([StrWhiteSpaceChar]). *)

Definition is_white_space (c : N) : bool :=
  existsb (N.eqb c)
    [9; 10; 11; 12; 13; 32; 160; 5760; 8232; 8233; 8239; 8287; 12288; 65279]%N
  || ((8192 <=? c) && (c <=? 8202))%N.

Fixpoint trim_start (s : jsstring) : jsstring :=
  match s with
  | c :: s' => if is_white_space c then trim_start s' else s
  | [] => []
  end.

Definition trim_end (s : jsstring) : jsstring := rev (trim_start (rev s)).

Definition trim (s : jsstring) : jsstring := trim_end (trim_start s).

Fixpoint starts_with (prefix s : jsstring) : option jsstring :=
  match prefix, s with
  | [], _ => Some s
  | p :: prefix', c :: s' =>
      if (p =? c)%N then starts_with prefix' s' else None
  | _ :: _, [] => None
  end.

(** *** Numbers

    A number is NaN, an infinity or a finite value.  Finite values are the
    rationals they denote: the model has one zero and does not round the
    results of arithmetic, so that it agrees with IEEE doubles where the
    operands and results are integers of magnitude below 2^53.  Strings are
    converted exactly as to their being NaN, infinite, zero, negative or
    positive ([to_double]). *)

Inductive number :=
| NaN
| Infinity (negative : bool)
| Finite (q : Q).

Definition of_Z (z : Z) : number := Finite (inject_Z z).

Definition isNaN_number (n : number) : bool :=
  match n with
  | NaN => true
  | _ => false
  end.

Definition Qltb (x y : Q) : bool := negb (Qle_bool y x).

(** [a < b]; false when either is NaN. *)
Definition lt (a b : number) : bool :=
  match a, b with
  | NaN, _ | _, NaN => false
  | Infinity true, Infinity true => false
  | Infinity true, _ => true
  | _, Infinity true => false
  | Infinity false, _ => false
  | _, Infinity false => true
  | Finite x, Finite y => Qltb x y
  end.

(** [a <= b]; false when either is NaN. *)
Definition le (a b : number) : bool :=
  match a, b with
  | NaN, _ | _, NaN => false
  | _, _ => negb (lt b a)
  end.

Definition gt (a b : number) : bool := lt b a.

Definition is_negative (q : Q) : bool := Qltb q 0.

Definition is_zero (q : Q) : bool := Qeq_bool q 0.

Definition sub (a b : number) : number :=
  match a, b with
  | NaN, _ | _, NaN => NaN
  | Infinity s, Infinity t => if Bool.eqb s t then NaN else Infinity s
  | Infinity s, Finite _ => Infinity s
  | Finite _, Infinity t => Infinity (negb t)
  | Finite x, Finite y => Finite (x - y)
  end.

Definition add (a b : number) : number :=
  match a, b with
  | NaN, _ | _, NaN => NaN
  | Infinity s, Infinity t => if Bool.eqb s t then Infinity s else NaN
  | Infinity s, Finite _ => Infinity s
  | Finite _, Infinity t => Infinity t
  | Finite x, Finite y => Finite (x + y)
  end.

Definition mul (a b : number) : number :=
  match a, b with
  | NaN, _ | _, NaN => NaN
  | Infinity s, Infinity t => Infinity (xorb s t)
  | Infinity s, Finite y | Finite y, Infinity s =>
      if is_zero y then NaN else Infinity (xorb s (is_negative y))
  | Finite x, Finite y => Finite (x * y)
  end.

Definition div (a b : number) : number :=
  match a, b with
  | NaN, _ | _, NaN => NaN
  | Infinity _, Infinity _ => NaN
  | Infinity s, Finite y => Infinity (xorb s (is_negative y))
  | Finite _, Infinity _ => Finite 0
  | Finite x, Finite y =>
      if is_zero y then (if is_zero x then NaN else Infinity (is_negative x))
      else Finite (x / y)
  end.

Definition Math_ceil (a : number) : number :=
  match a with
  | Finite x => of_Z (Qceiling x)
  | _ => a
  end.

(** The two roundings of a decimal literal that change its class: below
    half the least positive double it is zero, from half an ulp above the
    greatest double it is an infinity. *)

Definition underflow_bound : Q := 1 # (2 ^ 1075).

Definition overflow_bound : Q := inject_Z (2 ^ 1024 - 2 ^ 970).

Definition to_double (q : Q) : number :=
  if Qle_bool (Qabs q) underflow_bound then Finite 0
  else if Qle_bool overflow_bound (Qabs q) then Infinity (is_negative q)
  else Finite q.

Definition negate (n : number) : number :=
  match n with
  | NaN => NaN
  | Infinity s => Infinity (negb s)
  | Finite q => Finite (- q)
  end.

(** *** Numeric literals in strings *)

Definition is_digit (c : N) : bool := ((48 <=? c) && (c <=? 57))%N.

(** The value of a digit in a radix up to 16, if it is one. *)
Definition digit_in (radix : N) (c : N) : option N :=
  let v :=
    if ((48 <=? c) && (c <=? 57))%N then Some (c - 48)%N
    else if ((97 <=? c) && (c <=? 102))%N then Some (c - 87)%N
    else if ((65 <=? c) && (c <=? 70))%N then Some (c - 55)%N
    else None in
  match v with
  | Some d => if (d <? radix)%N then Some d else None
  | None => None
  end.

(** The longest prefix of digits of the radix, and what follows it. *)
Fixpoint span_digits (radix : N) (s : jsstring) : list N * jsstring :=
  match s with
  | c :: s' =>
      match digit_in radix c with
      | Some d => let (ds, rest) := span_digits radix s' in (d :: ds, rest)
      | None => ([], s)
      end
  | [] => ([], [])
  end.

Definition digits_value (radix : N) (ds : list N) : Z :=
  fold_left (fun acc d => Z.of_N radix * acc + Z.of_N d) ds 0.

Definition parse_sign (s : jsstring) : bool * jsstring :=
  match s with
  | c :: rest =>
      if (c =? 45)%N then (true, rest)
      else if (c =? 43)%N then (false, rest)
      else (false, s)
  | [] => (false, s)
  end.

(** What follows a decimal point, when the string starts with one. *)
Definition after_point (s : jsstring) : option jsstring :=
  match s with
  | c :: rest => if (c =? 46)%N then Some rest else None
  | [] => None
  end.

(** [ExponentPart], when one follows; the exponent 0 and the input itself
    otherwise. *)
Definition parse_exponent (s : jsstring) : Z * jsstring :=
  match s with
  | c :: rest =>
      if ((c =? 101) || (c =? 69))%N then
        let (neg, rest1) := parse_sign rest in
        let (ds, rest2) := span_digits 10 rest1 in
        match ds with
        | [] => (0, s)
        | _ => ((if neg then - digits_value 10 ds else digits_value 10 ds),
                rest2)
        end
      else (0, s)
  | [] => (0, s)
  end.

(** [m * 10 ^ e] *)
Definition scale (m e : Z) : Q :=
  if 0 <=? e then inject_Z (m * 10 ^ e) else m # Z.to_pos (10 ^ (- e)).

Definition decimal (ds : list N) (e : Z) : number :=
  to_double (scale (digits_value 10 ds) e).

(** The longest prefix that is a [StrUnsignedDecimalLiteral], with its
    value and what follows it. *)
Definition parse_unsigned_decimal (s : jsstring)
  : option (number * jsstring) :=
  match starts_with (lit "Infinity") s with
  | Some rest => Some (Infinity false, rest)
  | None =>
      let (int, rest1) := span_digits 10 s in
      match int, after_point rest1 with
      | [], Some rest2 =>
          let (frac, rest3) := span_digits 10 rest2 in
          match frac with
          | [] => None
          | _ =>
              let (e, rest4) := parse_exponent rest3 in
              Some (decimal frac (e - Z.of_nat (List.length frac)), rest4)
          end
      | [], None => None
      | _, Some rest2 =>
          let (frac, rest3) := span_digits 10 rest2 in
          let (e, rest4) := parse_exponent rest3 in
          Some (decimal (int ++ frac) (e - Z.of_nat (List.length frac)),
                rest4)
      | _, None =>
          let (e, rest4) := parse_exponent rest1 in
          Some (decimal int e, rest4)
      end
  end.

(** The longest prefix that is a [StrDecimalLiteral]. *)
Definition parse_decimal (s : jsstring) : option (number * jsstring) :=
  let (neg, rest) := parse_sign s in
  match parse_unsigned_decimal rest with
  | Some (n, rest') => Some ((if neg then negate n else n), rest')
  | None => None
  end.

(** [NonDecimalIntegerLiteral]: 0x, 0o or 0b and at least one digit. *)
Definition parse_non_decimal (s : jsstring) : option (number * jsstring) :=
  match s with
  | z :: c :: rest =>
      let radix :=
        if negb (z =? 48)%N then None
        else if ((c =? 120) || (c =? 88))%N then Some 16%N
        else if ((c =? 111) || (c =? 79))%N then Some 8%N
        else if ((c =? 98) || (c =? 66))%N then Some 2%N
        else None in
      match radix with
      | Some r =>
          let (ds, rest') := span_digits r rest in
          match ds with
          | [] => None
          | _ => Some (to_double (inject_Z (digits_value r ds)), rest')
          end
      | None => None
      end
  | _ => None
  end.

(** [StringToNumber]: the whole string, white space around it apart, is a
    [StrNumericLiteral], or it is empty (and the number is 0), or the
    number is NaN. *)
Definition StringToNumber (s : jsstring) : number :=
  match trim s with
  | [] => Finite 0
  | t =>
      match parse_non_decimal t with
      | Some (n, []) => n
      | _ =>
          match parse_decimal t with
          | Some (n, []) => n
          | _ => NaN
          end
      end
  end.

(** [parseFloat] of a string. *)
Definition parseFloat (s : jsstring) : number :=
  match parse_decimal (trim_start s) with
  | Some (n, _) => n
  | None => NaN
  end.

(** [parseInt] of a string, with no radix given. *)
Definition parseInt (s : jsstring) : number :=
  let (neg, rest) := parse_sign (trim_start s) in
  let (radix, rest1) :=
    match rest with
    | z :: c :: rest' =>
        if (z =? 48)%N && ((c =? 120) || (c =? 88))%N then (16%N, rest')
        else (10%N, rest)
    | _ => (10%N, rest)
    end in
  let (ds, _) := span_digits radix rest1 in
  match ds with
  | [] => NaN
  | _ =>
      let n := to_double (inject_Z (digits_value radix ds)) in
      if neg then negate n else n
  end.

(** *** Numerals and numeric literals, as the statements speak of them *)

(** A non-empty string of decimal digits, and the integer it writes. *)
Definition is_numeral (s : jsstring) : bool :=
  match s with
  | [] => false
  | _ => forallb is_digit s
  end.

Definition numeral_value (s : jsstring) : Z :=
  digits_value 10 (map (fun c => (c - 48)%N) s).

(** The whole string, white space around it apart, is a numeric literal:
    it is not blank and [StringToNumber] does not yield NaN. *)
Definition numeric_literal (s : jsstring) : bool :=
  match trim s with
  | [] => false
  | _ => negb (isNaN_number (StringToNumber s))
  end.

(** A string some prefix of which is a [StrUnsignedDecimalLiteral]. *)
Definition unsigned_decimal_start (s : jsstring) : bool :=
  match starts_with (lit "Infinity") s with
  | Some _ => true
  | None =>
      match s with
      | c :: rest =>
          is_digit c
          || ((c =? 46)%N
              && match rest with
                 | d :: _ => is_digit d
                 | [] => false
                 end)
      | [] => false
      end
  end.

Definition decimal_start (s : jsstring) : bool :=
  unsigned_decimal_start (snd (parse_sign s)).

Definition is_some {A : Type} (o : option A) : bool :=
  match o with
  | Some _ => true
  | None => false
  end.

(** Integers that doubles hold exactly. *)
Definition safe_integer (z : Z) : Prop := Z.abs z < 2 ^ 53.

(** *** Values

    The values of a parsed JSON body or query string.  An array or object
    stands for what the handlers can observe of it: it is truthy, its
    [typeof] is ['object'], and its conversion to a primitive is the string
    its [toString] yields (the joined elements of an array,
    ['[object Object]'] for an object) or, for an object with an own
    property [toString] (which is data, not a function), a TypeError. *)

Inductive value :=
| undefined
| null
| Bool (b : bool)
| Num (n : number)
| Str (s : jsstring)
| Obj (toString : option jsstring).

(** Thrown values: database errors carry a [code], a TypeError has none. *)

Record error := mkError {
  code : option string;
  message : string
}.

Definition TypeError (msg : string) : error :=
  {| code := None; message := msg |}.

Inductive completion (A : Type) :=
| Normal (a : A)
| Throw (e : error).

Arguments Normal {A} a.
Arguments Throw {A} e.

Definition truthy (v : value) : bool :=
  match v with
  | undefined | null => false
  | Bool b => b
  | Num NaN => false
  | Num (Infinity _) => true
  | Num (Finite q) => negb (is_zero q)
  | Str [] => false
  | Str (_ :: _) => true
  | Obj _ => true
  end.

Definition is_undefined (v : value) : bool :=
  match v with
  | undefined => true
  | _ => false
  end.

Definition typeof_string (v : value) : bool :=
  match v with
  | Str _ => true
  | _ => false
  end.

(** Destructuring with a default: the default stands in for [undefined]
    only. *)
Definition default (d v : value) : value :=
  if is_undefined v then d else v.

Definition ToNumber (v : value) : completion number :=
  match v with
  | undefined => Normal NaN
  | null => Normal (Finite 0)
  | Bool true => Normal (Finite 1)
  | Bool false => Normal (Finite 0)
  | Num n => Normal n
  | Str s => Normal (StringToNumber s)
  | Obj (Some s) => Normal (StringToNumber s)
  | Obj None => Throw (TypeError "Cannot convert object to primitive value")
  end.

(** The global [isNaN]. *)
Definition isNaN (v : value) : completion bool :=
  match ToNumber v with
  | Normal n => Normal (isNaN_number n)
  | Throw e => Throw e
  end.

(** [v <= n], [v < n] and [v > n] for a number [n]. *)
Definition le_number (v : value) (n : number) : completion bool :=
  match ToNumber v with
  | Normal m => Normal (le m n)
  | Throw e => Throw e
  end.

Definition lt_number (v : value) (n : number) : completion bool :=
  match ToNumber v with
  | Normal m => Normal (lt m n)
  | Throw e => Throw e
  end.

Definition gt_number (v : value) (n : number) : completion bool :=
  match ToNumber v with
  | Normal m => Normal (gt m n)
  | Throw e => Throw e
  end.

End JS.

(** ** The API handlers *)

Module Api.
Import JS.

(** *** The store

    The tables the handlers read and write.  [product_id] is the primary key
    of [products] and [stock_code] its unique key (the root endpoint says so
    under [database_schema]); text columns other than [stock_code], and all
    numeric columns, may be NULL ([None]).  [retail] has the columns that
    routes/retail.js names. *)

Module Products.
Record row := mk {
  product_id : Z;
  stock_code : jsstring;
  description : option jsstring;
  category_id : option Z;
  unit_price : option Q;
  stock_quantity : option Z;
  reorder_level : option Z;
  supplier_info : option jsstring;
  is_active : option bool;
  weight : option Q;
  dimensions : option jsstring;
  created_at : Z;
  updated_at : Z
}.
End Products.

Module OrderItems.
Record row := mk {
  id : Z;
  product_id : option Z
}.
End OrderItems.

Module InventoryMovements.
Record row := mk {
  id : Z;
  product_id : option Z
}.
End InventoryMovements.

Module Retail.
Record row := mk {
  id : Z;
  invoice_no : option jsstring;
  stock_code : option jsstring;
  description : option jsstring;
  quantity : option Z;
  invoice_date : option Z;
  unit_price : option Q;
  customer_id : option Z;
  country : option jsstring
}.
End Retail.

Record store := mkStore {
  products : list Products.row;
  order_items : list OrderItems.row;
  inventory_movements : list InventoryMovements.row;
  retail : list Retail.row
}.

(** *** The statements the handlers send

    A statement is the SQL text a handler builds, kept as its structure:
    the conditions of the WHERE clause with the index of the placeholder
    each one names, the interpolated sort column and order, and the
    placeholders of LIMIT and OFFSET.  The bound values travel apart, as the
    second argument of [client.query]. *)

Inductive column :=
| product_id
| stock_code.

Inductive criterion :=
| description_or_stock_code_ILIKE
| category_id_equals
| is_active_equals.

Definition condition : Type := criterion * nat.

Inductive sql :=
| SELECT_products (whereConditions : list condition)
    (sortColumn sortOrderValue : jsstring) (limit_placeholder : nat)
    (offset_placeholder : nat)
| SELECT_COUNT_products (whereConditions : list condition)
| SELECT_product_WHERE (searchField : column)
| SELECT_analytics
| INSERT_INTO_products
| SELECT_product_id_WHERE (searchField : column)
| UPDATE_products
| SELECT_related_counts (searchField : column)
| DELETE_FROM_products
| SELECT_retail_LIMIT_100.

Record analytics := mkAnalytics {
  order_count : Z;
  total_sold : option Z;
  avg_selling_price : option Q;
  first_sold : option Z;
  last_sold : option Z
}.

Record related_counts := mkRelated {
  related_product_id : Z;
  related_stock_code : jsstring;
  order_items_count : Z;
  inventory_movements_count : Z
}.

Definition rows_of (q : sql) : Type :=
  match q with
  | SELECT_products _ _ _ _ _ => list Products.row
  | SELECT_COUNT_products _ => Z
  | SELECT_product_WHERE _ => list Products.row
  | SELECT_analytics => analytics
  | INSERT_INTO_products => list Products.row
  | SELECT_product_id_WHERE _ => list Z
  | UPDATE_products => list Products.row
  | SELECT_related_counts _ => list related_counts
  | DELETE_FROM_products => list Products.row
  | SELECT_retail_LIMIT_100 => list Retail.row
  end.

(** *** The environment

    What the sources do not settle: [NODE_ENV]; the meaning the database
    gives to each kind of WHERE condition for a bound value (or the error it
    raises for a value of the wrong type) and to ORDER BY; the analytics
    aggregate over [orders], a table the sources do not describe; how INSERT
    and UPDATE build a row from the bound values under the constraints of
    the schema; and [fault], the failures that do not depend on the
    statement's meaning (a lost connection, a missing table). *)

Record environment := mkEnv {
  NODE_ENV : option string;
  predicate : criterion -> value -> completion (Products.row -> bool);
  order_by : jsstring -> jsstring -> list Products.row -> list Products.row;
  analytics_of : store -> value -> completion analytics;
  insert_product :
    store -> list value -> completion (list Products.row * store);
  update_product :
    store -> list value -> completion (list Products.row * store);
  fault : sql -> list value -> option error
}.

Definition bindc {A B : Type} (m : completion A) (k : A -> completion B)
  : completion B :=
  match m with
  | Normal a => k a
  | Throw e => Throw e
  end.

Notation "x <-- m ;; k" := (bindc m (fun x => k))
  (at level 61, m at next level, right associativity).

Definition database_error (c msg : string) : error :=
  {| code := Some c; message := msg |}.

(** *** Bound parameters *)

(** [$index], counted from 1. *)
Definition parameter (params : list value) (index : nat) : completion value :=
  match index with
  | O => Throw (database_error "42P02" "there is no parameter $0")
  | S i =>
      match nth_error params i with
      | Some v => Normal v
      | None =>
          Throw (database_error "08P01"
                   "bind message supplies too few parameters")
      end
  end.

Definition is_pg_space (c : N) : bool :=
  existsb (N.eqb c) [9; 10; 11; 12; 13; 32]%N.

Fixpoint skip_pg_space (s : jsstring) : jsstring :=
  match s with
  | c :: s' => if is_pg_space c then skip_pg_space s' else s
  | [] => []
  end.

(** The integer a text denotes for the database: white space, an optional
    sign, decimal digits, white space.  (A server that also reads [0x],
    [0o] and [0b] prefixes or underscores reads the same integer from the
    texts read here.) *)
Definition integer_of_text (s : jsstring) : option Z :=
  let (neg, rest) := parse_sign (skip_pg_space s) in
  let (ds, rest') := span_digits 10 rest in
  match ds with
  | [] => None
  | _ =>
      if forallb is_pg_space rest'
      then Some (if neg then - digits_value 10 ds else digits_value 10 ds)
      else None
  end.

Definition is_integer (q : Q) : bool := (Qnum q mod Zpos (Qden q) =? 0).

Definition invalid_text_representation : error :=
  database_error "22P02" "invalid input syntax for type integer".

Definition numeric_value_out_of_range : error :=
  database_error "22003" "value out of range for type integer".

(** A bound value read as an integer of the given number of bits, NULL
    ([None]) for [null] and [undefined].  The driver sends a string as it
    is and a number as its decimal string, which is a numeral only for an
    integer below 10^21. *)
Definition integer_parameter (bits : Z) (v : value) : completion (option Z) :=
  let ranged (z : Z) : completion (option Z) :=
    if (- 2 ^ (bits - 1) <=? z) && (z <? 2 ^ (bits - 1))
    then Normal (Some z) else Throw numeric_value_out_of_range in
  match v with
  | undefined | null => Normal None
  | Str s =>
      match integer_of_text s with
      | Some z => ranged z
      | None => Throw invalid_text_representation
      end
  | Num (Finite q) =>
      if is_integer q && (Z.abs (Qnum q / Zpos (Qden q)) <? 10 ^ 21)
      then ranged (Qnum q / Zpos (Qden q))
      else Throw invalid_text_representation
  | Num _ | Bool _ | Obj _ => Throw invalid_text_representation
  end.

(** A bound value read as text.  The handlers bind only strings to text
    columns; the other cases are errors of the model, not of the database. *)
Definition text_parameter (v : value) : completion (option jsstring) :=
  match v with
  | undefined | null => Normal None
  | Str s => Normal (Some s)
  | _ => Throw (database_error "XX000" "not a string")
  end.

(** *** The meaning of the statements *)

Fixpoint where_clause (env : environment) (conditions : list condition)
    (params : list value) : completion (Products.row -> bool) :=
  match conditions with
  | [] => Normal (fun _ => true)
  | (f, index) :: rest =>
      v <-- parameter params index ;;
      p <-- predicate env f v ;;
      q <-- where_clause env rest params ;;
      Normal (fun r => p r && q r)
  end.

(** LIMIT and OFFSET; a NULL limit is no limit and a NULL offset is 0. *)
Definition limit_offset {A : Type} (limit offset : option Z) (rows : list A)
  : completion (list A) :=
  let skipped :=
    match offset with
    | Some o => skipn (Z.to_nat o) rows
    | None => rows
    end in
  match limit, offset with
  | Some l, _ =>
      if l <? 0 then
        Throw (database_error "2201W" "LIMIT must not be negative")
      else
        match offset with
        | Some o =>
            if o <? 0 then
              Throw (database_error "2201X" "OFFSET must not be negative")
            else Normal (firstn (Z.to_nat l) skipped)
        | None => Normal (firstn (Z.to_nat l) skipped)
        end
  | None, Some o =>
      if o <? 0 then
        Throw (database_error "2201X" "OFFSET must not be negative")
      else Normal skipped
  | None, None => Normal skipped
  end.

(** [WHERE ${searchField} = $1] on [products]. *)
Definition where_search_field (searchField : column) (v : value)
  : completion (Products.row -> bool) :=
  match searchField with
  | product_id =>
      key <-- integer_parameter 32 v ;;
      Normal (fun p =>
                match key with
                | Some z => Products.product_id p =? z
                | None => false
                end)
  | stock_code =>
      key <-- text_parameter v ;;
      Normal (fun p =>
                match key with
                | Some s => str_eqb (Products.stock_code p) s
                | None => false
                end)
  end.

(** The rows of [products p LEFT JOIN order_items oi ON p.product_id =
    oi.product_id LEFT JOIN inventory_movements im ON p.product_id =
    im.product_id] for one product: each matching order item paired with
    each matching movement, a side with no match filled with NULLs. *)
Definition left_join {A B : Type} (matching : list B) (left : list A)
  : list (A * option B) :=
  flat_map (fun a =>
              match matching with
              | [] => [(a, None)]
              | _ => map (fun b => (a, Some b)) matching
              end) left.

Definition joined_rows (st : store) (p : Products.row)
  : list (option OrderItems.row * option InventoryMovements.row) :=
  let ois :=
    filter (fun oi =>
              match OrderItems.product_id oi with
              | Some z => Products.product_id p =? z
              | None => false
              end) (order_items st) in
  let ims :=
    filter (fun im =>
              match InventoryMovements.product_id im with
              | Some z => Products.product_id p =? z
              | None => false
              end) (inventory_movements st) in
  left_join ims (map snd (left_join ois [tt])).

(** COUNT(x.id): the joined rows where the side is not NULL. *)
Definition count_some {A : Type} (l : list (option A)) : Z :=
  Z.of_nat (List.length (filter is_some l)).

(** One group for each selected product: [product_id] is the primary key. *)
Definition related_counts_of (st : store) (p : Products.row)
  : related_counts :=
  {| related_product_id := Products.product_id p;
     related_stock_code := Products.stock_code p;
     order_items_count := count_some (map fst (joined_rows st p));
     inventory_movements_count := count_some (map snd (joined_rows st p)) |}.

Definition run (env : environment) (q : sql) (params : list value)
    (st : store) : completion (rows_of q * store) :=
  match q return completion (rows_of q * store) with
  | SELECT_products conditions sortColumn sortOrderValue lim off =>
      p <-- where_clause env conditions params ;;
      l <-- parameter params lim ;;
      o <-- parameter params off ;;
      l' <-- integer_parameter 64 l ;;
      o' <-- integer_parameter 64 o ;;
      page <-- limit_offset l' o'
                 (order_by env sortColumn sortOrderValue
                    (filter p (products st))) ;;
      Normal (page, st)
  | SELECT_COUNT_products conditions =>
      p <-- where_clause env conditions params ;;
      Normal (Z.of_nat (List.length (filter p (products st))), st)
  | SELECT_product_WHERE searchField =>
      v <-- parameter params 1 ;;
      p <-- where_search_field searchField v ;;
      Normal (filter p (products st), st)
  | SELECT_analytics =>
      v <-- parameter params 1 ;;
      a <-- analytics_of env st v ;;
      Normal (a, st)
  | INSERT_INTO_products => insert_product env st params
  | SELECT_product_id_WHERE searchField =>
      v <-- parameter params 1 ;;
      p <-- where_search_field searchField v ;;
      Normal (map Products.product_id (filter p (products st)), st)
  | UPDATE_products => update_product env st params
  | SELECT_related_counts searchField =>
      v <-- parameter params 1 ;;
      p <-- where_search_field searchField v ;;
      Normal (map (related_counts_of st) (filter p (products st)), st)
  | DELETE_FROM_products =>
      v <-- parameter params 1 ;;
      p <-- where_search_field product_id v ;;
      Normal (filter p (products st),
              {| products := filter (fun r => negb (p r)) (products st);
                 order_items := order_items st;
                 inventory_movements := inventory_movements st;
                 retail := retail st |})
  | SELECT_retail_LIMIT_100 => Normal (firstn 100 (retail st), st)
  end.

(** *** Requests and responses *)

(** A parameter of the query string as the [qs] parser gives it: a string,
    or an array or object (see [JS.value] for what stands for those). *)
Inductive qvalue :=
| QStr (s : jsstring)
| QObj (toString : option jsstring).

Definition value_of (v : qvalue) : value :=
  match v with
  | QStr s => Str s
  | QObj t => Obj t
  end.

Record query_string := mkQuery {
  query_page : option qvalue;
  query_limit : option qvalue;
  query_search : option qvalue;
  query_sort_by : option qvalue;
  query_sort_order : option qvalue;
  query_category_id : option qvalue;
  query_is_active : option qvalue
}.

(** [page] and [limit] after [const { page = 1, limit = 10 } = req.query]:
    the handler's number when the parameter is absent, the caller's value
    otherwise. *)
Inductive numeric_parameter :=
| Default (n : Z)
| Given (v : qvalue).

Definition with_default (n : Z) (v : option qvalue) : numeric_parameter :=
  match v with
  | None => Default n
  | Some v => Given v
  end.

Definition value_of_parameter (p : numeric_parameter) : value :=
  match p with
  | Default n => Num (of_Z n)
  | Given v => value_of v
  end.

Definition object_to_primitive : error :=
  TypeError "Cannot convert object to primitive value".

(** [ToString] of a query parameter. *)
Definition ToString (v : qvalue) : completion jsstring :=
  match v with
  | QStr s => Normal s
  | QObj (Some s) => Normal s
  | QObj None => Throw object_to_primitive
  end.

(** [parseInt(page)]: of the parameter's string; the string of the default
    is its decimal numeral. *)
Definition parseInt_parameter (p : numeric_parameter) : completion number :=
  match p with
  | Default n => Normal (of_Z n)
  | Given v => s <-- ToString v ;; Normal (parseInt s)
  end.

(** A JSON body, as the own properties of the parsed object, each name
    once; a property the object does not have reads as [undefined]. *)
Definition object : Type := list (string * value).

Definition property (o : object) (name : string) : value :=
  match find (fun kv => String.eqb (fst kv) name) o with
  | Some (_, v) => v
  | None => undefined
  end.

Record pagination := mkPagination {
  current_page : number;
  total_pages : number;
  total_records : number;
  limit : number;
  has_next : bool;
  has_prev : bool
}.

Inductive body :=
| Error (error : string)
| ErrorRequired (error : string) (required : list string)
| ErrorMessage (error message : string)
| Failure (error : string)
| FailureMessage (error message : string)
| FailureRelated (error : string) (order_items inventory_movements : number)
| SuccessPage (data : list Products.row) (pagination : pagination)
| SuccessProduct (data : Products.row) (analytics : option analytics)
| SuccessMessage (message : string) (data : option Products.row)
| SuccessDeleted (message : string) (deleted_product : option Products.row)
| RetailRows (rows : list Retail.row).

Record response := mkResponse {
  status : Z;
  json : body
}.

(** *** Handlers as computations

    A handler runs against a session: the store, and the log of the
    statements sent so far.  It ends with a value or with a thrown error;
    either way the session is what the statements sent have made it. *)

Record session := mkSession {
  db : store;
  log : list (sql * list value)
}.

Definition M (A : Type) : Type := session -> completion A * session.

Definition ret {A : Type} (a : A) : M A := fun s => (Normal a, s).

Definition lift {A : Type} (c : completion A) : M A := fun s => (c, s).

Definition bind {A B : Type} (m : M A) (k : A -> M B) : M B :=
  fun s =>
    match m s with
    | (Normal a, s') => k a s'
    | (Throw e, s') => (Throw e, s')
    end.

Definition try_catch {A : Type} (block : M A) (catch : error -> M A) : M A :=
  fun s =>
    match block s with
    | (Normal a, s') => (Normal a, s')
    | (Throw e, s') => catch e s'
    end.

Notation "x <- m ;; k" := (bind m (fun x => k))
  (at level 61, m at next level, right associativity).

Definition throw {A : Type} (e : error) : M A := fun s => (Throw e, s).

(** [await Promise.all([a, b])]: both are started, in this order, before
    either is awaited; the first rejection is thrown. *)
Definition settled {A : Type} (m : M A) : M (completion A) :=
  fun s => let (c, s') := m s in (Normal c, s').

Definition Promise_all {A B : Type} (a : M A) (b : M B) : M (A * B) :=
  ra <- settled a ;;
  rb <- settled b ;;
  match ra, rb with
  | Normal x, Normal y => ret (x, y)
  | Throw e, _ => throw e
  | Normal _, Throw e => throw e
  end.

(** [client.query(text, params)] *)
Definition client_query (env : environment) (q : sql) (params : list value)
  : M (rows_of q) :=
  fun s =>
    let sent := {| db := db s; log := log s ++ [(q, params)] |} in
    match fault env q params with
    | Some e => (Throw e, sent)
    | None =>
        match run env q params (db s) with
        | Normal (rows, st) => (Normal rows, {| db := st; log := log sent |})
        | Throw e => (Throw e, sent)
        end
    end.

(** *** [validateProduct] *)

Definition string_length (v : value) : Z :=
  match v with
  | Str s => Z.of_nat (List.length s)
  | _ => 0
  end.

(** [Some r]: the middleware answers [r]; [None]: it calls [next()]. *)
Definition validateProduct (req_body : object)
  : completion (option response) :=
  let stock_code := property req_body "stock_code" in
  let description := property req_body "description" in
  let unit_price := property req_body "unit_price" in
  if negb (truthy stock_code) || negb (truthy description) then
    Normal (Some {| status := 400;
                    json := ErrorRequired "Missing required fields"
                              ["stock_code"; "description"] |})
  else if negb (typeof_string stock_code)
          || (20 <? string_length stock_code) then
    Normal (Some {| status := 400;
                    json := Error
                      "stock_code must be a string with maximum 20 characters"
                 |})
  else
    invalid <-- (if negb (is_undefined unit_price) then
                   nan <-- isNaN unit_price ;;
                   if nan then Normal true
                   else le_number unit_price (Finite 0)
                 else Normal false) ;;
    if invalid then
      Normal (Some {| status := 400;
                      json := Error "unit_price must be a positive number" |})
    else Normal None.

(** The bodies [validateProduct] is to refuse: [stock_code] or
    [description] missing, [stock_code] not a string of at most 20
    characters, or a [unit_price] that is present and converts to NaN or to
    a number that is at most 0. *)
Definition rejected_body (req_body : object) : Prop :=
  property req_body "stock_code" = undefined \/
  property req_body "description" = undefined \/
  ~ (exists s, property req_body "stock_code" = Str s /\
               (List.length s <= 20)%nat) \/
  (property req_body "unit_price" <> undefined /\
   exists n, ToNumber (property req_body "unit_price") = Normal n /\
             (n = NaN \/ le n (Finite 0) = true)).

(** *** [handleDatabaseError] *)

Definition code_is (e : error) (c : string) : bool :=
  match code e with
  | Some c' => String.eqb c' c
  | None => false
  end.

Definition is_development (env : environment) : bool :=
  match NODE_ENV env with
  | Some v => String.eqb v "development"
  | None => false
  end.

Definition handleDatabaseError (env : environment) (error : error)
  : response :=
  if code_is error "23505" then
    {| status := 409;
       json := Error "Product with this stock_code already exists" |}
  else if code_is error "23503" then
    {| status := 400; json := Error "Referenced record does not exist" |}
  else if code_is error "23514" then
    {| status := 400;
       json := Error
         "Data violates database constraints (e.g., negative stock or zero price)"
    |}
  else
    {| status := 500;
       json := ErrorMessage "Internal server error"
                 (if is_development env then message error
                  else "Database operation failed") |}.

(** The error-handling middleware registered last: what a request gets
    when a middleware throws. *)
Definition global_error_handler (env : environment) (error : error)
  : response :=
  {| status := 500;
     json := FailureMessage "Internal server error"
               (if is_development env then message error
                else "Something went wrong") |}.

(** The catch clause of the product handlers. *)
Definition catch_database_error (env : environment) (error : error)
  : M response :=
  ret (handleDatabaseError env error).

(** *** GET /api/products

    Each handler is its [try] block under its [catch] clause;
    [pool.connect()] and [client.release()] are left out. *)

Definition validSortColumns : list jsstring :=
  map lit ["product_id"; "stock_code"; "description"; "unit_price";
           "stock_quantity"; "created_at"; "updated_at"].

Definition validSortOrders : list jsstring := map lit ["ASC"; "DESC"].

Definition sortColumn (sort_by : qvalue) : jsstring :=
  match sort_by with
  | QStr s => if includes validSortColumns s then s else lit "stock_code"
  | QObj _ => lit "stock_code"
  end.

Definition sortOrderValue (sort_order : qvalue) : completion jsstring :=
  match sort_order with
  | QStr s =>
      if includes validSortOrders (toUpperCase s) then Normal (toUpperCase s)
      else Normal (lit "ASC")
  | QObj _ => Throw (TypeError "sort_order.toUpperCase is not a function")
  end.

Record builder := mkBuilder {
  whereConditions : list condition;
  queryParams : list value;
  paramIndex : nat
}.

Definition push (c : criterion) (v : value) (b : builder) : builder :=
  {| whereConditions := whereConditions b ++ [(c, paramIndex b)];
     queryParams := queryParams b ++ [v];
     paramIndex := S (paramIndex b) |}.

Definition search_condition (search : qvalue) (b : builder)
  : completion builder :=
  if truthy (value_of search) then
    s <-- ToString search ;;
    Normal (push description_or_stock_code_ILIKE
              (Str (lit "%" ++ s ++ lit "%")) b)
  else Normal b.

Definition category_condition (category_id : option qvalue) (b : builder)
  : builder :=
  match category_id with
  | Some v =>
      if truthy (value_of v) then push category_id_equals (value_of v) b
      else b
  | None => b
  end.

Definition active_condition (is_active : option qvalue) (b : builder)
  : builder :=
  match is_active with
  | Some v =>
      push is_active_equals
        (Bool match v with
              | QStr s => str_eqb s (lit "true")
              | QObj _ => false
              end) b
  | None => b
  end.



(** [queryParams.slice(0, -2)] *)
Definition slice_0_minus_2 {A : Type} (l : list A) : list A :=
  firstn (List.length l - 2) l.

(** [parseInt] of a count, which the driver hands over as the decimal
    string of a bigint. *)
Definition parseInt_count (count : Z) : number := of_Z count.

Definition get_products_try (env : environment) (req_query : query_string)
  : M response :=
  let page := with_default 1 (query_page req_query) in
  let limit := with_default 10 (query_limit req_query) in
  let search :=
    match query_search req_query with Some v => v | None => QStr [] end in
  let sort_by :=
    match query_sort_by req_query with
    | Some v => v
    | None => QStr (lit "stock_code")
    end in
  let sort_order :=
    match query_sort_order req_query with
    | Some v => v
    | None => QStr (lit "ASC")
    end in
  let category_id := query_category_id req_query in
  let is_active := query_is_active req_query in
  offset <- lift (p <-- ToNumber (value_of_parameter page) ;;
                  l <-- ToNumber (value_of_parameter limit) ;;
                  Normal (mul (sub p (Finite 1)) l)) ;;
  let sortColumn := sortColumn sort_by in
  sortOrderValue <- lift (sortOrderValue sort_order) ;;
  b <- lift (search_condition search
               {| whereConditions := []; queryParams := [];
                  paramIndex := 1 |}) ;;
  let b := category_condition category_id b in
  let b := active_condition is_active b in
  let query :=
    SELECT_products (whereConditions b) sortColumn sortOrderValue
      (paramIndex b) (paramIndex b + 1) in
  let countQuery := SELECT_COUNT_products (whereConditions b) in
  let queryParams :=
    queryParams b ++ [value_of_parameter limit; Num offset] in
  results <- Promise_all
               (client_query env query queryParams)
               (client_query env countQuery (slice_0_minus_2 queryParams)) ;;
  let (productsResult, countResult) := results in
  let total := parseInt_count countResult in
  l <- lift (ToNumber (value_of_parameter limit)) ;;
  let totalPages := Math_ceil (div total l) in
  current <- lift (parseInt_parameter page) ;;
  lim <- lift (parseInt_parameter limit) ;;
  next <- lift (lt_number (value_of_parameter page) totalPages) ;;
  prev <- lift (gt_number (value_of_parameter page) (Finite 1)) ;;
  ret {| status := 200;
         json := SuccessPage productsResult
                   {| current_page := current;
                      total_pages := totalPages;
                      total_records := total;
                      limit := lim;
                      has_next := next;
                      has_prev := prev |} |}.

Definition app_get_api_products (env : environment) (req_query : query_string)
  : M response :=
  try_catch (get_products_try env req_query) (catch_database_error env).

(** *** Lookup by [product_id] or [stock_code] *)

Definition isNumeric (id : jsstring) : bool :=
  negb (isNaN_number (StringToNumber id))
  && negb (isNaN_number (parseFloat id)).

Definition searchField (id : jsstring) : column :=
  if isNumeric id then product_id else stock_code.

Definition searchValue (id : jsstring) : value :=
  if isNumeric id then Num (parseInt id) else Str id.

(** *** GET /api/products/:id *)

Definition get_product_try (env : environment) (id : jsstring)
  : M response :=
  result <- client_query env (SELECT_product_WHERE (searchField id))
              [searchValue id] ;;
  match result with
  | [] => ret {| status := 404; json := Failure "Product not found" |}
  | row :: _ =>
      analyticsData <-
        try_catch
          (analyticsResult <-
             client_query env SELECT_analytics
               [Num (of_Z (Products.product_id row))] ;;
           ret (Some analyticsResult))
          (fun analyticsError => ret None) ;;
      ret {| status := 200; json := SuccessProduct row analyticsData |}
  end.

Definition app_get_api_products_id (env : environment) (id : jsstring)
  : M response :=
  try_catch (get_product_try env id) (catch_database_error env).

(** *** POST /api/products *)

Definition post_products_try (env : environment) (req_body : object)
  : M response :=
  let stock_code := property req_body "stock_code" in
  let description := property req_body "description" in
  let category_id := default null (property req_body "category_id") in
  let unit_price := property req_body "unit_price" in
  let stock_quantity :=
    default (Num (of_Z 0)) (property req_body "stock_quantity") in
  let reorder_level :=
    default (Num (of_Z 10)) (property req_body "reorder_level") in
  let supplier_info := default null (property req_body "supplier_info") in
  let is_active := default (Bool true) (property req_body "is_active") in
  let weight := default null (property req_body "weight") in
  let dimensions := default null (property req_body "dimensions") in
  result <- client_query env INSERT_INTO_products
              [stock_code; description; category_id; unit_price;
               stock_quantity; reorder_level; supplier_info;
               is_active; weight; dimensions] ;;
  ret {| status := 201;
         json := SuccessMessage "Product created successfully"
                   (hd_error result) |}.

Definition post_products (env : environment) (req_body : object)
  : M response :=
  try_catch (post_products_try env req_body) (catch_database_error env).

(** *** PUT /api/products/:id *)

Definition put_products_try (env : environment) (id : jsstring)
    (req_body : object) : M response :=
  checkResult <- client_query env (SELECT_product_id_WHERE (searchField id))
                   [searchValue id] ;;
  match checkResult with
  | [] => ret {| status := 404; json := Failure "Product not found" |}
  | productId :: _ =>
      result <- client_query env UPDATE_products
                  [property req_body "stock_code";
                   property req_body "description";
                   property req_body "category_id";
                   property req_body "unit_price";
                   property req_body "stock_quantity";
                   property req_body "reorder_level";
                   property req_body "supplier_info";
                   property req_body "is_active";
                   property req_body "weight";
                   property req_body "dimensions";
                   Num (of_Z productId)] ;;
      ret {| status := 200;
             json := SuccessMessage "Product updated successfully"
                       (hd_error result) |}
  end.

Definition put_products_id (env : environment) (id : jsstring)
    (req_body : object) : M response :=
  try_catch (put_products_try env id req_body) (catch_database_error env).

(** A route with [validateProduct] before its handler. *)
Definition validated (env : environment) (req_body : object)
    (handler : M response) : M response :=
  match validateProduct req_body with
  | Normal (Some answer) => ret answer
  | Normal None => handler
  | Throw error => ret (global_error_handler env error)
  end.

Definition app_post_api_products (env : environment) (req_body : object)
  : M response :=
  validated env req_body (post_products env req_body).

Definition app_put_api_products_id (env : environment) (id : jsstring)
    (req_body : object) : M response :=
  validated env req_body (put_products_id env id req_body).

(** *** DELETE /api/products/:id *)

Definition delete_product_try (env : environment) (id : jsstring)
  : M response :=
  checkResult <- client_query env (SELECT_related_counts (searchField id))
                   [searchValue id] ;;
  match checkResult with
  | [] => ret {| status := 404; json := Failure "Product not found" |}
  | product :: _ =>
      let totalRelatedRecords :=
        add (parseInt_count (order_items_count product))
            (parseInt_count (inventory_movements_count product)) in
      if gt totalRelatedRecords (Finite 0) then
        ret {| status := 409;
               json := FailureRelated
                 "Cannot delete product with existing related records"
                 (parseInt_count (order_items_count product))
                 (parseInt_count (inventory_movements_count product)) |}
      else
        result <- client_query env DELETE_FROM_products
                    [Num (of_Z (related_product_id product))] ;;
        ret {| status := 200;
               json := SuccessDeleted "Product deleted successfully"
                         (hd_error result) |}
  end.

Definition app_delete_api_products_id (env : environment) (id : jsstring)
  : M response :=
  try_catch (delete_product_try env id) (catch_database_error env).

(** *** GET /api/retail *)

Definition router_get_retail (env : environment) (req_query : query_string)
  : M response :=
  try_catch
    (result <- client_query env SELECT_retail_LIMIT_100 [] ;;
     ret {| status := 200; json := RetailRows result |})
    (fun err =>
       ret {| status := 500; json := Error "Database error occurred" |}).

(** A request served on a store: the response, the store afterwards and the
    statements sent. *)
Definition serve (handler : M response) (st : store)
  : completion response * session :=
  handler {| db := st; log := [] |}.

(** *** Products and their dependent rows, as the statements speak of them *)

(** The product an identifier names: the one with that [product_id] when
    the identifier is numeric, the one with that [stock_code] otherwise. *)
Definition names (id : jsstring) (p : Products.row) : Prop :=
  if isNumeric id
  then integer_parameter 32 (Num (parseInt id)) =
         Normal (Some (Products.product_id p))
  else Products.stock_code p = id.

Definition no_dependent_rows (st : store) (p : Products.row) : Prop :=
  (forall oi, In oi (order_items st) ->
     OrderItems.product_id oi <> Some (Products.product_id p)) /\
  (forall im, In im (inventory_movements st) ->
     InventoryMovements.product_id im <> Some (Products.product_id p)).

Definition some_dependent_row (st : store) (p : Products.row) : Prop :=
  (exists oi, In oi (order_items st) /\
     OrderItems.product_id oi = Some (Products.product_id p)) \/
  (exists im, In im (inventory_movements st) /\
     InventoryMovements.product_id im = Some (Products.product_id p)).

(** The store once the product is deleted. *)
Definition without (st : store) (p : Products.row) : store :=
  {| products :=
       filter (fun r => negb (Products.product_id r =? Products.product_id p))
         (products st);
     order_items := order_items st;
     inventory_movements := inventory_movements st;
     retail := retail st |}.

(** *** Sample data *)

(** An environment with no fault: every WHERE condition holds of every row,
    the table is kept in ascending order of the sort column so DESC is its
    reverse, analytics are empty, and INSERT and UPDATE refuse their values
    as the database does a value of the wrong type. *)
Definition sample_env : environment :=
  {| NODE_ENV := None;
     predicate := fun _ _ => Normal (fun _ => true);
     order_by := fun _ order rows =>
                   if str_eqb order (lit "DESC") then rev rows else rows;
     analytics_of := fun _ _ => Normal (mkAnalytics 0 None None None None);
     insert_product := fun _ _ =>
       Throw (database_error "22P02" "invalid input syntax for type numeric");
     update_product := fun _ _ =>
       Throw (database_error "22P02" "invalid input syntax for type numeric");
     fault := fun _ _ => None |}.

(** The same, with no [order_items] table: the analytics query fails. *)
Definition no_analytics_env : environment :=
  {| NODE_ENV := None;
     predicate := predicate sample_env;
     order_by := order_by sample_env;
     analytics_of := analytics_of sample_env;
     insert_product := insert_product sample_env;
     update_product := update_product sample_env;
     fault := fun q _ =>
                match q with
                | SELECT_analytics =>
                    Some (database_error "42P01"
                            "relation order_items does not exist")
                | _ => None
                end |}.

(** The same, with the database unreachable. *)
Definition down_env : environment :=
  {| NODE_ENV := Some "development";
     predicate := predicate sample_env;
     order_by := order_by sample_env;
     analytics_of := analytics_of sample_env;
     insert_product := insert_product sample_env;
     update_product := update_product sample_env;
     fault := fun _ _ =>
                Some (database_error "08006" "connection failure") |}.

Definition product_10002 : Products.row :=
  Products.mk 1 (lit "10002") (Some (lit "INFLATABLE POLITICAL GLOBE")) None
    (Some (17 # 20)%Q) (Some 20) (Some 10) None (Some true) None None 0 0.

Definition product_85123A : Products.row :=
  Products.mk 2 (lit "85123A") (Some (lit "WHITE HANGING HEART T-LIGHT HOLDER"))
    None (Some (51 # 20)%Q) (Some 6) (Some 10) None (Some true) None None 0 0.

Definition product_ABC123 : Products.row :=
  Products.mk 42 (lit "ABC123") (Some (lit "SAMPLE")) None
    (Some (1 # 1)%Q) (Some 3) (Some 10) None (Some true) None None 0 0.

Definition retail_line (i : Z) : Retail.row :=
  Retail.mk i (Some (lit "536365")) (Some (lit "85123A")) None (Some 6) None
    (Some (51 # 20)%Q) (Some 17850) (Some (lit "United Kingdom")).

Definition sample_store : store :=
  {| products := [product_10002; product_85123A; product_ABC123];
     order_items := [OrderItems.mk 1 (Some 2); OrderItems.mk 2 (Some 2)];
     inventory_movements := [InventoryMovements.mk 1 (Some 2)];
     retail := map (fun n => retail_line (Z.of_nat n)) (seq 1 150) |}.

Definition no_query : query_string :=
  mkQuery None None None None None None None.

Definition with_sort_by (q : query_string) (v : option qvalue)
  : query_string :=
  {| query_page := query_page q; query_limit := query_limit q;
     query_search := query_search q; query_sort_by := v;
     query_sort_order := query_sort_order q;
     query_category_id := query_category_id q;
     query_is_active := query_is_active q |}.

Definition with_sort_order (q : query_string) (v : option qvalue)
  : query_string :=
  {| query_page := query_page q; query_limit := query_limit q;
     query_search := query_search q; query_sort_by := query_sort_by q;
     query_sort_order := v;
     query_category_id := query_category_id q;
     query_is_active := query_is_active q |}.

(** [?sort_by=price&sort_order=DESC] *)
Definition query_price_DESC : query_string :=
  mkQuery None None None (Some (QStr (lit "price")))
    (Some (QStr (lit "DESC"))) None None.

(** [?sort_order=ASC&sort_order=DESC]: an array. *)
Definition query_two_orders : query_string :=
  mkQuery None None None None (Some (QObj (Some (lit "ASC,DESC")))) None None.



Definition body_boolean_price : object :=
  [("stock_code", Str (lit "A1")); ("description", Str (lit "Widget"));
   ("unit_price", Bool true)].

Definition body_string_price : object :=
  [("stock_code", Str (lit "A1")); ("description", Str (lit "Widget"));
   ("unit_price", Str (lit "5"))].

(** [{"unit_price": {"toString": 1}}] *)
Definition body_object_price : object :=
  [("stock_code", Str (lit "A1")); ("description", Str (lit "Widget"));
   ("unit_price", Obj None)].


Definition body_negative_price : object :=
  [("stock_code", Str (lit "A1")); ("description", Str (lit "Widget"));
   ("unit_price", Num (Finite (-1)))].

End Api.

(** ** The stock table under the two triggers *)

Module Stock.
Import Triggers.

(** A row that [enforce_positive_values] lets through. *)
Definition non_negative (r : Retail.row) : Prop :=
  ~ negative_int (Retail.quantity r) /\
  ~ negative_numeric (Retail.unit_price r).


Definition order_25 : Orders.row := Orders.mk (Some "85123A") (Some 25).

Definition order_NULL : Orders.row := Orders.mk (Some "85123A") None.

End Stock.

(** ** Monthly sales

    [get_monthly_sales(year_input INT, month_input INT)], the report over
    [generate_series(1, 12)] and the December query that is run under
    EXPLAIN ANALYZE. *)

Module Monthly.
Import JS.

(** A timestamp as its calendar fields and the microseconds since
    midnight; a DATE is a timestamp at midnight. *)
Record timestamp := mkTimestamp {
  year : Z;
  month : Z;
  day : Z;
  microseconds : Z
}.

Definition valid (t : timestamp) : Prop :=
  1 <= month t <= 12 /\ 1 <= day t <= 31 /\ 0 <= microseconds t < 86400000000.

(** [retail], with the columns that routes/retail.js declares. *)
Module Retail.
Record row := mk {
  id : Z;
  invoice_no : option jsstring;
  stock_code : option jsstring;
  description : option jsstring;
  quantity : option Z;
  invoice_date : option timestamp;
  unit_price : option Q;
  customer_id : option Z;
  country : option jsstring
}.
End Retail.

(** *** SQL expressions *)

Definition sql_eq_int (a b : option Z) : option bool :=
  match a, b with
  | Some x, Some y => Some (x =? y)
  | _, _ => None
  end.

Definition sql_and (a b : option bool) : option bool :=
  match a, b with
  | Some false, _ | _, Some false => Some false
  | Some true, Some true => Some true
  | _, _ => None
  end.

(** [quantity * unit_price]: integer by numeric. *)
Definition sql_times (a : option Z) (b : option Q) : option Q :=
  match a, b with
  | Some x, Some y => Some (inject_Z x * y)%Q
  | _, _ => None
  end.

Definition EXTRACT_YEAR (t : option timestamp) : option Z :=
  option_map year t.

Definition EXTRACT_MONTH (t : option timestamp) : option Z :=
  option_map month t.

(** The order of timestamps. *)
Definition timestamp_leb (a b : timestamp) : bool :=
  (year a <? year b)
  || ((year a =? year b)
      && ((month a <? month b)
          || ((month a =? month b)
              && ((day a <? day b)
                  || ((day a =? day b)
                      && (microseconds a <=? microseconds b)))))).

Definition sql_le_timestamp (a b : option timestamp) : option bool :=
  match a, b with
  | Some x, Some y => Some (timestamp_leb x y)
  | _, _ => None
  end.

(** [x BETWEEN low AND high] is [x >= low AND x <= high]. *)
Definition BETWEEN (x low high : option timestamp) : option bool :=
  sql_and (sql_le_timestamp low x) (sql_le_timestamp x high).

(** A date literal read as a timestamp. *)
Definition date (y m d : Z) : timestamp := mkTimestamp y m d 0.

(** *** Aggregates: NULL inputs are skipped, and the sum of no input is
    NULL. *)

Fixpoint non_null {A : Type} (xs : list (option A)) : list A :=
  match xs with
  | [] => []
  | Some x :: rest => x :: non_null rest
  | None :: rest => non_null rest
  end.

Definition total (xs : list Q) : Q := fold_right Qplus 0%Q xs.

Definition SUM (xs : list (option Q)) : option Q :=
  match non_null xs with
  | [] => None
  | vs => Some (total vs)
  end.

Definition COALESCE (a : option Q) (b : Q) : Q :=
  match a with
  | Some v => v
  | None => b
  end.

(** *** [get_monthly_sales] *)

Definition in_month (year_input month_input : option Z) (r : Retail.row)
  : bool :=
  Triggers.is_true
    (sql_and
       (sql_eq_int (EXTRACT_YEAR (Retail.invoice_date r)) year_input)
       (sql_eq_int (EXTRACT_MONTH (Retail.invoice_date r)) month_input)).

Definition sales (r : Retail.row) : option Q :=
  sql_times (Retail.quantity r) (Retail.unit_price r).

Definition get_monthly_sales (year_input month_input : option Z)
    (retail : list Retail.row) : Q :=
  COALESCE
    (SUM (map sales (filter (in_month year_input month_input) retail)))
    0%Q.

(** *** The report of a year, month by month

    [SELECT month_input AS month, get_monthly_sales(2020, month_input) AS
    total_sales FROM generate_series(1, 12) AS month_input], for any
    year. *)

Definition generate_series (start stop : Z) : list Z :=
  map (fun i => start + Z.of_nat i) (seq 0 (Z.to_nat (stop - start + 1))).

Definition report (year_input : Z) (retail : list Retail.row)
  : list (Z * Q) :=
  map (fun month_input =>
         (month_input,
          get_monthly_sales (Some year_input) (Some month_input) retail))
      (generate_series 1 12).

(** *** The December query

    [SELECT SUM(quantity * unit_price) AS total_sales FROM retail WHERE
    invoice_date BETWEEN '2010-12-01' AND '2010-12-31'] *)

Definition december_2010 (r : Retail.row) : bool :=
  Triggers.is_true
    (BETWEEN (Retail.invoice_date r)
       (Some (date 2010 12 1)) (Some (date 2010 12 31))).

Definition total_sales_december_2010 (retail : list Retail.row) : option Q :=
  SUM (map sales (filter december_2010 retail)).

(** *** The lines the statements speak of *)

(** The lines of a year, whatever the month. *)
Definition in_year (y : Z) (r : Retail.row) : bool :=
  Triggers.is_true (sql_eq_int (EXTRACT_YEAR (Retail.invoice_date r)) (Some y)).

(** The lines of the last day of 2010, after midnight. *)
Definition late_on_the_31st (r : Retail.row) : bool :=
  match Retail.invoice_date r with
  | Some t =>
      (year t =? 2010) && (month t =? 12) && (day t =? 31)
      && (0 <? microseconds t)
  | None => false
  end.

Definition valid_dates (retail : list Retail.row) : Prop :=
  forall r t, In r retail -> Retail.invoice_date r = Some t -> valid t.

(** *** Sample data *)

Definition line (i : Z) (q : option Z) (t : option timestamp) (p : option Q)
  : Retail.row :=
  Retail.mk i (Some (lit "536365")) (Some (lit "85123A")) None q t p
    (Some 17850) (Some (lit "United Kingdom")).

Definition sample_retail : list Retail.row :=
  [ line 1 (Some 6) (Some (mkTimestamp 2010 12 1 30360000000))
      (Some (51 # 20)%Q);
    line 2 (Some 2) (Some (mkTimestamp 2010 12 31 36000000000))
      (Some (7 # 2)%Q);
    line 3 (Some 4) (Some (mkTimestamp 2010 11 30 0)) (Some (5 # 1)%Q);
    line 4 None (Some (mkTimestamp 2010 12 5 0)) (Some (1 # 1)%Q);
    line 5 (Some 3) None (Some (1 # 1)%Q) ].

End Monthly.

(** ** Handlers over any session

    The computations of the handlers in routes/retail.js and of the
    utility endpoints: a state of any type, a value or a thrown error. *)

Module Async.
Import JS.

Definition M (S A : Type) : Type := S -> completion A * S.

Definition ret {S A : Type} (a : A) : M S A := fun s => (Normal a, s).

Definition lift {S A : Type} (c : completion A) : M S A := fun s => (c, s).

Definition bind {S A B : Type} (m : M S A) (k : A -> M S B) : M S B :=
  fun s =>
    match m s with
    | (Normal a, s') => k a s'
    | (Throw e, s') => (Throw e, s')
    end.

Definition try_catch {S A : Type} (block : M S A) (catch : error -> M S A)
  : M S A :=
  fun s =>
    match block s with
    | (Normal a, s') => (Normal a, s')
    | (Throw e, s') => catch e s'
    end.

End Async.

(** ** routes/retail.js *)

Module RetailRoutes.
Import JS Async.

Notation "x <- m ;; k" := (Async.bind m (fun x => k))
  (at level 61, m at next level, right associativity).

Notation "x <-- m ;; k" := (Api.bindc m (fun x => k))
  (at level 61, m at next level, right associativity).

Module Retail := Monthly.Retail.

Record store := mkStore {
  retail : list Retail.row
}.

(** A row of [get_inventory_status()]: the handler reads its [status];
    the function is not in the sources, so the other columns are kept as
    they come. *)
Record inventory_item := mkItem {
  status_column : value;
  other_columns : list (string * value)
}.

(** *** The statements *)

Inductive sql :=
| SELECT_get_monthly_sales
| SELECT_retail_WHERE_id
| INSERT_INTO_retail
| UPDATE_retail_WHERE_id
| DELETE_FROM_retail_WHERE_id
| SELECT_get_inventory_status.

(** What the handlers read of a result: the one row of a function call or
    of a single-row INSERT, the rows of the other statements. *)
Definition rows_of (q : sql) : Type :=
  match q with
  | SELECT_get_monthly_sales => Q
  | SELECT_retail_WHERE_id => list Retail.row
  | INSERT_INTO_retail => Retail.row
  | UPDATE_retail_WHERE_id => list Retail.row
  | DELETE_FROM_retail_WHERE_id => list Z
  | SELECT_get_inventory_status => list inventory_item
  end.

(** What the sources do not settle: how the database reads the eight bound
    column values of INSERT and UPDATE ([columns]: a row whose [id] is not
    read, or the error for a value it cannot read), the default of [id],
    the rows of [get_inventory_status()], and the failures that do not
    depend on the statement's meaning. *)
Record environment := mkEnv {
  columns : list value -> completion Retail.row;
  nextval : list Retail.row -> Z;
  get_inventory_status : completion (list inventory_item);
  fault : sql -> list value -> option error
}.

Definition with_id (i : Z) (r : Retail.row) : Retail.row :=
  {| Retail.id := i;
     Retail.invoice_no := Retail.invoice_no r;
     Retail.stock_code := Retail.stock_code r;
     Retail.description := Retail.description r;
     Retail.quantity := Retail.quantity r;
     Retail.invoice_date := Retail.invoice_date r;
     Retail.unit_price := Retail.unit_price r;
     Retail.customer_id := Retail.customer_id r;
     Retail.country := Retail.country r |}.

(** [trg_enforce_positive_values], BEFORE INSERT OR UPDATE ON retail FOR
    EACH ROW.  The function reads [NEW.quantity] and [NEW.unit_price] only;
    the exception reaches the client as an error of SQLSTATE P0001. *)
Definition trg_enforce_positive_values (NEW : Retail.row)
  : completion Retail.row :=
  match Triggers.enforce_positive_values
          (Triggers.Retail.mk (Retail.id NEW) None (Retail.quantity NEW)
             (Retail.unit_price NEW)) with
  | Triggers.Ok _ => Normal NEW
  | Triggers.Raised (Triggers.raise_exception msg) =>
      Throw (Api.database_error "P0001" msg)
  end.

(** [WHERE id = $n], [id] being an integer column. *)
Definition has_id (key : option Z) (r : Retail.row) : bool :=
  match key with
  | Some z => Retail.id r =? z
  | None => false
  end.

(** UPDATE, row by row: the new table and the rows RETURNING gives. *)
Fixpoint update_rows (cond : Retail.row -> bool)
    (set : Retail.row -> Retail.row) (rows : list Retail.row)
  : completion (list Retail.row * list Retail.row) :=
  match rows with
  | [] => Normal ([], [])
  | r :: rest =>
      if cond r then
        NEW <-- trg_enforce_positive_values (set r) ;;
        rest' <-- update_rows cond set rest ;;
        Normal (NEW :: fst rest', NEW :: snd rest')
      else
        rest' <-- update_rows cond set rest ;;
        Normal (r :: fst rest', snd rest')
  end.

Definition run (env : environment) (q : sql) (params : list value)
    (st : store) : completion (rows_of q * store) :=
  match q return completion (rows_of q * store) with
  | SELECT_get_monthly_sales =>
      y <-- Api.parameter params 1 ;;
      m <-- Api.parameter params 2 ;;
      year_input <-- Api.integer_parameter 32 y ;;
      month_input <-- Api.integer_parameter 32 m ;;
      Normal (Monthly.get_monthly_sales year_input month_input (retail st),
              st)
  | SELECT_retail_WHERE_id =>
      v <-- Api.parameter params 1 ;;
      key <-- Api.integer_parameter 32 v ;;
      Normal (filter (has_id key) (retail st), st)
  | INSERT_INTO_retail =>
      c <-- columns env params ;;
      NEW <-- trg_enforce_positive_values
                (with_id (nextval env (retail st)) c) ;;
      Normal (NEW, {| retail := retail st ++ [NEW] |})
  | UPDATE_retail_WHERE_id =>
      v <-- Api.parameter params 9 ;;
      key <-- Api.integer_parameter 32 v ;;
      c <-- columns env params ;;
      updated <-- update_rows (has_id key)
                    (fun r => with_id (Retail.id r) c) (retail st) ;;
      Normal (snd updated, {| retail := fst updated |})
  | DELETE_FROM_retail_WHERE_id =>
      v <-- Api.parameter params 1 ;;
      key <-- Api.integer_parameter 32 v ;;
      Normal (map Retail.id (filter (has_id key) (retail st)),
              {| retail := filter (fun r => negb (has_id key r)) (retail st) |})
  | SELECT_get_inventory_status =>
      rows <-- get_inventory_status env ;;
      Normal (rows, st)
  end.

(** *** Requests and responses *)

Inductive body :=
| Error (error : string)
| TotalSales (total_sales : Q)
| Row (row : Retail.row)
| NoContent
| InventoryStatus (inventory : list inventory_item)
    (total_items out_of_stock low_stock in_stock : Z).

Record response := mkResponse {
  status : Z;
  json : body
}.

Record session := mkSession {
  db : store;
  log : list (sql * list value)
}.

(** [db.query(text, params)] *)
Definition db_query (env : environment) (q : sql) (params : list value)
  : M session (rows_of q) :=
  fun s =>
    let sent := {| db := db s; log := log s ++ [(q, params)] |} in
    match fault env q params with
    | Some e => (Throw e, sent)
    | None =>
        match run env q params (db s) with
        | Normal (rows, st) => (Normal rows, {| db := st; log := log sent |})
        | Throw e => (Throw e, sent)
        end
    end.

Definition database_error_occurred : response :=
  {| status := 500; json := Error "Database error occurred" |}.

(** A parameter of the query string, [undefined] when it is absent. *)
Definition value_of_query (v : option Api.qvalue) : value :=
  match v with
  | Some v => Api.value_of v
  | None => undefined
  end.

Definition parseInt_query (v : option Api.qvalue) : completion number :=
  match v with
  | Some v => s <-- Api.ToString v ;; Normal (parseInt s)
  | None => Normal NaN
  end.

(** *** GET /monthly-sales *)

Definition router_get_monthly_sales (env : environment)
    (year month : option Api.qvalue) : M session response :=
  invalid <- lift
    (if negb (truthy (value_of_query year))
        || negb (truthy (value_of_query month))
     then Normal true
     else
       nan <-- isNaN (value_of_query year) ;;
       if nan then Normal true else isNaN (value_of_query month)) ;;
  if invalid then
    ret {| status := 400;
           json := Error
             "Please provide valid year and month as integers in the query string."
        |}
  else
    try_catch
      (y <- lift (parseInt_query year) ;;
       m <- lift (parseInt_query month) ;;
       result <- db_query env SELECT_get_monthly_sales [Num y; Num m] ;;
       ret {| status := 200; json := TotalSales result |})
      (fun err => ret database_error_occurred).

(** *** GET /:id *)

Definition invalid_id_format : response :=
  {| status := 400; json := Error "Invalid ID format" |}.

Definition record_not_found : response :=
  {| status := 404; json := Error "Record not found" |}.

Definition router_get_id (env : environment) (id : jsstring)
  : M session response :=
  if isNaN_number (StringToNumber id) then ret invalid_id_format
  else
    try_catch
      (result <- db_query env SELECT_retail_WHERE_id [Str id] ;;
       match result with
       | [] => ret record_not_found
       | row :: _ => ret {| status := 200; json := Row row |}
       end)
      (fun err => ret database_error_occurred).

(** *** POST / *)

Definition bound_columns (req_body : Api.object) : list value :=
  map (Api.property req_body)
    ["invoice_no"; "stock_code"; "description"; "quantity"; "invoice_date";
     "unit_price"; "customer_id"; "country"].

Definition router_post (env : environment) (req_body : Api.object)
  : M session response :=
  try_catch
    (result <- db_query env INSERT_INTO_retail (bound_columns req_body) ;;
     ret {| status := 201; json := Row result |})
    (fun err => ret database_error_occurred).

(** *** PUT /:id *)

Definition router_put_id (env : environment) (id : jsstring)
    (req_body : Api.object) : M session response :=
  if isNaN_number (StringToNumber id) then ret invalid_id_format
  else
    try_catch
      (result <- db_query env UPDATE_retail_WHERE_id
                   (bound_columns req_body ++ [Str id]) ;;
       match result with
       | [] => ret record_not_found
       | row :: _ => ret {| status := 200; json := Row row |}
       end)
      (fun err => ret database_error_occurred).

(** *** DELETE /:id *)

Definition router_delete_id (env : environment) (id : jsstring)
  : M session response :=
  if isNaN_number (StringToNumber id) then ret invalid_id_format
  else
    try_catch
      (result <- db_query env DELETE_FROM_retail_WHERE_id [Str id] ;;
       match result with
       | [] => ret record_not_found
       | _ :: _ => ret {| status := 204; json := NoContent |}
       end)
      (fun err => ret database_error_occurred).

(** *** GET /performance/inventory-status *)

(** [item.status === text] *)
Definition status_is (text : string) (item : inventory_item) : bool :=
  match status_column item with
  | Str s => str_eqb s (lit text)
  | _ => false
  end.

Definition count (text : string) (rows : list inventory_item) : Z :=
  Z.of_nat (List.length (filter (status_is text) rows)).

Definition router_get_inventory_status (env : environment)
  : M session response :=
  try_catch
    (result <- db_query env SELECT_get_inventory_status [] ;;
     ret {| status := 200;
            json := InventoryStatus result
                      (Z.of_nat (List.length result))
                      (count "OUT_OF_STOCK" result)
                      (count "LOW_STOCK" result)
                      (count "IN_STOCK" result) |})
    (fun err => ret database_error_occurred).

(** A request served on a store. *)
Definition serve (handler : M session response) (st : store)
  : completion response * session :=
  handler {| db := st; log := [] |}.

(** *** What the statements speak of *)

Definition no_fault (env : environment) : Prop :=
  forall q params, fault env q params = None.

(** A query parameter the check of GET /monthly-sales refuses: absent,
    empty, or a string that is not a number. *)
Definition refused (v : option jsstring) : bool :=
  match v with
  | None => true
  | Some [] => true
  | Some s => isNaN_number (StringToNumber s)
  end.

(** A decimal numeral with a fraction: digits, a point, digits. *)
Definition with_fraction (int frac : jsstring) : jsstring :=
  int ++ lit "." ++ frac.

(** *** Sample data *)

Definition sample_row (q : Z) (p : Q) : Retail.row :=
  Monthly.line 0 (Some q) (Some (Monthly.mkTimestamp 2010 12 1 0)) (Some p).

(** An environment whose database reads text, integer and numeric values
    as the product statements do, reads no date but NULL, numbers the
    rows from 1, and has no fault. *)
Definition sample_numeric (v : value) : completion (option Q) :=
  match v with
  | undefined | null => Normal None
  | Num (Finite p) => Normal (Some p)
  | _ => Throw (Api.database_error "22P02"
                  "invalid input syntax for type numeric")
  end.

Definition sample_timestamp (v : value)
  : completion (option Monthly.timestamp) :=
  match v with
  | undefined | null => Normal None
  | _ => Throw (Api.database_error "22007"
                  "invalid input syntax for type timestamp")
  end.

Definition sample_columns (params : list value) : completion Retail.row :=
  let bound i := nth i params undefined in
  invoice_no <-- Api.text_parameter (bound 0%nat) ;;
  stock_code <-- Api.text_parameter (bound 1%nat) ;;
  description <-- Api.text_parameter (bound 2%nat) ;;
  quantity <-- Api.integer_parameter 32 (bound 3%nat) ;;
  invoice_date <-- sample_timestamp (bound 4%nat) ;;
  unit_price <-- sample_numeric (bound 5%nat) ;;
  customer_id <-- Api.integer_parameter 32 (bound 6%nat) ;;
  country <-- Api.text_parameter (bound 7%nat) ;;
  Normal (Retail.mk 0 invoice_no stock_code description quantity
            invoice_date unit_price customer_id country).

Definition sample_env : environment :=
  {| columns := sample_columns;
     nextval := fun rows => 1 + Z.of_nat (List.length rows);
     get_inventory_status :=
       Normal [ mkItem (Str (lit "IN_STOCK")) [];
                mkItem (Str (lit "LOW_STOCK")) [];
                mkItem null [];
                mkItem (Str (lit "OUT_OF_STOCK")) [] ];
     fault := fun _ _ => None |}.

Definition sample_store : store := {| retail := Monthly.sample_retail |}.

Definition body_of (quantity : Z) (unit_price : Q) : Api.object :=
  [("stock_code", Str (lit "85123A"));
   ("quantity", Num (of_Z quantity));
   ("unit_price", Num (Finite unit_price))].

End RetailRoutes.

(** ** Routes

    How Express 4 finds the handler of a request: the routes are tried in
    the order of their registration, and the first whose path matches and
    whose method is the request's handles it.  HEAD and OPTIONS requests,
    which the router and the cors middleware treat on their own, are left
    out. *)

Module Express.
Import JS.

Inductive method := GET | POST | PUT | DELETE | PATCH.

Definition method_eqb (a b : method) : bool :=
  match a, b with
  | GET, GET | POST, POST | PUT, PUT | DELETE, DELETE | PATCH, PATCH => true
  | _, _ => false
  end.

(** A path pattern, segment by segment: ['/api/products/:id'] is two
    literals and a parameter. *)
Inductive segment :=
| literal (text : jsstring)
| param (name : jsstring).

(** The pieces of a string between its slashes. *)
Fixpoint split (s : jsstring) : list jsstring :=
  match s with
  | [] => [[]]
  | c :: s' =>
      if (c =? 47)%N then [] :: split s'
      else
        match split s' with
        | piece :: pieces => (c :: piece) :: pieces
        | [] => [[c]]
        end
  end.

Definition segment_of (piece : jsstring) : segment :=
  match piece with
  | c :: name => if (c =? 58)%N then param name else literal piece
  | [] => literal piece
  end.

Definition pattern_of (path : string) : list segment :=
  map segment_of (filter (fun piece => negb (str_eqb piece [])) (split (lit path))).

(** The patterns are matched without regard to case; only the letters of
    ASCII have another case that is in ASCII. *)
Definition ascii_upper (c : N) : N :=
  if ((97 <=? c) && (c <=? 122))%N then (c - 32)%N else c.

Definition same_ignoring_case (a b : jsstring) : bool :=
  str_eqb (map ascii_upper a) (map ascii_upper b).

(** The pieces of a path against a pattern: a literal matches its text, a
    parameter any piece that is not empty, and one slash may follow the
    last segment.  The result is the matched text of each parameter. *)
Fixpoint match_segments (pattern : list segment) (pieces : list jsstring)
  : option (list (jsstring * jsstring)) :=
  match pattern, pieces with
  | [], [] => Some []
  | [], [[]] => Some []
  | literal text :: pattern', piece :: pieces' =>
      if same_ignoring_case text piece then match_segments pattern' pieces'
      else None
  | param name :: pattern', piece :: pieces' =>
      match piece with
      | [] => None
      | _ =>
          match match_segments pattern' pieces' with
          | Some params => Some ((name, piece) :: params)
          | None => None
          end
      end
  | _, _ => None
  end.

Definition match_path (pattern : list segment) (path : jsstring)
  : option (list (jsstring * jsstring)) :=
  match split path with
  | [] :: pieces => match_segments pattern pieces
  | _ => None
  end.

(** The value of a parameter is its text decoded by [decodeURIComponent],
    which leaves a text with no percent sign as it is, and fails on a
    malformed escape ([None]). *)
Definition decode_param (decodeURIComponent : jsstring -> option jsstring)
    (text : jsstring) : option jsstring :=
  if existsb (N.eqb 37) text then decodeURIComponent text else Some text.

Fixpoint decode_params (decodeURIComponent : jsstring -> option jsstring)
    (matched : list (jsstring * jsstring))
  : option (list (jsstring * jsstring)) :=
  match matched with
  | [] => Some []
  | (name, text) :: rest =>
      match decode_param decodeURIComponent text,
            decode_params decodeURIComponent rest with
      | Some v, Some params => Some ((name, v) :: params)
      | _, _ => None
      end
  end.

Record route (E : Type) := mkRoute {
  route_method : method;
  route_path : list segment;
  endpoint : E
}.

Arguments mkRoute {E} _ _ _.
Arguments route_method {E} _.
Arguments route_path {E} _.
Arguments endpoint {E} _.

(** Where a request ends: in the handler of a route, with the parameters
    of its path; in the error handlers, when a parameter of a matching
    path does not decode (the routes after it are then passed over); or in
    what comes after the routes. *)
Inductive routed (E : Type) :=
| handled (e : E) (params : list (jsstring * jsstring))
| decode_failed
| unmatched.

Arguments handled {E} e params.
Arguments decode_failed {E}.
Arguments unmatched {E}.

(** A route's path is matched, and its parameters decoded, before its
    method is looked at. *)
Fixpoint dispatch {E : Type} (decodeURIComponent : jsstring -> option jsstring)
    (routes : list (route E)) (m : method) (path : jsstring) : routed E :=
  match routes with
  | [] => unmatched
  | r :: rest =>
      match match_path (route_path r) path with
      | Some matched =>
          match decode_params decodeURIComponent matched with
          | Some params =>
              if method_eqb (route_method r) m
              then handled (endpoint r) params
              else dispatch decodeURIComponent rest m path
          | None => decode_failed
          end
      | None => dispatch decodeURIComponent rest m path
      end
  end.

End Express.

(** ** The routes and the utility endpoints of index.js *)

Module Index.
Import JS Async Express.

Notation "x <- m ;; k" := (Async.bind m (fun x => k))
  (at level 61, m at next level, right associativity).

Notation "x <-- m ;; k" := (Api.bindc m (fun x => k))
  (at level 61, m at next level, right associativity).

Module Products := Api.Products.

(** *** The routes, in the order of their registration *)

Inductive handler :=
| get_api_products
| get_api_products_id
| post_api_products
| put_api_products_id
| delete_api_products_id
| get_api_products_analytics_summary
| get_api_products_low_stock
| get_api_health
| get_root.

Definition routes : list (route handler) :=
  [ mkRoute GET (pattern_of "/api/products") get_api_products;
    mkRoute GET (pattern_of "/api/products/:id") get_api_products_id;
    mkRoute POST (pattern_of "/api/products") post_api_products;
    mkRoute PUT (pattern_of "/api/products/:id") put_api_products_id;
    mkRoute DELETE (pattern_of "/api/products/:id") delete_api_products_id;
    mkRoute GET (pattern_of "/api/products/analytics/summary")
      get_api_products_analytics_summary;
    mkRoute GET (pattern_of "/api/products/low-stock")
      get_api_products_low_stock;
    mkRoute GET (pattern_of "/api/health") get_api_health;
    mkRoute GET (pattern_of "/") get_root ].

(** *** SQL aggregates over [products] *)

Definition Qleb (x y : Q) : bool := Qle_bool x y.

Definition Qmin (x y : Q) : Q := if Qleb x y then x else y.

Definition Qmax (x y : Q) : Q := if Qleb x y then y else x.

Definition sum_int (xs : list Z) : Z := fold_right Z.add 0 xs.

Definition SUM_int (xs : list (option Z)) : option Z :=
  match Monthly.non_null xs with
  | [] => None
  | vs => Some (sum_int vs)
  end.

Definition average (vs : list Q) : Q :=
  (Monthly.total vs / inject_Z (Z.of_nat (List.length vs)))%Q.

Definition AVG (xs : list (option Q)) : option Q :=
  match Monthly.non_null xs with
  | [] => None
  | vs => Some (average vs)
  end.

Definition MIN (xs : list (option Q)) : option Q :=
  match Monthly.non_null xs with
  | [] => None
  | v :: vs => Some (fold_right Qmin v vs)
  end.

Definition MAX (xs : list (option Q)) : option Q :=
  match Monthly.non_null xs with
  | [] => None
  | v :: vs => Some (fold_right Qmax v vs)
  end.

(** [COUNT(CASE WHEN condition THEN 1 END)]: the rows where the condition
    is true. *)
Definition COUNT_WHEN {A : Type} (condition : A -> option bool)
    (rows : list A) : Z :=
  Z.of_nat (List.length
              (filter (fun r => Triggers.is_true (condition r)) rows)).

Definition sql_eq_bool (a b : option bool) : option bool :=
  match a, b with
  | Some x, Some y => Some (Bool.eqb x y)
  | _, _ => None
  end.

Definition sql_le_int (a b : option Z) : option bool :=
  match a, b with
  | Some x, Some y => Some (x <=? y)
  | _, _ => None
  end.

Definition numeric_of_int (a : option Z) : option Q := option_map inject_Z a.

(** *** The statements *)

Inductive sql :=
| SELECT_summary.

Record summary := mkSummary {
  total_products : Z;
  active_products : Z;
  inactive_products : Z;
  avg_product_price : option Q;
  total_stock_quantity : option Z;
  low_stock_products : Z;
  min_price : option Q;
  max_price : option Q;
  avg_stock_quantity : option Q
}.

Definition rows_of (q : sql) : Type :=
  match q with
  | SELECT_summary => summary
  end.

(** [WHERE unit_price IS NOT NULL] *)
Definition priced (p : Products.row) : bool :=
  is_some (Products.unit_price p).

Definition summary_of (products : list Products.row) : summary :=
  let rows := filter priced products in
  {| total_products := Z.of_nat (List.length rows);
     active_products :=
       COUNT_WHEN (fun p => sql_eq_bool (Products.is_active p) (Some true))
         rows;
     inactive_products :=
       COUNT_WHEN (fun p => sql_eq_bool (Products.is_active p) (Some false))
         rows;
     avg_product_price := AVG (map Products.unit_price rows);
     total_stock_quantity := SUM_int (map Products.stock_quantity rows);
     low_stock_products :=
       COUNT_WHEN (fun p => sql_le_int (Products.stock_quantity p)
                              (Products.reorder_level p)) rows;
     min_price := MIN (map Products.unit_price rows);
     max_price := MAX (map Products.unit_price rows);
     avg_stock_quantity :=
       AVG (map (fun p => numeric_of_int (Products.stock_quantity p)) rows)
  |}.

(** What the sources do not settle: the environment of the product
    handlers (for [NODE_ENV]) and the failures of a statement. *)
Record environment := mkEnv {
  api : Api.environment;
  fault : sql -> option error
}.

Definition run (env : environment) (q : sql) (st : Api.store)
  : completion (rows_of q) :=
  match q return completion (rows_of q) with
  | SELECT_summary => Normal (summary_of (Api.products st))
  end.

Inductive body :=
| Summary (data : summary)
| Failed (json : Api.body).

Record response := mkResponse {
  status : Z;
  json : body
}.

Record session := mkSession {
  db : Api.store;
  log : list sql
}.

(** [client.query(text)] *)
Definition client_query (env : environment) (q : sql)
  : M session (rows_of q) :=
  fun s =>
    let sent := {| db := db s; log := log s ++ [q] |} in
    match fault env q with
    | Some e => (Throw e, sent)
    | None =>
        match run env q (db s) with
        | Normal rows => (Normal rows, sent)
        | Throw e => (Throw e, sent)
        end
    end.

Definition handleDatabaseError (env : environment) (error : error)
  : response :=
  let answer := Api.handleDatabaseError (api env) error in
  {| status := Api.status answer; json := Failed (Api.json answer) |}.

(** *** GET /api/products/analytics/summary *)

Definition app_get_api_products_analytics_summary (env : environment)
  : M session response :=
  try_catch
    (result <- client_query env SELECT_summary ;;
     ret {| status := 200; json := Summary result |})
    (fun error => ret (handleDatabaseError env error)).

Definition serve (handler : M session response) (st : Api.store)
  : completion response * session :=
  handler {| db := st; log := [] |}.

(** *** Sample data *)

Definition sample_env : environment :=
  {| api := Api.sample_env;
     fault := fun _ => None |}.

End Index.

(** ** The dashboard

    [fetchMonthlySales] of the dashboard page and its cache. *)

Module Dashboard.
Import JS.

(** What a request for a month comes to: [fetch] rejects, the response is
    not [ok], reading [total_sales] off the body throws (the body is not
    JSON, or is [null]), or the body gives [total_sales] ([undefined] when
    it has no such property). *)
Inductive answer :=
| rejected
| not_ok (status : Z)
| unreadable
| body (total_sales : value).

(** The cache by key, the latest entry first, and the requests sent so
    far.  The year and the month are integers, of which the key
    [`${year}-${month}`] is one for each pair. *)
Record state := mkState {
  cache : list ((Z * Z) * value);
  requests : list (Z * Z)
}.

Definition key_eqb (a b : Z * Z) : bool :=
  (fst a =? fst b) && (snd a =? snd b).

(** [cache[key]] *)
Definition cached (key : Z * Z) (s : state) : value :=
  match find (fun entry => key_eqb (fst entry) key) (cache s) with
  | Some (_, v) => v
  | None => undefined
  end.

(** The server, as the requests sent before let it answer. *)
Definition server : Type := list (Z * Z) -> Z -> Z -> answer.

Definition fetchMonthlySales (fetch : server) (year month : Z) (s : state)
  : value * state :=
  let key := (year, month) in
  if truthy (cached key s) then (cached key s, s)
  else
    let sent := requests s ++ [key] in
    match fetch (requests s) year month with
    | body total_sales =>
        (total_sales,
         {| cache := (key, total_sales) :: cache s; requests := sent |})
    | rejected | not_ok _ | unreadable =>
        (Num (of_Z 0), {| cache := cache s; requests := sent |})
    end.

(** *** Sample data *)

Definition december_only : server :=
  fun _ year month =>
    if (year =? 2010) && (month =? 12) then body (Str (lit "22.30"))
    else not_ok 500.

Definition empty : state := {| cache := []; requests := [] |}.

End Dashboard.

(* ================================================================== *)
(** * Part II: theorems *)
(* ================================================================== *)

(** The first statement of a block: unfold the query down to the fault and
    the meaning of the statement. *)
Ltac first_query :=
  unfold Api.bind at 1; unfold Api.client_query at 1;
  cbv beta iota zeta; cbn [Api.db Api.log app].

Section Numerals.
Import JS.

(** *** Digits and white space *)

Lemma is_digit_range c : is_digit c = true <-> (48 <= c <= 57)%N.
Proof.
  unfold is_digit. rewrite andb_true_iff, !N.leb_le. tauto.
Qed.

Lemma digit_in_10 c :
  digit_in 10 c = if is_digit c then Some (c - 48)%N else None.
Proof.
  unfold digit_in, is_digit.
  destruct (N.leb_spec 48 c), (N.leb_spec c 57); cbn [andb].
  - destruct (N.ltb_spec (c - 48) 10); [reflexivity | lia].
  - destruct (N.leb_spec 97 c), (N.leb_spec c 102); cbn [andb].
    + destruct (N.ltb_spec (c - 87) 10); [lia | reflexivity].
    + destruct (N.leb_spec 65 c), (N.leb_spec c 70); cbn [andb];
        try reflexivity; lia.
    + destruct (N.leb_spec 65 c), (N.leb_spec c 70); cbn [andb];
        try reflexivity.
      destruct (N.ltb_spec (c - 55) 10); [lia | reflexivity].
    + destruct (N.leb_spec 65 c), (N.leb_spec c 70); cbn [andb];
        try reflexivity; lia.
  - destruct (N.leb_spec 97 c), (N.leb_spec c 102); cbn [andb]; try lia.
    destruct (N.leb_spec 65 c), (N.leb_spec c 70); cbn [andb];
      try reflexivity; lia.
  - lia.
Qed.

Lemma span_digits_cons c s :
  span_digits 10 (c :: s) =
    if is_digit c
    then (let (ds, rest) := span_digits 10 s in ((c - 48)%N :: ds, rest))
    else ([], c :: s).
Proof.
  cbn [span_digits]. rewrite digit_in_10. now destruct (is_digit c).
Qed.

Lemma span_digits_all s :
  forallb is_digit s = true ->
  span_digits 10 s = (map (fun c => (c - 48)%N) s, []).
Proof.
  induction s as [|c s IH]; [reflexivity|].
  cbn [forallb map]. rewrite andb_true_iff. intros [Hc Hs].
  rewrite span_digits_cons, Hc, (IH Hs). reflexivity.
Qed.

Lemma digit_not_white_space c : is_digit c = true -> is_white_space c = false.
Proof.
  rewrite is_digit_range. intros H. unfold is_white_space. cbn [existsb].
  repeat match goal with
         | |- context [(c =? ?k)%N] =>
             destruct (N.eqb_spec c k); [lia|]
         end.
  cbn [orb].
  destruct (N.leb_spec 8192 c); [lia | reflexivity].
Qed.

Lemma digit_not_pg_space c : is_digit c = true -> Api.is_pg_space c = false.
Proof.
  rewrite is_digit_range. intros H. unfold Api.is_pg_space. cbn [existsb].
  repeat match goal with
         | |- context [(c =? ?k)%N] =>
             destruct (N.eqb_spec c k); [lia|]
         end.
  reflexivity.
Qed.

Lemma digit_not_sign c :
  is_digit c = true -> (c =? 45)%N = false /\ (c =? 43)%N = false.
Proof.
  rewrite is_digit_range. intros H.
  split; apply N.eqb_neq; lia.
Qed.

(** *** Trimming *)

Lemma trim_start_head s c r : trim_start s = c :: r -> is_white_space c = false.
Proof.
  induction s as [|a s IH]; [discriminate|]. cbn [trim_start].
  destruct (is_white_space a) eqn:E; [exact IH|].
  now intros [= <- <-].
Qed.

Lemma trim_start_suffix s : exists ws, s = ws ++ trim_start s.
Proof.
  induction s as [|a s [ws IH]]; [now exists []|]. cbn [trim_start].
  destruct (is_white_space a).
  - exists (a :: ws). cbn. now rewrite <- IH.
  - now exists [].
Qed.

Lemma trim_start_nil s : trim_start s = [] -> forallb is_white_space s = true.
Proof.
  induction s as [|a s IH]; [reflexivity|]. cbn [trim_start forallb].
  destruct (is_white_space a); [exact IH | discriminate].
Qed.

Lemma trim_start_not_white_space c s :
  is_white_space c = false -> trim_start (c :: s) = c :: s.
Proof. intros H. cbn [trim_start]. now rewrite H. Qed.

Lemma trim_end_prefix s : exists ws, s = trim_end s ++ ws.
Proof.
  unfold trim_end. destruct (trim_start_suffix (rev s)) as [ws H].
  exists (rev ws). rewrite <- rev_app_distr, <- H. symmetry.
  apply rev_involutive.
Qed.

Lemma trim_start_split s : exists ws, trim_start s = trim s ++ ws.
Proof. unfold trim. apply trim_end_prefix. Qed.

Lemma trim_nil s : trim s = [] -> trim_start s = [].
Proof.
  unfold trim, trim_end. intros H.
  destruct (trim_start s) as [|c r] eqn:E; [reflexivity|].
  exfalso. apply (f_equal (@rev N)) in H. rewrite rev_involutive in H.
  cbn [rev] in H. apply trim_start_nil in H.
  rewrite forallb_forall in H.
  assert (Hc : is_white_space c = true).
  { apply H. apply in_or_app. right. now left. }
  rewrite (trim_start_head _ _ _ E) in Hc. discriminate.
Qed.

Lemma trim_numeral s : is_numeral s = true -> trim s = s /\ trim_start s = s.
Proof.
  unfold is_numeral. destruct s as [|c s]; [discriminate|]. intros H.
  assert (Hs : trim_start (c :: s) = c :: s).
  { apply trim_start_not_white_space, digit_not_white_space.
    cbn [forallb] in H. now apply andb_true_iff in H. }
  split; [|exact Hs]. unfold trim, trim_end. rewrite Hs.
  assert (Hr : forallb is_digit (rev (c :: s)) = true).
  { rewrite forallb_forall in *. intros x Hx. apply H. now apply in_rev. }
  destruct (rev (c :: s)) as [|d r] eqn:E.
  - apply (f_equal (@rev N)) in E. now rewrite rev_involutive in E.
  - rewrite trim_start_not_white_space.
    + rewrite <- E. apply rev_involutive.
    + apply digit_not_white_space. cbn [forallb] in Hr.
      now apply andb_true_iff in Hr.
Qed.

(** *** The value of a numeral *)

Lemma to_double_safe_integer z :
  safe_integer z -> to_double (inject_Z z) = Finite (inject_Z z).
Proof.
  unfold safe_integer, to_double, Qle_bool, underflow_bound, overflow_bound.
  intros Hz. cbn [Qabs inject_Z Qnum Qden].
  assert (Hp : 1 < Z.pos (2 ^ 1075)) by now vm_compute.
  assert (Hq : 2 ^ 53 <= 2 ^ 1024 - 2 ^ 970) by (vm_compute; discriminate).
  set (P := (2 ^ 1075)%positive) in *. set (B := 2 ^ 1024 - 2 ^ 970) in *.
  clearbody P B.
  destruct (Z.leb_spec (Z.abs z * Z.pos P) (1 * 1)).
  - assert (z = 0) by nia. now subst z.
  - destruct (Z.leb_spec (B * 1) (Z.abs z * 1)); [lia | reflexivity].
Qed.

Lemma numeral_digits s :
  is_numeral s = true ->
  exists d ds, span_digits 10 s = (d :: ds, []) /\
               digits_value 10 (d :: ds) = numeral_value s.
Proof.
  unfold is_numeral, numeral_value. destruct s as [|c s]; [discriminate|].
  intros H. rewrite (span_digits_all _ H). cbn [map]. eauto.
Qed.

Lemma numeral_head s :
  is_numeral s = true -> exists c r, s = c :: r /\ is_digit c = true.
Proof.
  unfold is_numeral. destruct s as [|c s]; [discriminate|].
  cbn [forallb]. rewrite andb_true_iff. intros [H _]. eauto.
Qed.

Lemma parse_sign_digit c r :
  is_digit c = true -> parse_sign (c :: r) = (false, c :: r).
Proof.
  intros H. destruct (digit_not_sign c H) as [H1 H2].
  unfold parse_sign. now rewrite H1, H2.
Qed.

Lemma starts_with_Infinity_digit c r :
  is_digit c = true -> starts_with (lit "Infinity") (c :: r) = None.
Proof.
  rewrite is_digit_range. intros H.
  change (lit "Infinity") with (73%N :: lit "nfinity"). cbn [starts_with].
  destruct (N.eqb_spec 73 c); [lia | reflexivity].
Qed.

Lemma parseInt_numeral s :
  is_numeral s = true ->
  parseInt s = to_double (inject_Z (numeral_value s)).
Proof.
  intros H. destruct (numeral_head s H) as (c & r & -> & Hc).
  destruct (numeral_digits _ H) as (d & ds & Hspan & Hval).
  unfold parseInt.
  rewrite (proj2 (trim_numeral _ H)), (parse_sign_digit _ _ Hc).
  cbv beta iota zeta.
  assert (Hr : forall c', In c' r -> is_digit c' = true).
  { intros c' Hin. unfold is_numeral in H. rewrite forallb_forall in H.
    apply H. now right. }
  destruct r as [|c' r'].
  - rewrite Hspan, Hval. reflexivity.
  - specialize (Hr c' (or_introl eq_refl)). apply is_digit_range in Hr.
    destruct (N.eqb_spec c' 120); [lia|].
    destruct (N.eqb_spec c' 88); [lia|].
    rewrite andb_false_r, Hspan, Hval. reflexivity.
Qed.

Lemma StringToNumber_numeral s :
  is_numeral s = true ->
  StringToNumber s = to_double (inject_Z (numeral_value s)).
Proof.
  intros H. destruct (numeral_head s H) as (c & r & -> & Hc).
  destruct (numeral_digits _ H) as (d & ds & Hspan & Hval).
  unfold StringToNumber. rewrite (proj1 (trim_numeral _ H)).
  assert (Hnd : parse_non_decimal (c :: r) = None).
  { unfold parse_non_decimal. destruct r as [|c' r']; [reflexivity|].
    assert (Hc' : is_digit c' = true).
    { unfold is_numeral in H. cbn [forallb] in H.
      rewrite !andb_true_iff in H. tauto. }
    apply is_digit_range in Hc'.
    destruct (N.eqb_spec c' 120); [lia|].
    destruct (N.eqb_spec c' 88); [lia|].
    destruct (N.eqb_spec c' 111); [lia|].
    destruct (N.eqb_spec c' 79); [lia|].
    destruct (N.eqb_spec c' 98); [lia|].
    destruct (N.eqb_spec c' 66); [lia|].
    cbn [orb]. now destruct (negb (c =? 48)%N). }
  rewrite Hnd. unfold parse_decimal.
  rewrite (parse_sign_digit _ _ Hc). unfold parse_unsigned_decimal.
  rewrite (starts_with_Infinity_digit _ _ Hc), Hspan.
  cbn [after_point parse_exponent]. unfold decimal, scale.
  cbn [Z.leb Z.compare]. rewrite Hval, Z.pow_0_r, Z.mul_1_r. reflexivity.
Qed.

Lemma integer_of_text_numeral s :
  is_numeral s = true -> Api.integer_of_text s = Some (numeral_value s).
Proof.
  intros H. destruct (numeral_head s H) as (c & r & -> & Hc).
  destruct (numeral_digits _ H) as (d & ds & Hspan & Hval).
  unfold Api.integer_of_text. cbn [Api.skip_pg_space].
  rewrite (digit_not_pg_space _ Hc), (parse_sign_digit _ _ Hc), Hspan, Hval.
  reflexivity.
Qed.

End Numerals.

Section TriggerProperties.
Import Triggers.

(** *** The guard, as a predicate on the new row *)

Lemma is_true_lt_int v :
  is_true (sql_lt_int v (Some 0)) = true <-> negative_int v.
Proof.
  unfold negative_int; destruct v as [z|]; simpl.
  - destruct (Z.ltb_spec z 0); split; intros H'; try discriminate.
    + eauto.
    + reflexivity.
    + destruct H' as (z' & [= <-] & ?); lia.
  - split; [discriminate | intros (z & Hz & _); discriminate].
Qed.

Lemma is_true_lt_numeric v :
  is_true (sql_lt_numeric v (Some 0%Q)) = true <-> negative_numeric v.
Proof.
  unfold negative_numeric; destruct v as [q|]; simpl.
  - unfold Qltb.
    destruct (Qle_bool 0 q) eqn:E; simpl; split; intros H'; try discriminate.
    + destruct H' as (q' & [= <-] & Hlt).
      apply Qle_bool_iff in E. exfalso. exact (Qlt_not_le _ _ Hlt E).
    + exists q; split; [reflexivity|].
      apply Qnot_le_lt. intros Hle. apply Qle_bool_iff in Hle. congruence.
    + reflexivity.
  - split; [discriminate | intros (z & Hz & _); discriminate].
Qed.

Lemma enforce_positive_values_returns_NEW NEW r :
  enforce_positive_values NEW = Ok r -> r = NEW.
Proof.
  unfold enforce_positive_values.
  destruct (is_true (sql_lt_int _ _)); [discriminate|].
  destruct (is_true (sql_lt_numeric _ _)); [discriminate|].
  now intros [= <-].
Qed.

Lemma enforce_positive_values_accepts NEW :
  enforce_positive_values NEW = Ok NEW <->
  ~ negative_int (Retail.quantity NEW) /\
  ~ negative_numeric (Retail.unit_price NEW).
Proof.
  rewrite <- is_true_lt_int, <- is_true_lt_numeric.
  unfold enforce_positive_values.
  destruct (is_true (sql_lt_int _ _)), (is_true (sql_lt_numeric _ _));
    (split; intros H);
    try discriminate H; try (destruct H; congruence);
    try (split; discriminate); reflexivity.
Qed.

Lemma enforce_positive_values_rejects NEW :
  negative_int (Retail.quantity NEW) \/
  negative_numeric (Retail.unit_price NEW) ->
  enforce_positive_values NEW =
    Raised (raise_exception "Quantity cannot be negative") \/
  enforce_positive_values NEW =
    Raised (raise_exception "Unit price cannot be negative").
Proof.
  rewrite <- is_true_lt_int, <- is_true_lt_numeric.
  unfold enforce_positive_values.
  destruct (is_true (sql_lt_int _ _)), (is_true (sql_lt_numeric _ _));
    intros [?|?]; try discriminate; auto.
Qed.

(** *** UPDATE, row by row *)

Lemma update_rows_Ok cond set rows rows' :
  update_rows cond set rows = Ok rows' ->
  rows' = map (fun r => if cond r then set r else r) rows.
Proof.
  revert rows'; induction rows as [|r rest IH]; simpl; intros rows'.
  - now intros [= <-].
  - destruct (cond r) eqn:Hc.
    + destruct (enforce_positive_values (set r)) as [r1|e] eqn:He;
        simpl; [|discriminate].
      apply enforce_positive_values_returns_NEW in He; subst r1.
      destruct (update_rows cond set rest) as [rest'|e]; simpl; [|discriminate].
      intros [= <-]. now rewrite (IH rest' eq_refl).
    + simpl. destruct (update_rows cond set rest) as [rest'|e];
        simpl; [|discriminate].
      intros [= <-]. now rewrite (IH rest' eq_refl).
Qed.

Lemma update_rows_untouched cond set rows :
  (forall r, In r rows -> cond r = false) ->
  update_rows cond set rows = Ok rows.
Proof.
  induction rows as [|r rest IH]; simpl; intros H; [reflexivity|].
  rewrite (H r (or_introl eq_refl)); simpl.
  rewrite IH by (intros; apply H; now right). reflexivity.
Qed.

Lemma update_rows_accepted cond set rows :
  (forall r, In r rows -> cond r = true ->
             enforce_positive_values (set r) = Ok (set r)) ->
  update_rows cond set rows =
    Ok (map (fun r => if cond r then set r else r) rows).
Proof.
  induction rows as [|r rest IH]; simpl; intros H; [reflexivity|].
  rewrite IH by (intros; apply H; auto).
  destruct (cond r) eqn:Hc; simpl; [|reflexivity].
  rewrite (H r (or_introl eq_refl) Hc). reflexivity.
Qed.

Lemma update_rows_rejected cond set rows r :
  In r rows -> cond r = true ->
  negative_int (Retail.quantity (set r)) \/
  negative_numeric (Retail.unit_price (set r)) ->
  exists e, update_rows cond set rows = Raised e.
Proof.
  intros Hin Hc Hneg. induction rows as [|r0 rest IH]; [destruct Hin|].
  simpl. destruct Hin as [->|Hin].
  - rewrite Hc.
    destruct (enforce_positive_values_rejects _ Hneg) as [-> | ->];
      simpl; eauto.
  - destruct (if cond r0 then _ else _) as [r1|e]; simpl; [|eauto].
    destruct (IH Hin) as [e ->]. simpl; eauto.
Qed.

(** *** Transactions *)

Lemma execute_all_app ss1 ss2 db :
  execute_all (ss1 ++ ss2) db =
    (db1 <- execute_all ss1 db ;; execute_all ss2 db1).
Proof.
  revert db; induction ss1 as [|s ss1 IH]; simpl; intros db; [reflexivity|].
  destruct (execute s db) as [db'|e]; simpl; [apply IH | reflexivity].
Qed.

Lemma transaction_aborts before s after db :
  (forall db1, execute_all before db = Ok db1 ->
               exists e, execute s db1 = Raised e) ->
  exists e, transaction (before ++ s :: after) db = (db, ROLLBACK e).
Proof.
  intros H. unfold transaction. rewrite execute_all_app.
  destruct (execute_all before db) as [db1|e]; simpl; [|eauto].
  destruct (H db1 eq_refl) as [e ->]. simpl; eauto.
Qed.

Lemma transaction_all_or_nothing ss db db' e :
  transaction ss db = (db', ROLLBACK e) -> db' = db.
Proof.
  unfold transaction. destruct (execute_all ss db); now intros [= <-].
Qed.

(** C1: after an order row is inserted, every stock row the order refers to
    (the rows of [retail] whose [stockcode] equals the order's [product_id])
    has its quantity decreased by exactly the ordered quantity, and the order
    row and the decrement belong to one transaction: a transaction that
    holds the insert either commits, and then the statement has added the
    order row and decremented the stock at once, or leaves the database as
    it was.  A stock of 20 and an order of 5 leave 15. *)
Theorem update_stock_decrements_by_inserted_quantity :
  forall (db db' : database) (NEW : Orders.row)
         (before after : list statement) (o : outcome),
    transaction (before ++ INSERT_INTO_orders NEW :: after) db = (db', o) ->
    match o with
    | COMMIT =>
        exists db1 db2,
          execute_all before db = Ok db1 /\
          execute (INSERT_INTO_orders NEW) db1 = Ok db2 /\
          execute_all after db2 = Ok db' /\
          orders db2 = orders db1 ++ [NEW] /\
          retail db2 =
            map (fun r => if stock_row_of NEW r then decrement NEW r else r)
                (retail db1) /\
          (forall i r s q,
              nth_error (retail db1) i = Some r ->
              stock_row_of NEW r = true ->
              Retail.quantity r = Some s ->
              Orders.quantity NEW = Some q ->
              nth_error (retail db2) i =
                Some (Retail.set_quantity r (Some (s - q)))) /\
          (forall i r,
              nth_error (retail db1) i = Some r ->
              stock_row_of NEW r = true ->
              Retail.quantity r = Some 20 ->
              Orders.quantity NEW = Some 5 ->
              nth_error (retail db2) i =
                Some (Retail.set_quantity r (Some 15)))
    | ROLLBACK _ => db' = db
    end.
Proof.
  intros db db' NEW before after o. unfold transaction.
  rewrite execute_all_app.
  destruct (execute_all before db) as [db1|e]; cbn [bind];
    [|now intros [= <- <-]].
  cbn [execute_all].
  destruct (execute (INSERT_INTO_orders NEW) db1) as [db2|e] eqn:Hins;
    cbn [bind]; [|now intros [= <- <-]].
  destruct (execute_all after db2) as [db3|e] eqn:Hafter;
    intros [= <- <-]; [|reflexivity].
  exists db1, db2. split; [reflexivity|]. split; [exact Hins|].
  split; [exact Hafter|].
  cbn [execute] in Hins.
  unfold insert_orders, update_stock, update_retail in Hins.
  cbn [retail orders] in Hins.
  destruct (update_rows _ _ _) as [rows|e] eqn:Hu; cbn [bind] in Hins;
    [|discriminate].
  injection Hins as <-. cbn [retail orders].
  apply update_rows_Ok in Hu. subst rows.
  assert (Hrow : forall i r s q,
            nth_error (retail db1) i = Some r ->
            stock_row_of NEW r = true ->
            Retail.quantity r = Some s ->
            Orders.quantity NEW = Some q ->
            nth_error
              (map (fun r => if stock_row_of NEW r then decrement NEW r else r)
                   (retail db1)) i =
              Some (Retail.set_quantity r (Some (s - q)))).
  { intros i r s q Hi Hm Hs Hq.
    rewrite nth_error_map, Hi. cbn [option_map]. rewrite Hm.
    unfold decrement. now rewrite Hs, Hq. }
  repeat split; auto.
  intros i r Hi Hm Hs Hq. exact (Hrow i r 20 5 Hi Hm Hs Hq).
Qed.

(** The insert of an order commits whenever the decremented stock rows pass
    the guard on [retail]. *)
Lemma insert_orders_commits db NEW :
  (forall r, In r (retail db) -> stock_row_of NEW r = true ->
     ~ negative_int (Retail.quantity (decrement NEW r)) /\
     ~ negative_numeric (Retail.unit_price r)) ->
  transaction [INSERT_INTO_orders NEW] db =
    ({| retail :=
          map (fun r => if stock_row_of NEW r then decrement NEW r else r)
              (retail db);
        orders := orders db ++ [NEW] |}, COMMIT).
Proof.
  intros H. unfold transaction; simpl.
  unfold insert_orders, update_stock, update_retail; simpl.
  rewrite update_rows_accepted; [reflexivity|].
  intros r Hin Hm. apply enforce_positive_values_accepts.
  destruct (H r Hin Hm) as [Hq Hp]. split; [exact Hq | exact Hp].
Qed.

Lemma update_stock_decrements_by_inserted_quantity_witness :
  transaction ([] ++ [INSERT_INTO_orders order_5]) stock_20 =
    ({| retail := [ Retail.mk 1 (Some "85123A") (Some 15) (Some (5 # 2)%Q);
                    Retail.mk 2 (Some "71053") (Some 7) (Some (3 # 1)%Q) ];
        orders := [order_5] |}, COMMIT) /\
  exists db1 db2,
    execute_all [] stock_20 = Ok db1 /\
    execute (INSERT_INTO_orders order_5) db1 = Ok db2 /\
    nth_error (retail db2) 0 =
      Some (Retail.mk 1 (Some "85123A") (Some 15) (Some (5 # 2)%Q)).
Proof.
  split; [reflexivity|].
  destruct (update_stock_decrements_by_inserted_quantity stock_20 _ order_5
              [] [] COMMIT eq_refl)
    as (db1 & db2 & Hb & Hi & _ & _ & _ & _ & H15).
  exists db1, db2. split; [exact Hb|]. split; [exact Hi|].
  injection Hb as <-.
  exact (H15 0%nat (Retail.mk 1 (Some "85123A") (Some 20) (Some (5 # 2)%Q))
           eq_refl eq_refl eq_refl eq_refl).
Defined.

(** C2: an INSERT or UPDATE that would write a [retail] row with a negative
    quantity or a negative unit price raises the trigger's exception; the
    transaction that holds the statement is rolled back and the database is
    as it was before the transaction.  Zero is accepted: the trigger passes
    exactly the rows with no negative quantity and no negative unit price. *)
Theorem enforce_positive_values_rejects_negative :
  (forall NEW,
      negative_int (Retail.quantity NEW) \/
      negative_numeric (Retail.unit_price NEW) ->
      (enforce_positive_values NEW =
         Raised (raise_exception "Quantity cannot be negative") \/
       enforce_positive_values NEW =
         Raised (raise_exception "Unit price cannot be negative")) /\
      forall db before after,
        exists e,
          transaction (before ++ INSERT_INTO_retail NEW :: after) db =
            (db, ROLLBACK e)) /\
  (forall db before db1 after cond set r,
      execute_all before db = Ok db1 ->
      In r (retail db1) -> cond r = true ->
      negative_int (Retail.quantity (set r)) \/
      negative_numeric (Retail.unit_price (set r)) ->
      exists e,
        transaction (before ++ UPDATE_retail cond set :: after) db =
          (db, ROLLBACK e)) /\
  (forall NEW,
      enforce_positive_values NEW = Ok NEW <->
      ~ negative_int (Retail.quantity NEW) /\
      ~ negative_numeric (Retail.unit_price NEW)) /\
  (forall db NEW,
      (Retail.quantity NEW = Some 0 ->
       ~ negative_numeric (Retail.unit_price NEW) ->
       transaction [INSERT_INTO_retail NEW] db =
         ({| retail := retail db ++ [NEW]; orders := orders db |}, COMMIT)) /\
      ((exists p, Retail.unit_price NEW = Some p /\ (p == 0)%Q) ->
       ~ negative_int (Retail.quantity NEW) ->
       transaction [INSERT_INTO_retail NEW] db =
         ({| retail := retail db ++ [NEW]; orders := orders db |}, COMMIT))).
Proof.
  split; [|split; [|split]].
  - intros NEW Hneg. split; [now apply enforce_positive_values_rejects|].
    intros db before after. apply transaction_aborts. intros db1 _.
    simpl. unfold insert_retail.
    destruct (enforce_positive_values_rejects _ Hneg) as [-> | ->];
      simpl; eauto.
  - intros db before db1 after cond set r Hb Hin Hc Hneg.
    apply transaction_aborts. intros db2 Hb2.
    assert (db2 = db1) by congruence; subst db2.
    simpl. unfold update_retail.
    destruct (update_rows_rejected cond set _ r Hin Hc Hneg) as [e ->].
    simpl; eauto.
  - exact enforce_positive_values_accepts.
  - assert (Hins : forall db NEW,
               ~ negative_int (Retail.quantity NEW) ->
               ~ negative_numeric (Retail.unit_price NEW) ->
               transaction [INSERT_INTO_retail NEW] db =
                 ({| retail := retail db ++ [NEW]; orders := orders db |},
                  COMMIT)).
    { intros db NEW Hq Hp. unfold transaction; simpl. unfold insert_retail.
      rewrite (proj2 (enforce_positive_values_accepts NEW) (conj Hq Hp)).
      reflexivity. }
    intros db NEW. split.
    + intros Hq Hp. apply Hins; [|exact Hp].
      rewrite Hq. intros (z & [= <-] & ?). lia.
    + intros (p & Hp & Hz) Hq. apply Hins; [exact Hq|].
      rewrite Hp. intros (p' & [= <-] & Hlt).
      rewrite Hz in Hlt. exact (Qlt_irrefl _ Hlt).
Qed.

Lemma enforce_positive_values_rejects_negative_witness :
  (exists e,
     transaction [INSERT_INTO_retail negative_line] stock_20 =
       (stock_20, ROLLBACK e)) /\
  transaction [INSERT_INTO_retail zero_line] stock_20 =
    ({| retail := retail stock_20 ++ [zero_line]; orders := [] |}, COMMIT).
Proof.
  split.
  - refine (proj2 (proj1 enforce_positive_values_rejects_negative
                     negative_line _) stock_20 [] []).
    left. exists (-1). split; [reflexivity | lia].
  - refine (proj1 (proj2 (proj2 (proj2
              enforce_positive_values_rejects_negative)) stock_20 zero_line)
              eq_refl _).
    intros (q & [= <-] & Hlt). exact (Qlt_irrefl _ Hlt).
Defined.

(** C3 as the specification states it fails: an order for a product with no
    stock row commits, and the stock table is left as it was. *)
Lemma update_stock_skips_missing_product :
  existsb (stock_row_of order_unknown) (retail stock_20) = false /\
  transaction [INSERT_INTO_orders order_unknown] stock_20 =
    ({| retail := retail stock_20; orders := [order_unknown] |}, COMMIT).
Proof. split; reflexivity. Qed.

(** C3, amended: when no row of [retail] has the order's [product_id] as its
    [stockcode] (a NULL [product_id] included), the UPDATE of [update_stock]
    touches no row and raises nothing; the order row is committed and the
    stock table is unchanged. *)
Theorem update_stock_no_matching_row :
  forall (db : database) (NEW : Orders.row),
    (forall r, In r (retail db) -> stock_row_of NEW r = false) ->
    update_stock NEW db = Ok db /\
    transaction [INSERT_INTO_orders NEW] db =
      ({| retail := retail db; orders := orders db ++ [NEW] |}, COMMIT).
Proof.
  intros db NEW H. split.
  - unfold update_stock, update_retail.
    rewrite update_rows_untouched by exact H. now destruct db.
  - unfold transaction; simpl.
    unfold insert_orders, update_stock, update_retail. simpl.
    rewrite update_rows_untouched by exact H. reflexivity.
Qed.

Lemma update_stock_no_matching_row_witness :
  update_stock order_unknown stock_20 = Ok stock_20 /\
  transaction [INSERT_INTO_orders order_unknown] stock_20 =
    ({| retail := retail stock_20; orders := [] ++ [order_unknown] |}, COMMIT).
Proof.
  apply (update_stock_no_matching_row stock_20 order_unknown).
  intros r [<- | [<- | []]]; reflexivity.
Defined.

End TriggerProperties.


Section ErrorMapping.
Import JS Api.

Lemma try_catch_database_error env (block : M response) s :
  try_catch block (catch_database_error env) s =
    match block s with
    | (Normal r, s') => (Normal r, s')
    | (Throw e, s') => (Normal (handleDatabaseError env e), s')
    end.
Proof. unfold try_catch. destruct (block s) as [[r|e] s']; reflexivity. Qed.

Lemma code_is_iff e c : code_is e c = true <-> code e = Some c.
Proof.
  unfold code_is. destruct (code e) as [c'|].
  - rewrite String.eqb_eq. split; [now intros -> | now intros [= ->]].
  - split; discriminate.
Qed.

Lemma code_is_false e c : code e <> Some c -> code_is e c = false.
Proof.
  intros H. destruct (code_is e c) eqn:E; [|reflexivity].
  apply code_is_iff in E. contradiction.
Qed.

(** C8 as the specification states it fails: in GET /api/products/:id a
    failure of the analytics query is caught by the handler, and the
    response is a 200 with no analytics, not a 500. *)
Lemma analytics_failure_is_not_mapped :
  fault no_analytics_env SELECT_analytics [Num (of_Z 42)] =
    Some (database_error "42P01" "relation order_items does not exist") /\
  serve (app_get_api_products_id no_analytics_env (lit "ABC123")) sample_store =
    (Normal {| status := 200; json := SuccessProduct product_ABC123 None |},
     {| db := sample_store;
        log := [(SELECT_product_WHERE stock_code, [Str (lit "ABC123")]);
                (SELECT_analytics, [Num (of_Z 42)])] |}).
Proof. split; reflexivity. Qed.

(** C8, amended: every error that reaches [handleDatabaseError] is mapped by
    its code: 23505 to 409, 23503 to 400, 23514 to 400, anything else to 500
    with the error's own message in the development configuration only.
    The catch clause of each of the five product handlers passes what its
    try block throws to [handleDatabaseError]; the failure of the analytics
    query of GET /api/products/:id does not get there: it leaves the
    response a 200 whose analytics are null. *)
Theorem handleDatabaseError_taxonomy :
  forall (env : environment) (error : error),
    (code error = Some "23505" ->
     status (handleDatabaseError env error) = 409) /\
    (code error = Some "23503" ->
     status (handleDatabaseError env error) = 400) /\
    (code error = Some "23514" ->
     status (handleDatabaseError env error) = 400) /\
    (code error <> Some "23505" -> code error <> Some "23503" ->
     code error <> Some "23514" ->
     handleDatabaseError env error =
       {| status := 500;
          json := ErrorMessage "Internal server error"
                    (if is_development env then message error
                     else "Database operation failed") |}) /\
    (forall s s',
        (forall q, get_products_try env q s = (Throw error, s') ->
           app_get_api_products env q s =
             (Normal (handleDatabaseError env error), s')) /\
        (forall id, get_product_try env id s = (Throw error, s') ->
           app_get_api_products_id env id s =
             (Normal (handleDatabaseError env error), s')) /\
        (forall b, post_products_try env b s = (Throw error, s') ->
           post_products env b s =
             (Normal (handleDatabaseError env error), s')) /\
        (forall id b, put_products_try env id b s = (Throw error, s') ->
           put_products_id env id b s =
             (Normal (handleDatabaseError env error), s')) /\
        (forall id, delete_product_try env id s = (Throw error, s') ->
           app_delete_api_products_id env id s =
             (Normal (handleDatabaseError env error), s'))) /\
    (forall id st row rest,
        fault env (SELECT_product_WHERE (searchField id)) [searchValue id] =
          None ->
        run env (SELECT_product_WHERE (searchField id)) [searchValue id] st =
          Normal (row :: rest, st) ->
        fault env SELECT_analytics [Num (of_Z (Products.product_id row))] =
          Some error ->
        fst (serve (app_get_api_products_id env id) st) =
          Normal {| status := 200; json := SuccessProduct row None |}).
Proof.
  intros env error. repeat split.
  - intros H. unfold handleDatabaseError.
    now rewrite (proj2 (code_is_iff error "23505") H).
  - intros H. unfold handleDatabaseError.
    rewrite (code_is_false error "23505") by (rewrite H; discriminate).
    now rewrite (proj2 (code_is_iff error "23503") H).
  - intros H. unfold handleDatabaseError.
    rewrite (code_is_false error "23505") by (rewrite H; discriminate).
    rewrite (code_is_false error "23503") by (rewrite H; discriminate).
    now rewrite (proj2 (code_is_iff error "23514") H).
  - intros H1 H2 H3. unfold handleDatabaseError.
    now rewrite !code_is_false by assumption.
  - intros q H. unfold app_get_api_products.
    now rewrite try_catch_database_error, H.
  - intros id H. unfold app_get_api_products_id.
    now rewrite try_catch_database_error, H.
  - intros b H. unfold post_products.
    now rewrite try_catch_database_error, H.
  - intros id b H. unfold put_products_id.
    now rewrite try_catch_database_error, H.
  - intros id H. unfold app_delete_api_products_id.
    now rewrite try_catch_database_error, H.
  - intros id st row rest Hf Hr Ha.
    unfold serve, app_get_api_products_id.
    rewrite try_catch_database_error.
    unfold get_product_try. first_query. rewrite Hf, Hr.
    unfold try_catch. first_query. rewrite Ha. reflexivity.
Qed.

Lemma handleDatabaseError_taxonomy_witness :
  status (handleDatabaseError sample_env
            (database_error "23505" "duplicate key value")) = 409 /\
  serve (app_delete_api_products_id down_env (lit "42")) sample_store =
    (Normal {| status := 500;
               json := ErrorMessage "Internal server error"
                         "connection failure" |},
     {| db := sample_store;
        log := [(SELECT_related_counts product_id, [Num (of_Z 42)])] |}).
Proof.
  split.
  - exact (proj1 (handleDatabaseError_taxonomy sample_env
                    (database_error "23505" "duplicate key value")) eq_refl).
  - refine (proj2 (proj2 (proj2 (proj2
      (proj1 (proj2 (proj2 (proj2 (proj2
         (handleDatabaseError_taxonomy down_env
            (database_error "08006" "connection failure")))))) _ _))))
      (lit "42") _).
    reflexivity.
Defined.

End ErrorMapping.

Section RetailListing.
Import JS Api.

(** C10: GET /api/retail answers with at most 100 rows, the first 100 of the
    table when it holds more, however many rows the table holds; the
    handler reads nothing from the query string, so no parameter changes
    the answer, and the one statement it sends binds no value. *)
Theorem retail_listing_at_most_100_rows :
  forall (env : environment) (req_query : query_string) (st : store),
    (exists r s,
        serve (router_get_retail env req_query) st = (Normal r, s) /\
        log s = [(SELECT_retail_LIMIT_100, [])] /\
        db s = st /\
        match json r with
        | RetailRows rows =>
            status r = 200 /\
            rows = firstn 100 (retail st) /\
            (List.length rows <= 100)%nat
        | _ => status r = 500
        end) /\
    (fault env SELECT_retail_LIMIT_100 [] = None ->
     fst (serve (router_get_retail env req_query) st) =
       Normal {| status := 200;
                 json := RetailRows (firstn 100 (retail st)) |}) /\
    (forall req_query',
        router_get_retail env req_query' = router_get_retail env req_query).
Proof.
  intros env req_query st. split; [|split].
  - unfold serve, router_get_retail, try_catch, bind, client_query.
    cbv beta iota zeta. cbn [db log].
    destruct (fault env SELECT_retail_LIMIT_100 []) as [e|].
    + eexists _, _. split; [reflexivity|]. cbn. auto.
    + cbn [run]. eexists _, _. split; [reflexivity|]. cbn [log db json status].
      repeat split. apply firstn_le_length.
  - intros Hf. unfold serve, router_get_retail, try_catch, bind, client_query.
    cbv beta iota zeta. cbn [db log]. now rewrite Hf.
  - reflexivity.
Qed.

Lemma retail_listing_at_most_100_rows_witness :
  List.length (retail sample_store) = 150%nat /\
  fst (serve (router_get_retail sample_env no_query) sample_store) =
    Normal {| status := 200;
              json := RetailRows (firstn 100 (retail sample_store)) |}.
Proof.
  split; [reflexivity|].
  exact (proj1 (proj2 (retail_listing_at_most_100_rows sample_env no_query
                         sample_store)) eq_refl).
Defined.

End RetailListing.

Section Validation.
Import JS Api.

Lemma validated_answer env req_body handler answer st :
  validateProduct req_body = Normal (Some answer) ->
  serve (validated env req_body handler) st =
    (Normal answer, {| db := st; log := [] |}).
Proof. intros H. unfold serve, validated. now rewrite H. Qed.

Lemma validateProduct_rejects req_body :
  rejected_body req_body ->
  exists answer,
    validateProduct req_body = Normal (Some answer) /\ status answer = 400.
Proof.
  intros Hrej. unfold validateProduct.
  destruct (negb (truthy (property req_body "stock_code"))
            || negb (truthy (property req_body "description"))) eqn:E1;
    [eexists; split; reflexivity|].
  apply orb_false_elim in E1. destruct E1 as [Esc Ed].
  apply negb_false_iff in Esc, Ed.
  destruct (negb (typeof_string (property req_body "stock_code"))
            || (20 <? string_length (property req_body "stock_code")))
    eqn:E2; [eexists; split; reflexivity|].
  apply orb_false_elim in E2. destruct E2 as [Ety Elen].
  apply negb_false_iff in Ety. apply Z.ltb_ge in Elen.
  destruct Hrej as [H | [H | [H | (Hpresent & n & Hn & Hbad)]]].
  - rewrite H in Esc. discriminate.
  - rewrite H in Ed. discriminate.
  - exfalso. apply H.
    destruct (property req_body "stock_code") as [| | | |s|]; try discriminate.
    exists s. split; [reflexivity|]. simpl in Elen. lia.
  - set (up := property req_body "unit_price") in *.
    assert (Hu : is_undefined up = false)
      by (destruct up; try reflexivity; contradiction).
    rewrite Hu. cbn [negb]. unfold isNaN, le_number. rewrite Hn.
    cbn [bindc]. destruct Hbad as [-> | Hle].
    + cbn. eexists; split; reflexivity.
    + rewrite Hle. destruct (isNaN_number n); cbn; eexists; split; reflexivity.
Qed.

(** C4 as the specification states it fails: a [unit_price] that is the
    boolean [true] is present and is not a number, yet validation calls
    [next()] and the INSERT is sent. *)
Lemma validateProduct_accepts_boolean_price :
  validateProduct body_boolean_price = Normal None /\
  serve (app_post_api_products sample_env body_boolean_price) sample_store =
    (Normal {| status := 500;
               json := ErrorMessage "Internal server error"
                         "Database operation failed" |},
     {| db := sample_store;
        log := [(INSERT_INTO_products,
                 [Str (lit "A1"); Str (lit "Widget"); null; Bool true;
                  Num (of_Z 0); Num (of_Z 10); null; Bool true; null; null])]
     |}).
Proof. split; reflexivity. Qed.

(** A numeric string passes as well: ["5"] converts to 5. *)
Example validateProduct_accepts_numeric_string :
  validateProduct body_string_price = Normal None.
Proof. reflexivity. Qed.

(** A [unit_price] that cannot be converted makes [isNaN] throw: the
    request gets the 500 of the error-handling middleware, and no statement
    is sent either. *)
Example validateProduct_throws_on_unconvertible_price :
  serve (app_post_api_products sample_env body_object_price) sample_store =
    (Normal {| status := 500;
               json := FailureMessage "Internal server error"
                         "Something went wrong" |},
     {| db := sample_store; log := [] |}).
Proof. reflexivity. Qed.

(** C4, amended: on a create or update request validation runs before any
    statement is sent: when [stock_code] is missing, or [description] is
    missing, or [stock_code] is not a string of at most 20 characters, or
    [unit_price] is present and converts (by JavaScript's ToNumber) to NaN
    or to a number that is at most 0, the answer is a 400 and no statement
    reaches the database. *)
Theorem validation_runs_before_any_query :
  forall (env : environment) (id : jsstring) (req_body : object) (st : store),
    rejected_body req_body ->
    exists answer,
      status answer = 400 /\
      validateProduct req_body = Normal (Some answer) /\
      serve (app_post_api_products env req_body) st =
        (Normal answer, {| db := st; log := [] |}) /\
      serve (app_put_api_products_id env id req_body) st =
        (Normal answer, {| db := st; log := [] |}).
Proof.
  intros env id req_body st Hrej.
  destruct (validateProduct_rejects req_body Hrej) as (answer & Hv & Hs).
  exists answer. repeat split; [exact Hs | exact Hv | |].
  - unfold app_post_api_products. now apply validated_answer.
  - unfold app_put_api_products_id. now apply validated_answer.
Qed.

Lemma validation_runs_before_any_query_witness :
  exists answer,
    status answer = 400 /\
    validateProduct body_negative_price = Normal (Some answer) /\
    serve (app_post_api_products sample_env body_negative_price) sample_store =
      (Normal answer, {| db := sample_store; log := [] |}) /\
    serve (app_put_api_products_id sample_env (lit "42") body_negative_price)
      sample_store =
      (Normal answer, {| db := sample_store; log := [] |}).
Proof.
  apply (validation_runs_before_any_query sample_env (lit "42")
           body_negative_price sample_store).
  right; right; right. split; [discriminate|].
  exists (Finite (-1)). split; [reflexivity | right; reflexivity].
Defined.

End Validation.


Section Lookup.
Import JS Api.

(** *** When a prefix parses as a decimal literal *)

Lemma starts_with_app p t w r :
  starts_with p t = Some r -> starts_with p (t ++ w) = Some (r ++ w).
Proof.
  revert t; induction p as [|a p IH]; intros t; cbn [starts_with].
  - now intros [= <-].
  - destruct t as [|c t]; [discriminate|]. cbn [app].
    destruct (a =? c)%N; [apply IH | discriminate].
Qed.

Lemma parse_unsigned_decimal_start s :
  is_some (parse_unsigned_decimal s) = unsigned_decimal_start s.
Proof.
  unfold parse_unsigned_decimal, unsigned_decimal_start.
  destruct (starts_with (lit "Infinity") s); [reflexivity|].
  destruct s as [|c rest]; [reflexivity|].
  rewrite span_digits_cons. destruct (is_digit c); cbn [orb].
  - destruct (span_digits 10 rest) as [ds r1].
    destruct (after_point r1) as [rest2|].
    + destruct (span_digits 10 rest2) as [frac rest3].
      now destruct (parse_exponent rest3).
    + now destruct (parse_exponent r1).
  - cbn [after_point]. destruct (c =? 46)%N; cbn [andb]; [|reflexivity].
    destruct rest as [|d rest']; [reflexivity|].
    rewrite span_digits_cons. destruct (is_digit d); [|reflexivity].
    destruct (span_digits 10 rest') as [frac rest3].
    now destruct (parse_exponent rest3).
Qed.

Lemma parse_decimal_start s :
  is_some (parse_decimal s) = decimal_start s.
Proof.
  unfold parse_decimal, decimal_start.
  destruct (parse_sign s) as [neg rest]. cbn [snd].
  rewrite <- parse_unsigned_decimal_start.
  now destruct (parse_unsigned_decimal rest) as [[n r]|].
Qed.

Lemma unsigned_decimal_start_app t w :
  unsigned_decimal_start t = true -> unsigned_decimal_start (t ++ w) = true.
Proof.
  unfold unsigned_decimal_start.
  destruct (starts_with (lit "Infinity") t) as [r|] eqn:E.
  - now rewrite (starts_with_app _ _ w _ E).
  - destruct (starts_with (lit "Infinity") (t ++ w)); [reflexivity|].
    destruct t as [|c rest]; [discriminate|]. cbn [app].
    destruct (is_digit c); [reflexivity|]. cbn [orb].
    destruct (c =? 46)%N; [|discriminate]. cbn [andb].
    now destruct rest.
Qed.

Lemma decimal_start_app t w :
  decimal_start t = true -> decimal_start (t ++ w) = true.
Proof.
  unfold decimal_start, parse_sign.
  destruct t as [|c rest]; [discriminate|]. cbn [app].
  destruct (c =? 45)%N; cbn [snd]; [apply unsigned_decimal_start_app|].
  destruct (c =? 43)%N; cbn [snd]; [apply unsigned_decimal_start_app|].
  apply (unsigned_decimal_start_app (c :: rest)).
Qed.

Lemma decimal_start_digit c r :
  is_digit c = true -> decimal_start (c :: r) = true.
Proof.
  intros H. unfold decimal_start. rewrite (parse_sign_digit _ _ H). cbn [snd].
  unfold unsigned_decimal_start.
  now rewrite (starts_with_Infinity_digit _ _ H), H.
Qed.

Lemma parse_non_decimal_start t :
  is_some (parse_non_decimal t) = true -> decimal_start t = true.
Proof.
  unfold parse_non_decimal. destruct t as [|z [|c rest]]; try discriminate.
  destruct (N.eqb_spec z 48) as [->|]; cbn [negb]; [|discriminate].
  intros _. now apply decimal_start_digit.
Qed.

Lemma to_double_is_a_number q : isNaN_number (to_double q) = false.
Proof.
  unfold to_double.
  destruct (Qle_bool (Qabs q) underflow_bound); [reflexivity|].
  now destruct (Qle_bool overflow_bound (Qabs q)).
Qed.

Lemma parse_unsigned_decimal_is_a_number s n r :
  parse_unsigned_decimal s = Some (n, r) -> isNaN_number n = false.
Proof.
  unfold parse_unsigned_decimal, decimal.
  destruct (starts_with (lit "Infinity") s); [now intros [= <- <-]|].
  destruct (span_digits 10 s) as [int r1].
  destruct int as [|d int], (after_point r1) as [rest2|]; try discriminate.
  - destruct (span_digits 10 rest2) as [[|f frac] rest3]; [discriminate|].
    destruct (parse_exponent rest3). intros [= <- <-].
    apply to_double_is_a_number.
  - destruct (span_digits 10 rest2) as [frac rest3].
    destruct (parse_exponent rest3). intros [= <- <-].
    apply to_double_is_a_number.
  - destruct (parse_exponent r1). intros [= <- <-].
    apply to_double_is_a_number.
Qed.

Lemma parse_decimal_is_a_number s n r :
  parse_decimal s = Some (n, r) -> isNaN_number n = false.
Proof.
  unfold parse_decimal. destruct (parse_sign s) as [neg rest].
  destruct (parse_unsigned_decimal rest) as [[m r']|] eqn:E; [|discriminate].
  apply parse_unsigned_decimal_is_a_number in E.
  intros [= <- <-]. destruct neg; [|exact E]. now destruct m.
Qed.

(** The second test of [isNumeric] only excludes the blank strings, which
    [StringToNumber] takes to 0. *)
Lemma isNumeric_numeric_literal id : isNumeric id = numeric_literal id.
Proof.
  unfold isNumeric, numeric_literal, StringToNumber, parseFloat.
  destruct (trim id) as [|c r] eqn:Et.
  - now rewrite (trim_nil _ Et).
  - destruct (trim_start_split id) as [ws Hws]. rewrite Hws, Et.
    match goal with
    | |- negb (isNaN_number ?n) && _ = _ =>
        destruct (isNaN_number n) eqn:E; [reflexivity|]
    end.
    cbn [negb andb].
    assert (Hstart : decimal_start (c :: r) = true).
    { destruct (parse_non_decimal (c :: r)) as [[n [|x xs]]|] eqn:End.
      - apply parse_non_decimal_start. now rewrite End.
      - rewrite <- parse_decimal_start.
        destruct (parse_decimal (c :: r)) as [[m [|y ys]]|];
          try discriminate; reflexivity.
      - rewrite <- parse_decimal_start.
        destruct (parse_decimal (c :: r)) as [[m [|y ys]]|];
          try discriminate; reflexivity. }
    apply (decimal_start_app _ ws) in Hstart.
    rewrite <- parse_decimal_start in Hstart.
    destruct (parse_decimal ((c :: r) ++ ws)) as [[n' r']|] eqn:Ep;
      [|discriminate].
    now rewrite (parse_decimal_is_a_number _ _ _ Ep).
Qed.

Lemma isNumeric_numeral id : is_numeral id = true -> isNumeric id = true.
Proof.
  intros H. rewrite isNumeric_numeric_literal. unfold numeric_literal.
  rewrite (proj1 (trim_numeral _ H)), (StringToNumber_numeral _ H).
  rewrite to_double_is_a_number.
  destruct (numeral_head _ H) as (c & r & -> & _). reflexivity.
Qed.

(** C9: the lookup classifies its identifier and searches the matching
    column.  The identifier counts as numeric exactly when, white space
    around it apart, it is a numeric literal; then the statement compares
    [product_id] with [parseInt] of the identifier, and otherwise it
    compares [stock_code] with the identifier itself.  Every decimal
    numeral is numeric; [ABC123] is searched by [stock_code] and [42] by
    [product_id]. *)
Theorem lookup_classifies_identifier :
  (forall id, isNumeric id = numeric_literal id) /\
  (forall env id st,
      exists outcome s,
        serve (app_get_api_products_id env id) st = (outcome, s) /\
        hd_error (log s) =
          Some (SELECT_product_WHERE
                  (if numeric_literal id then product_id else stock_code),
                [if numeric_literal id then Num (parseInt id) else Str id])) /\
  (forall env st s,
      run env (SELECT_product_WHERE stock_code) [Str s] st =
        Normal (filter (fun p => str_eqb (Products.stock_code p) s)
                  (products st), st)) /\
  (forall env st z,
      - 2 ^ 31 <= z < 2 ^ 31 ->
      run env (SELECT_product_WHERE product_id) [Num (of_Z z)] st =
        Normal (filter (fun p => Products.product_id p =? z)
                  (products st), st)) /\
  (forall id, is_numeral id = true -> searchField id = product_id) /\
  (searchField (lit "ABC123") = stock_code /\
   searchValue (lit "ABC123") = Str (lit "ABC123")) /\
  (searchField (lit "42") = product_id /\
   searchValue (lit "42") = Num (of_Z 42)).
Proof.
  split; [exact isNumeric_numeric_literal|].
  split; [|split; [|split; [|split; [|split]]]].
  - intros env id st.
    unfold serve, app_get_api_products_id. rewrite try_catch_database_error.
    unfold get_product_try. first_query.
    unfold searchField, searchValue. rewrite <- isNumeric_numeric_literal.
    destruct (fault env _ _) as [e|].
    + eexists _, _. split; reflexivity.
    + destruct (run env _ _ st) as [[rows st']|e].
      * destruct rows as [|row rows]; [eexists _, _; split; reflexivity|].
        unfold bind, try_catch, client_query, ret.
        cbv beta iota zeta. cbn [db log].
        destruct (fault env SELECT_analytics _) as [e|];
          [eexists _, _; split; reflexivity|].
        destruct (run env SELECT_analytics _ st') as [[a st'']|e];
          eexists _, _; split; reflexivity.
      * eexists _, _. split; reflexivity.
  - intros env st s. reflexivity.
  - intros env st z Hz. cbn [run parameter nth_error bindc].
    unfold where_search_field, integer_parameter, of_Z, is_integer.
    cbn [inject_Z Qnum Qden]. rewrite Z.mod_1_r, Z.div_1_r. cbn [Z.eqb andb].
    assert (H21 : 2 ^ 31 < 10 ^ 21) by reflexivity.
    change (2 ^ (32 - 1)) with (2 ^ 31).
    destruct (Z.ltb_spec (Z.abs z) (10 ^ 21)); [|lia].
    destruct (Z.leb_spec (- 2 ^ 31) z); [|lia].
    destruct (Z.ltb_spec z (2 ^ 31)); [|lia].
    reflexivity.
  - intros id H. unfold searchField. now rewrite (isNumeric_numeral _ H).
  - split; reflexivity.
  - split; reflexivity.
Qed.

(** A stock code made of digits is numeric: GET /api/products/10002 looks
    for the product whose [product_id] is 10002 and finds none, though a
    product has that stock code. *)
Example numeric_stock_code_is_searched_by_product_id :
  In product_10002 (products sample_store) /\
  Products.stock_code product_10002 = lit "10002" /\
  serve (app_get_api_products_id sample_env (lit "10002")) sample_store =
    (Normal {| status := 404; json := Failure "Product not found" |},
     {| db := sample_store;
        log := [(SELECT_product_WHERE product_id, [Num (of_Z 10002)])] |}).
Proof. repeat split. now left. Qed.

Example lookup_by_stock_code_and_by_product_id :
  fst (serve (app_get_api_products_id sample_env (lit "ABC123")) sample_store) =
    Normal {| status := 200;
              json := SuccessProduct product_ABC123
                        (Some (mkAnalytics 0 None None None None)) |} /\
  fst (serve (app_get_api_products_id sample_env (lit "42")) sample_store) =
    Normal {| status := 200;
              json := SuccessProduct product_ABC123
                        (Some (mkAnalytics 0 None None None None)) |}.
Proof. split; reflexivity. Qed.

End Lookup.

Section Listing.
Import JS Api.

Lemma str_eqb_eq a b : str_eqb a b = true <-> a = b.
Proof.
  revert b; induction a as [|x a IH]; intros [|y b]; cbn [str_eqb];
    try (split; [discriminate | discriminate]); [tauto|].
  rewrite andb_true_iff, N.eqb_eq, IH.
  split; [now intros [-> ->] | now intros [= -> ->]].
Qed.

Lemma sortColumn_default v :
  (forall s, v = QStr s -> includes validSortColumns s = false) ->
  sortColumn v = lit "stock_code".
Proof.
  intros H. destruct v as [s|t]; [|reflexivity].
  unfold sortColumn. now rewrite (H s eq_refl).
Qed.

Lemma sortOrderValue_string s :
  sortOrderValue (QStr s) =
    Normal (if str_eqb (toUpperCase s) (lit "DESC") then lit "DESC"
            else lit "ASC").
Proof.
  unfold sortOrderValue, includes, validSortOrders. cbn [map existsb].
  destruct (str_eqb (toUpperCase s) (lit "ASC")) eqn:Ea.
  - apply str_eqb_eq in Ea. now rewrite Ea.
  - destruct (str_eqb (toUpperCase s) (lit "DESC")) eqn:Ed; [|reflexivity].
    apply str_eqb_eq in Ed. now rewrite Ed.
Qed.

(** *** Page and limit as numerals *)

Lemma safe_integer_bounds z :
  safe_integer z -> Z.abs z < 10 ^ 21 /\ - 2 ^ 63 <= z < 2 ^ 63.
Proof.
  unfold safe_integer. intros H.
  assert (2 ^ 53 < 10 ^ 21) by reflexivity.
  assert (2 ^ 53 < 2 ^ 63) by reflexivity.
  lia.
Qed.






(** *** Successful runs, step by step *)






(** *** The placeholders of the listing name the values bound to them *)









(** *** The listing succeeds on a sound database *)















(** C5 as the specification states it fails: with a [sort_by] outside the
    allow-list and [sort_order=DESC], the listing is ordered by the default
    column in descending order. *)
Lemma unknown_sort_by_with_DESC_sorts_descending :
  includes validSortColumns (lit "price") = false /\
  serve (app_get_api_products sample_env query_price_DESC) sample_store =
    (Normal
       {| status := 200;
          json := SuccessPage [product_ABC123; product_85123A; product_10002]
                    {| current_page := of_Z 1; total_pages := of_Z 1;
                       total_records := of_Z 3; limit := of_Z 10;
                       has_next := false; has_prev := false |} |},
     {| db := sample_store;
        log := [(SELECT_products [] (lit "stock_code") (lit "DESC") 1 2,
                 [Num (of_Z 10); Num (Finite 0)]);
                (SELECT_COUNT_products [], [])] |}).
Proof. split; vm_compute; reflexivity. Qed.

(** A [sort_order] that is not a string has no [toUpperCase]: the handler
    answers 500 and sends nothing. *)
Example sort_order_array_is_an_error :
  serve (app_get_api_products sample_env query_two_orders) sample_store =
    (Normal {| status := 500;
               json := ErrorMessage "Internal server error"
                         "Database operation failed" |},
     {| db := sample_store; log := [] |}).
Proof. reflexivity. Qed.

(** C5, amended: a [sort_by] outside the allow-list (or not a string) is
    the same request as one with no [sort_by]: the listing is ordered by
    the default column [stock_code], in the direction [sort_order] gives,
    and the fallback raises nothing.  A [sort_order] string that is neither
    ASC nor DESC when put in upper case is the same request as one with no
    [sort_order]: the order is ASC; the order is DESC exactly when the
    string in upper case is DESC. *)
Theorem sort_parameters_fall_back :
  forall (env : environment) (q : query_string),
    (forall v,
        (forall s, v = QStr s -> includes validSortColumns s = false) ->
        sortColumn v = lit "stock_code" /\
        app_get_api_products env (with_sort_by q (Some v)) =
          app_get_api_products env (with_sort_by q None)) /\
    (forall s,
        includes validSortOrders (toUpperCase s) = false ->
        sortOrderValue (QStr s) = Normal (lit "ASC") /\
        app_get_api_products env (with_sort_order q (Some (QStr s))) =
          app_get_api_products env (with_sort_order q None)) /\
    (forall s,
        sortOrderValue (QStr s) =
          Normal (if str_eqb (toUpperCase s) (lit "DESC") then lit "DESC"
                  else lit "ASC")).
Proof.
  intros env q. split; [|split].
  - intros v Hv. pose proof (sortColumn_default v Hv) as Hc.
    split; [exact Hc|].
    unfold app_get_api_products, get_products_try, with_sort_by.
    cbn [query_page query_limit query_search query_sort_by query_sort_order
         query_category_id query_is_active].
    rewrite Hc. reflexivity.
  - intros s Hs.
    assert (Ho : sortOrderValue (QStr s) = Normal (lit "ASC"))
      by (unfold sortOrderValue; now rewrite Hs).
    split; [exact Ho|].
    unfold app_get_api_products, get_products_try, with_sort_order.
    cbn [query_page query_limit query_search query_sort_by query_sort_order
         query_category_id query_is_active].
    rewrite Ho. reflexivity.
  - exact sortOrderValue_string.
Qed.

Lemma sort_parameters_fall_back_witness :
  (sortColumn (QStr (lit "price")) = lit "stock_code" /\
   app_get_api_products sample_env
     (with_sort_by no_query (Some (QStr (lit "price")))) =
   app_get_api_products sample_env (with_sort_by no_query None)) /\
  (sortOrderValue (QStr (lit "down")) = Normal (lit "ASC") /\
   app_get_api_products sample_env
     (with_sort_order no_query (Some (QStr (lit "down")))) =
   app_get_api_products sample_env (with_sort_order no_query None)).
Proof.
  split.
  - apply (proj1 (sort_parameters_fall_back sample_env no_query)).
    now intros s [= <-].
  - apply (proj1 (proj2 (sort_parameters_fall_back sample_env no_query))).
    reflexivity.
Defined.

End Listing.

Section Deletion.
Import JS Api.

Lemma filter_none {A : Type} (f : A -> bool) (l : list A) :
  (forall x, In x l -> f x = false) -> filter f l = [].
Proof.
  induction l as [|a l IH]; intros H; [reflexivity|]. cbn [filter].
  rewrite (H a (or_introl eq_refl)). apply IH. intros x Hx. apply H. now right.
Qed.

(** A row is the only one with its key when the key is unique. *)
Lemma filter_key {A K : Type} (key : A -> K) (eqb : K -> K -> bool)
    (l : list A) (p : A) :
  (forall a b, eqb a b = true <-> a = b) ->
  NoDup (map key l) -> In p l ->
  filter (fun r => eqb (key r) (key p)) l = [p].
Proof.
  intros Heqb. induction l as [|a l IH]; intros Hnd Hin; [destruct Hin|].
  cbn [map] in Hnd. inversion Hnd as [|k ks Hk Hnd']; subst.
  cbn [filter]. destruct Hin as [-> | Hin].
  - rewrite (proj2 (Heqb _ _) eq_refl). f_equal. apply filter_none.
    intros x Hx. destruct (eqb (key x) (key p)) eqn:E; [|reflexivity].
    apply Heqb in E. exfalso. apply Hk. rewrite <- E. now apply in_map.
  - destruct (eqb (key a) (key p)) eqn:E.
    + apply Heqb in E. exfalso. apply Hk. rewrite E. now apply in_map.
    + now apply IH.
Qed.

Lemma where_product_id z :
  - 2 ^ 31 <= z < 2 ^ 31 ->
  integer_parameter 32 (Num (of_Z z)) = Normal (Some z).
Proof.
  intros Hz. unfold integer_parameter, of_Z, is_integer.
  cbn [inject_Z Qnum Qden]. rewrite Z.mod_1_r, Z.div_1_r. cbn [Z.eqb andb].
  assert (H21 : 2 ^ 31 < 10 ^ 21) by reflexivity.
  change (2 ^ (32 - 1)) with (2 ^ 31).
  destruct (Z.ltb_spec (Z.abs z) (10 ^ 21)); [|lia].
  destruct (Z.leb_spec (- 2 ^ 31) z); [|lia].
  destruct (Z.ltb_spec z (2 ^ 31)); [|lia].
  reflexivity.
Qed.

(** The check query selects the named product alone. *)
Lemma named_product_selected st id p :
  NoDup (map Products.product_id (products st)) ->
  NoDup (map Products.stock_code (products st)) ->
  In p (products st) -> names id p ->
  exists sel,
    where_search_field (searchField id) (searchValue id) = Normal sel /\
    filter sel (products st) = [p].
Proof.
  intros Hid Hcode Hin Hname. unfold names, searchField, searchValue in *.
  destruct (isNumeric id).
  - unfold where_search_field. rewrite Hname. cbn [bindc].
    eexists. split; [reflexivity|].
    apply (filter_key Products.product_id Z.eqb _ _ Z.eqb_eq Hid Hin).
  - unfold where_search_field. cbn [text_parameter bindc].
    eexists. split; [reflexivity|]. subst id.
    apply (filter_key Products.stock_code str_eqb _ _ str_eqb_eq Hcode Hin).
Qed.

(** *** Counting the joined rows *)

Lemma count_some_nonneg {A : Type} (l : list (option A)) : 0 <= count_some l.
Proof. unfold count_some. lia. Qed.

Lemma count_some_head {A : Type} (a : A) (l : list (option A)) :
  0 < count_some (Some a :: l).
Proof. unfold count_some. cbn [filter List.length is_some]. lia. Qed.

Lemma related_counts_zero st p :
  no_dependent_rows st p ->
  order_items_count (related_counts_of st p) = 0 /\
  inventory_movements_count (related_counts_of st p) = 0.
Proof.
  intros [Hoi Him]. unfold related_counts_of, joined_rows.
  cbn [order_items_count inventory_movements_count].
  rewrite (filter_none _ (order_items st)),
    (filter_none _ (inventory_movements st)).
  - split; reflexivity.
  - intros im Hin. specialize (Him im Hin).
    destruct (InventoryMovements.product_id im) as [z|]; [|reflexivity].
    apply Z.eqb_neq. congruence.
  - intros oi Hin. specialize (Hoi oi Hin).
    destruct (OrderItems.product_id oi) as [z|]; [|reflexivity].
    apply Z.eqb_neq. congruence.
Qed.

Lemma related_counts_positive st p :
  some_dependent_row st p ->
  0 < order_items_count (related_counts_of st p)
      + inventory_movements_count (related_counts_of st p).
Proof.
  intros Hdep. unfold related_counts_of, joined_rows.
  cbn [order_items_count inventory_movements_count].
  set (ois := filter _ (order_items st)).
  set (ims := filter _ (inventory_movements st)).
  set (left := map snd (left_join ois [tt])).
  pose proof (count_some_nonneg (map fst (left_join ims left))) as H1.
  pose proof (count_some_nonneg (map snd (left_join ims left))) as H2.
  subst left.
  destruct Hdep as [(oi & Hin & Hoi) | (im & Hin & Him)].
  - assert (Hne : In oi ois).
    { apply filter_In. split; [exact Hin|]. rewrite Hoi. apply Z.eqb_refl. }
    destruct ois as [|o ois']; [destruct Hne|].
    enough (0 < count_some
                  (map fst (left_join ims
                              (map snd (left_join (o :: ois') [tt])))))
      by lia.
    destruct ims as [|i ims'];
      cbn [left_join flat_map map app snd fst]; apply count_some_head.
  - assert (Hne : In im ims).
    { apply filter_In. split; [exact Hin|]. rewrite Him. apply Z.eqb_refl. }
    destruct ims as [|i ims']; [destruct Hne|].
    enough (0 < count_some
                  (map snd (left_join (i :: ims')
                              (map snd (left_join ois [tt])))))
      by lia.
    destruct ois as [|o ois'];
      cbn [left_join flat_map map app snd fst]; apply count_some_head.
Qed.

Lemma gt_add_zero a b :
  gt (add (parseInt_count a) (parseInt_count b)) (Finite 0) = (0 <? a + b).
Proof.
  unfold gt, lt, add, parseInt_count, of_Z, JS.Qltb, Qle_bool, Qplus.
  cbn [inject_Z Qnum Qden]. rewrite !Z.mul_1_r.
  destruct (Z.leb_spec (a + b) 0), (Z.ltb_spec 0 (a + b));
    try reflexivity; lia.
Qed.

(** C7: deleting a product that no order item and no inventory movement
    refers to succeeds: the answer is a 200 that carries the deleted row,
    and the row is gone from the store.  Deleting a product that some order
    item or inventory movement refers to is answered with a 409, and the
    store is left as it was. *)
Theorem delete_product_checks_dependents :
  forall (env : environment) (st : store) (id : jsstring) (p : Products.row),
    (forall q params, fault env q params = None) ->
    NoDup (map Products.product_id (products st)) ->
    NoDup (map Products.stock_code (products st)) ->
    - 2 ^ 31 <= Products.product_id p < 2 ^ 31 ->
    In p (products st) ->
    names id p ->
    (no_dependent_rows st p ->
     serve (app_delete_api_products_id env id) st =
       (Normal {| status := 200;
                  json := SuccessDeleted "Product deleted successfully"
                            (Some p) |},
        {| db := without st p;
           log := [(SELECT_related_counts (searchField id), [searchValue id]);
                   (DELETE_FROM_products,
                    [Num (of_Z (Products.product_id p))])] |}) /\
     ~ In p (products (without st p))) /\
    (some_dependent_row st p ->
     exists order_items inventory_movements,
       serve (app_delete_api_products_id env id) st =
         (Normal {| status := 409;
                    json := FailureRelated
                      "Cannot delete product with existing related records"
                      order_items inventory_movements |},
          {| db := st;
             log := [(SELECT_related_counts (searchField id),
                      [searchValue id])] |})).
Proof.
  intros env st id p Hfault Hid Hcode Hrange Hin Hname.
  destruct (named_product_selected st id p Hid Hcode Hin Hname)
    as (sel & Hsel & Hfilter).
  assert (Hcheck :
    delete_product_try env id {| db := st; log := [] |} =
      (let product := related_counts_of st p in
       if 0 <? order_items_count product + inventory_movements_count product
       then ret {| status := 409;
                   json := FailureRelated
                     "Cannot delete product with existing related records"
                     (parseInt_count (order_items_count product))
                     (parseInt_count (inventory_movements_count product)) |}
       else
         (result <- client_query env DELETE_FROM_products
                      [Num (of_Z (related_product_id product))] ;;
          ret {| status := 200;
                 json := SuccessDeleted "Product deleted successfully"
                           (hd_error result) |}))
        {| db := st;
           log := [(SELECT_related_counts (searchField id),
                    [searchValue id])] |}).
  { unfold delete_product_try. first_query. rewrite Hfault.
    cbn [run parameter nth_error bindc]. rewrite Hsel. cbn [bindc].
    rewrite Hfilter. cbn [map]. rewrite gt_add_zero. reflexivity. }
  unfold serve, app_delete_api_products_id.
  rewrite try_catch_database_error, Hcheck. cbv zeta.
  split.
  - intros Hnone. destruct (related_counts_zero st p Hnone) as [-> ->].
    cbn [Z.add Z.ltb Z.compare]. split.
    + unfold bind, client_query, ret. cbv beta iota zeta. cbn [db log app].
      rewrite Hfault. cbn [run parameter nth_error bindc].
      cbn [related_counts_of related_product_id].
      unfold where_search_field. rewrite (where_product_id _ Hrange).
      cbn [bindc].
      rewrite (filter_key Products.product_id Z.eqb _ _ Z.eqb_eq Hid Hin).
      reflexivity.
    + unfold without. cbn [products]. rewrite filter_In.
      intros [_ H]. now rewrite Z.eqb_refl in H.
  - intros Hsome. pose proof (related_counts_positive st p Hsome) as Hpos.
    destruct (Z.ltb_spec 0 (order_items_count (related_counts_of st p)
                            + inventory_movements_count
                                (related_counts_of st p))); [|lia].
    eexists _, _. reflexivity.
Qed.

Lemma delete_product_checks_dependents_witness :
  serve (app_delete_api_products_id sample_env (lit "1")) sample_store =
    (Normal {| status := 200;
               json := SuccessDeleted "Product deleted successfully"
                         (Some product_10002) |},
     {| db := without sample_store product_10002;
        log := [(SELECT_related_counts product_id, [Num (of_Z 1)]);
                (DELETE_FROM_products, [Num (of_Z 1)])] |}) /\
  exists order_items inventory_movements,
    serve (app_delete_api_products_id sample_env (lit "85123A")) sample_store =
      (Normal {| status := 409;
                 json := FailureRelated
                   "Cannot delete product with existing related records"
                   order_items inventory_movements |},
       {| db := sample_store;
          log := [(SELECT_related_counts stock_code,
                   [Str (lit "85123A")])] |}).
Proof.
  assert (Hid : NoDup (map Products.product_id (products sample_store))).
  { repeat constructor; cbn; intuition discriminate. }
  assert (Hcode : NoDup (map Products.stock_code (products sample_store))).
  { repeat constructor; cbn; intuition discriminate. }
  split.
  - refine (proj1 (proj1 (delete_product_checks_dependents sample_env
              sample_store (lit "1") product_10002 (fun _ _ => eq_refl)
              Hid Hcode _ _ _) _)).
    + cbn. lia.
    + now left.
    + reflexivity.
    + split; intros x Hx;
        repeat (destruct Hx as [<- | Hx]; [discriminate|]); destruct Hx.
  - refine (proj2 (delete_product_checks_dependents sample_env
              sample_store (lit "85123A") product_85123A (fun _ _ => eq_refl)
              Hid Hcode _ _ _) _).
    + cbn. lia.
    + right. now left.
    + reflexivity.
    + left. exists (OrderItems.mk 1 (Some 2)). split; [now left | reflexivity].
Defined.

End Deletion.

(** ** The stock table under the two triggers *)

Section StockProperties.
Import Triggers Stock.

Lemma enforce_positive_values_Raised NEW e :
  enforce_positive_values NEW = Raised e ->
  (negative_int (Retail.quantity NEW) /\
   e = raise_exception "Quantity cannot be negative") \/
  (negative_numeric (Retail.unit_price NEW) /\
   e = raise_exception "Unit price cannot be negative").
Proof.
  unfold enforce_positive_values.
  destruct (is_true (sql_lt_int _ _)) eqn:Hq.
  - intros [= <-]. left. split; [now apply is_true_lt_int | reflexivity].
  - destruct (is_true (sql_lt_numeric _ _)) eqn:Hp; [|discriminate].
    intros [= <-]. right. split; [now apply is_true_lt_numeric | reflexivity].
Qed.

Lemma update_rows_Raised cond set rows e :
  update_rows cond set rows = Raised e ->
  exists r, In r rows /\ cond r = true /\
            enforce_positive_values (set r) = Raised e.
Proof.
  induction rows as [|r rest IH]; simpl; [discriminate|].
  destruct (cond r) eqn:Hc.
  - destruct (enforce_positive_values (set r)) as [r1|e1] eqn:He; simpl.
    + destruct (update_rows cond set rest) as [rest'|e2]; simpl;
        [discriminate|].
      intros [= <-]. destruct (IH eq_refl) as (r' & Hin & Hc' & He').
      exists r'; auto.
    + intros [= <-]. exists r; auto.
  - simpl. destruct (update_rows cond set rest) as [rest'|e2]; simpl;
      [discriminate|].
    intros [= <-]. destruct (IH eq_refl) as (r' & Hin & Hc' & He').
    exists r'; auto.
Qed.

Lemma update_rows_guarded cond set rows rows' :
  update_rows cond set rows = Ok rows' ->
  forall r, In r rows -> cond r = true ->
            enforce_positive_values (set r) = Ok (set r).
Proof.
  revert rows'; induction rows as [|r0 rest IH]; simpl; intros rows' H r;
    [intros []|].
  destruct (update_rows cond set rest) as [rest'|e] eqn:Hrest.
  - intros [<- | Hin] Hc.
    + rewrite Hc in H.
      destruct (enforce_positive_values (set r0)) as [r1|e] eqn:He;
        [|discriminate].
      now rewrite (enforce_positive_values_returns_NEW _ _ He).
    + exact (IH rest' eq_refl r Hin Hc).
  - destruct (if cond r0 then _ else _); discriminate.
Qed.

Lemma transaction_ROLLBACK ss db db' e :
  transaction ss db = (db', ROLLBACK e) <->
  db' = db /\ execute_all ss db = Raised e.
Proof.
  unfold transaction. destruct (execute_all ss db) as [db1|e1]; split.
  - discriminate.
  - intros [_ [=]].
  - intros [= <- <-]; auto.
  - intros [-> [= ->]]; reflexivity.
Qed.



(** X1: the insert of an order is refused exactly when it would leave a
    stock row of the product with a negative quantity, or when such a row
    holds a negative unit price.  The refusal is the guard's exception, and
    nothing is stored: neither the order row nor any decrement. *)
Theorem order_beyond_stock_is_refused :
  forall (db : database) (NEW : Orders.row),
    (exists r, In r (retail db) /\ stock_row_of NEW r = true /\
               (negative_int (Retail.quantity (decrement NEW r)) \/
                negative_numeric (Retail.unit_price r))) <->
    (transaction [INSERT_INTO_orders NEW] db =
       (db, ROLLBACK (raise_exception "Quantity cannot be negative")) \/
     transaction [INSERT_INTO_orders NEW] db =
       (db, ROLLBACK (raise_exception "Unit price cannot be negative"))).
Proof.
  intros db NEW.
  assert (Hrun : execute_all [INSERT_INTO_orders NEW] db =
                 (rows <- update_rows (stock_row_of NEW) (decrement NEW)
                            (retail db) ;;
                  Ok {| retail := rows; orders := orders db ++ [NEW] |})).
  { cbn [execute_all execute]. unfold insert_orders, update_stock,
      update_retail. cbn [retail orders].
    destruct (update_rows _ _ _); reflexivity. }
  split.
  - intros (r & Hin & Hm & Hneg).
    destruct (update_rows_rejected _ _ _ r Hin Hm Hneg) as [e He].
    destruct (update_rows_Raised _ _ _ _ He) as (r' & _ & _ & He').
    assert (Ht : transaction [INSERT_INTO_orders NEW] db = (db, ROLLBACK e)).
    { apply transaction_ROLLBACK. split; [reflexivity|].
      rewrite Hrun, He. reflexivity. }
    rewrite Ht.
    destruct (enforce_positive_values_Raised _ _ He') as [[_ ->] | [_ ->]];
      auto.
  - assert (H : forall e,
               transaction [INSERT_INTO_orders NEW] db = (db, ROLLBACK e) ->
               exists r, In r (retail db) /\ stock_row_of NEW r = true /\
                 (negative_int (Retail.quantity (decrement NEW r)) \/
                  negative_numeric (Retail.unit_price r))).
    { intros e Ht. apply transaction_ROLLBACK in Ht. destruct Ht as [_ Ht].
      rewrite Hrun in Ht.
      destruct (update_rows _ _ _) as [rows|e'] eqn:Hu; [discriminate|].
      destruct (update_rows_Raised _ _ _ _ Hu) as (r & Hin & Hm & He).
      exists r. split; [exact Hin|]. split; [exact Hm|].
      destruct (enforce_positive_values_Raised _ _ He) as [[Hq _] | [Hp _]];
        [left; exact Hq | right; exact Hp]. }
    intros [Ht | Ht]; exact (H _ Ht).
Qed.

Lemma order_beyond_stock_is_refused_witness :
  transaction [INSERT_INTO_orders order_25] stock_20 =
    (stock_20, ROLLBACK (raise_exception "Quantity cannot be negative")) \/
  transaction [INSERT_INTO_orders order_25] stock_20 =
    (stock_20, ROLLBACK (raise_exception "Unit price cannot be negative")).
Proof.
  apply (proj1 (order_beyond_stock_is_refused stock_20 order_25)).
  exists (Retail.mk 1 (Some "85123A") (Some 20) (Some (5 # 2)%Q)).
  split; [left; reflexivity|]. split; [reflexivity|].
  left. exists (-5). split; [reflexivity | lia].
Defined.

(** X2: an order whose quantity is NULL is stored, and sets the quantity
    of every stock row of the product to NULL ([quantity - NULL]); the guard
    finds no fault with a NULL quantity. *)
Theorem order_with_NULL_quantity_erases_stock :
  forall (db : database) (NEW : Orders.row),
    Orders.quantity NEW = None ->
    (forall r, In r (retail db) -> stock_row_of NEW r = true ->
               ~ negative_numeric (Retail.unit_price r)) ->
    transaction [INSERT_INTO_orders NEW] db =
      ({| retail :=
            map (fun r => if stock_row_of NEW r
                          then Retail.set_quantity r None else r)
                (retail db);
          orders := orders db ++ [NEW] |}, COMMIT).
Proof.
  intros db NEW Hq Hp.
  rewrite insert_orders_commits.
  - f_equal. f_equal. apply map_ext. intros r.
    destruct (stock_row_of NEW r); [|reflexivity].
    unfold decrement. rewrite Hq. now destruct (Retail.quantity r).
  - intros r Hin Hm. split; [|exact (Hp r Hin Hm)].
    unfold decrement. rewrite Hq. cbn.
    destruct (Retail.quantity r) as [s|]; intros (z & Hz & _);
      discriminate Hz.
Qed.

Lemma order_with_NULL_quantity_erases_stock_witness :
  transaction [INSERT_INTO_orders order_NULL] stock_20 =
    ({| retail := [ Retail.mk 1 (Some "85123A") None (Some (5 # 2)%Q);
                    Retail.mk 2 (Some "71053") (Some 7) (Some (3 # 1)%Q) ];
        orders := [order_NULL] |}, COMMIT).
Proof.
  apply (order_with_NULL_quantity_erases_stock stock_20 order_NULL eq_refl).
  intros r [<- | [<- | []]] _ (q & [= <-] & Hlt); discriminate Hlt.
Defined.




Lemma execute_keeps_non_negative s db db' :
  Forall non_negative (retail db) -> execute s db = Ok db' ->
  Forall non_negative (retail db').
Proof.
  assert (Hupd : forall cond set db0 db1,
             Forall non_negative (retail db0) ->
             update_retail cond set db0 = Ok db1 ->
             Forall non_negative (retail db1)).
  { intros cond set db0 db1 Hall. unfold update_retail.
    destruct (update_rows _ _ _) as [rows|e] eqn:Hu; cbn [bind];
      [|discriminate].
    intros [= <-]. cbn [retail].
    rewrite (update_rows_Ok _ _ _ _ Hu). apply Forall_forall.
    intros r' Hin'. apply in_map_iff in Hin'.
    destruct Hin' as (r & <- & Hin).
    destruct (cond r) eqn:Hc.
    - apply enforce_positive_values_accepts.
      exact (update_rows_guarded _ _ _ _ Hu r Hin Hc).
    - exact (proj1 (Forall_forall _ _) Hall r Hin). }
  intros Hall. destruct s as [NEW | cond set | NEW]; cbn [execute].
  - unfold insert_retail.
    destruct (enforce_positive_values NEW) as [r|e] eqn:He; cbn [bind];
      [|discriminate].
    intros [= <-]. cbn [retail]. apply Forall_app. split; [exact Hall|].
    constructor; [|constructor].
    pose proof (enforce_positive_values_returns_NEW _ _ He); subst r.
    now apply enforce_positive_values_accepts.
  - apply Hupd; exact Hall.
  - unfold insert_orders, update_stock. apply Hupd. exact Hall.
Qed.

(** X4: once no row of the stock table holds a negative quantity or a
    negative unit price, none does after any transaction, whatever its
    statements and whether it commits or not. *)
Theorem retail_stays_non_negative :
  forall (ss : list statement) (db db' : database) (o : outcome),
    Forall non_negative (retail db) ->
    transaction ss db = (db', o) ->
    Forall non_negative (retail db').
Proof.
  intros ss db db' o Hall. unfold transaction.
  destruct (execute_all ss db) as [db1|e] eqn:Hrun; intros [= <- <-];
    [|exact Hall].
  revert db db1 Hall Hrun. induction ss as [|s ss IH]; intros db db1 Hall;
    cbn [execute_all].
  - now intros [= <-].
  - destruct (execute s db) as [db2|e] eqn:Hs; cbn [bind]; [|discriminate].
    apply IH. exact (execute_keeps_non_negative _ _ _ Hall Hs).
Qed.

Lemma retail_stays_non_negative_witness :
  Forall non_negative
    [ Retail.mk 1 (Some "85123A") (Some 15) (Some (5 # 2)%Q);
      Retail.mk 2 (Some "71053") (Some 7) (Some (3 # 1)%Q) ].
Proof.
  refine (retail_stays_non_negative [INSERT_INTO_orders order_5] stock_20
            {| retail := _; orders := [order_5] |} COMMIT _ eq_refl).
  repeat constructor; cbn; intros (z & [= <-] & H); discriminate H.
Defined.

End StockProperties.

(** ** Monthly sales *)

Section MonthlySales.
Import Monthly.

Lemma non_null_app {A : Type} (xs ys : list (option A)) :
  non_null (xs ++ ys) = non_null xs ++ non_null ys.
Proof.
  induction xs as [|[x|] xs IH]; simpl; [reflexivity | now rewrite IH | exact IH].
Qed.

Lemma total_app xs ys : (total (xs ++ ys) == total xs + total ys)%Q.
Proof.
  induction xs as [|x xs IH]; simpl; [ring | rewrite IH; ring].
Qed.

(** The sum of the sales of the rows a condition selects, 0 when there is
    none: what [COALESCE(SUM(...), 0)] computes. *)
Lemma COALESCE_SUM xs : (COALESCE (SUM xs) 0 == total (non_null xs))%Q.
Proof.
  unfold SUM. destruct (non_null xs); simpl; reflexivity.
Qed.

Lemma selected_app (f : Retail.row -> bool) a b :
  (COALESCE (SUM (map sales (filter f (a ++ b)))) 0 ==
   COALESCE (SUM (map sales (filter f a))) 0 +
   COALESCE (SUM (map sales (filter f b))) 0)%Q.
Proof.
  rewrite !COALESCE_SUM, filter_app, map_app, non_null_app.
  apply total_app.
Qed.

Lemma selected_one (f : Retail.row -> bool) r :
  (COALESCE (SUM (map sales (filter f [r]))) 0 ==
   if f r then COALESCE (sales r) 0 else 0)%Q.
Proof.
  simpl. destruct (f r); simpl; [|reflexivity].
  unfold SUM; simpl. destruct (sales r); simpl; [ring | reflexivity].
Qed.

(** X5: the sales of a month are additive in the table: those of two
    tables put together are the sum of those of each, so a line added to
    the table raises the month's sales by its quantity times its unit
    price when it is dated in the month and neither is NULL, and leaves
    them as they are otherwise. *)
Theorem get_monthly_sales_is_additive :
  forall (year_input month_input : option Z) (a b : list Retail.row)
         (r : Retail.row),
    (get_monthly_sales year_input month_input (a ++ b) ==
     get_monthly_sales year_input month_input a +
     get_monthly_sales year_input month_input b)%Q /\
    (get_monthly_sales year_input month_input (a ++ [r]) ==
     get_monthly_sales year_input month_input a +
     (if in_month year_input month_input r
      then COALESCE (sales r) 0 else 0))%Q.
Proof.
  intros y m a b r. unfold get_monthly_sales. split.
  - apply selected_app.
  - rewrite selected_app, selected_one. reflexivity.
Qed.

Lemma in_month_NULL_year m r : in_month None m r = false.
Proof.
  unfold in_month.
  destruct (EXTRACT_YEAR _), (sql_eq_int (EXTRACT_MONTH _) m) as [[|]|];
    reflexivity.
Qed.

Lemma in_month_NULL_month y r : in_month y None r = false.
Proof.
  unfold in_month.
  destruct (sql_eq_int (EXTRACT_YEAR _) y) as [[|]|], (EXTRACT_MONTH _);
    reflexivity.
Qed.

Lemma no_sale (f : Retail.row -> bool) retail :
  (forall r, In r retail -> f r = true -> sales r = None) ->
  SUM (map sales (filter f retail)) = None.
Proof.
  intros H. unfold SUM.
  replace (non_null (map sales (filter f retail))) with (@nil Q);
    [reflexivity|].
  induction retail as [|r rest IH]; simpl; [reflexivity|].
  destruct (f r) eqn:E; simpl.
  - rewrite (H r (or_introl eq_refl) E). apply IH.
    intros r' Hin. apply H. now right.
  - apply IH. intros r' Hin. apply H. now right.
Qed.

(** X6: [get_monthly_sales] is never NULL.  It is 0 when the year or the
    month given is NULL, and when no line of the table is dated in the
    month with both a quantity and a unit price: for a month with no line
    at all, and for an empty table. *)
Theorem get_monthly_sales_without_sales :
  (forall month_input retail, get_monthly_sales None month_input retail = 0%Q)
  /\
  (forall year_input retail, get_monthly_sales year_input None retail = 0%Q)
  /\
  (forall year_input month_input retail,
      (forall r, In r retail -> in_month year_input month_input r = true ->
                 Retail.quantity r = None \/ Retail.unit_price r = None) ->
      get_monthly_sales year_input month_input retail = 0%Q).
Proof.
  unfold get_monthly_sales. repeat split.
  - intros m retail. rewrite no_sale; [reflexivity|].
    intros r _ H. now rewrite in_month_NULL_year in H.
  - intros y retail. rewrite no_sale; [reflexivity|].
    intros r _ H. now rewrite in_month_NULL_month in H.
  - intros y m retail H. rewrite no_sale; [reflexivity|].
    intros r Hin Hm. unfold sales.
    destruct (H r Hin Hm) as [-> | ->]; [reflexivity|].
    now destruct (Retail.quantity r).
Qed.

Lemma get_monthly_sales_without_sales_witness :
  get_monthly_sales (Some 2011) (Some 1) sample_retail = 0%Q.
Proof.
  apply (proj2 (proj2 get_monthly_sales_without_sales)).
  intros r [<- | [<- | [<- | [<- | [<- | []]]]]]; discriminate.
Defined.

Lemma total_map_plus {A : Type} (f g : A -> Q) l :
  (total (map (fun x => f x + g x) l) == total (map f l) + total (map g l))%Q.
Proof.
  induction l as [|x l IH]; simpl; [ring | rewrite IH; ring].
Qed.

Lemma total_map_ext {A : Type} (f g : A -> Q) l :
  (forall x, f x == g x)%Q -> (total (map f l) == total (map g l))%Q.
Proof.
  intros H. induction l as [|x l IH]; simpl; [reflexivity|].
  now rewrite IH, H.
Qed.

Lemma one_month_of_twelve (k : Z) (c : Q) :
  1 <= k <= 12 ->
  (total (map (fun m => if k =? m then c else 0) (generate_series 1 12))
   == c)%Q.
Proof.
  intros Hk.
  assert (Hcases : k = 1 \/ k = 2 \/ k = 3 \/ k = 4 \/ k = 5 \/ k = 6 \/
                   k = 7 \/ k = 8 \/ k = 9 \/ k = 10 \/ k = 11 \/ k = 12)
    by lia.
  change (generate_series 1 12) with [1; 2; 3; 4; 5; 6; 7; 8; 9; 10; 11; 12].
  repeat (destruct Hcases as [-> | Hcases]); try subst k;
    cbn [map total fold_right Z.eqb Pos.eqb]; ring.
Qed.

Lemma no_month_of_twelve :
  (total (map (fun _ : Z => 0%Q) (generate_series 1 12)) == 0)%Q.
Proof. vm_compute. reflexivity. Qed.

Lemma in_month_of r y m :
  in_month (Some y) (Some m) r =
  match Retail.invoice_date r with
  | Some t => (year t =? y) && (month t =? m)
  | None => false
  end.
Proof.
  unfold in_month. destruct (Retail.invoice_date r) as [t|]; simpl;
    [|reflexivity].
  destruct (year t =? y), (month t =? m); reflexivity.
Qed.

(** X7: the twelve monthly totals of the report of a year add up to the
    sales of all the lines dated in that year. *)
Theorem report_adds_up_to_the_year :
  forall (y : Z) (retail : list Retail.row),
    valid_dates retail ->
    (total (map snd (report y retail)) ==
     COALESCE (SUM (map sales (filter (in_year y) retail))) 0)%Q.
Proof.
  intros y retail. unfold report. rewrite map_map. cbn [snd].
  induction retail as [|r rest IH]; intros Hvalid.
  - transitivity (total (map (fun _ : Z => 0%Q) (generate_series 1 12)));
      [|apply no_month_of_twelve].
    apply total_map_ext. intros m. reflexivity.
  - assert (Hrest : valid_dates rest)
      by (intros r' t Hin; apply (Hvalid r' t); now right).
    change (r :: rest) with ([r] ++ rest).
    rewrite selected_app, selected_one, <- (IH Hrest).
    transitivity
      (total (map (fun m =>
                     ((if in_month (Some y) (Some m) r
                       then COALESCE (sales r) 0 else 0) +
                      get_monthly_sales (Some y) (Some m) rest)%Q)
                  (generate_series 1 12))).
    { apply total_map_ext. intros m. unfold get_monthly_sales.
      rewrite selected_app, selected_one. reflexivity. }
    rewrite total_map_plus. apply Qplus_comp; [|reflexivity].
    unfold in_year.
    destruct (Retail.invoice_date r) as [t|] eqn:Ht.
    + transitivity
        (total (map (fun m => if month t =? m
                              then (if year t =? y
                                    then COALESCE (sales r) 0 else 0%Q)
                              else 0%Q)
                    (generate_series 1 12))).
      { apply total_map_ext. intros m. rewrite in_month_of, Ht.
        destruct (year t =? y), (month t =? m); reflexivity. }
      rewrite one_month_of_twelve
        by exact (proj1 (Hvalid r t (or_introl eq_refl) Ht)).
      cbn. destruct (year t =? y); reflexivity.
    + transitivity (total (map (fun _ : Z => 0%Q) (generate_series 1 12)));
        [|apply no_month_of_twelve].
      apply total_map_ext. intros m. rewrite in_month_of, Ht. reflexivity.
Qed.

Lemma sample_retail_valid : valid_dates sample_retail.
Proof.
  intros r t [<- | [<- | [<- | [<- | [<- | []]]]]] [= <-];
    unfold valid; cbn; lia.
Qed.

Lemma report_adds_up_to_the_year_witness :
  (total (map snd (report 2010 sample_retail)) == 423 # 10)%Q.
Proof.
  rewrite (report_adds_up_to_the_year 2010 sample_retail sample_retail_valid).
  vm_compute. reflexivity.
Defined.

Lemma selected_split (f g h : Retail.row -> bool) retail :
  (forall r, In r retail -> f r = g r || h r) ->
  (forall r, In r retail -> g r && h r = false) ->
  (COALESCE (SUM (map sales (filter f retail))) 0 ==
   COALESCE (SUM (map sales (filter g retail))) 0 +
   COALESCE (SUM (map sales (filter h retail))) 0)%Q.
Proof.
  induction retail as [|r rest IH]; intros Hor Hand.
  - vm_compute. reflexivity.
  - change (r :: rest) with ([r] ++ rest).
    rewrite !selected_app, !selected_one.
    rewrite IH by (intros; (apply Hor || apply Hand); now right).
    pose proof (Hor r (or_introl eq_refl)) as H1.
    pose proof (Hand r (or_introl eq_refl)) as H2.
    destruct (f r), (g r), (h r); try discriminate; ring.
Qed.

Lemma is_true_sql_and a b :
  Triggers.is_true (sql_and (Some a) (Some b)) = a && b.
Proof. now destruct a, b. Qed.

(** X8: the sales of December 2010 that [get_monthly_sales] gives are
    those of the December query together with those of the lines of the
    31st after midnight: [BETWEEN '2010-12-01' AND '2010-12-31'] ends at
    the first instant of the last day. *)
Theorem december_query_stops_at_midnight :
  forall retail : list Retail.row,
    valid_dates retail ->
    (get_monthly_sales (Some 2010%Z) (Some 12%Z) retail ==
     COALESCE (total_sales_december_2010 retail) 0 +
     COALESCE (SUM (map sales (filter late_on_the_31st retail))) 0)%Q.
Proof.
  intros retail Hvalid. unfold get_monthly_sales, total_sales_december_2010.
  assert (Hcase : forall r, In r retail ->
            in_month (Some 2010) (Some 12) r =
              december_2010 r || late_on_the_31st r /\
            december_2010 r && late_on_the_31st r = false).
  { intros r Hin. rewrite in_month_of.
    unfold december_2010, late_on_the_31st, BETWEEN.
    destruct (Retail.invoice_date r) as [t|] eqn:Ht; [|split; reflexivity].
    destruct (Hvalid r t Hin Ht) as (Hm & Hd & Hu).
    unfold sql_le_timestamp. rewrite is_true_sql_and.
    unfold timestamp_leb, date. cbn [year month day microseconds].
    split.
    - apply eq_true_iff_eq.
      repeat (rewrite orb_true_iff || rewrite andb_true_iff
              || rewrite Z.ltb_lt || rewrite Z.eqb_eq || rewrite Z.leb_le).
      lia.
    - apply not_true_iff_false.
      repeat (rewrite orb_true_iff || rewrite andb_true_iff
              || rewrite Z.ltb_lt || rewrite Z.eqb_eq || rewrite Z.leb_le).
      lia. }
  apply selected_split; intros r Hin; apply (Hcase r Hin).
Qed.

Lemma december_query_stops_at_midnight_witness :
  (get_monthly_sales (Some 2010%Z) (Some 12%Z) sample_retail ==
   (153 # 10) + 7)%Q /\
  total_sales_december_2010 sample_retail = Some ((6 # 1) * (51 # 20) + 0)%Q.
Proof.
  split; [|reflexivity].
  rewrite (december_query_stops_at_midnight sample_retail sample_retail_valid).
  vm_compute. reflexivity.
Defined.

End MonthlySales.

(** ** routes/retail.js *)

Ltac retail_query :=
  unfold Async.bind at 1; unfold RetailRoutes.db_query at 1;
  cbv beta iota zeta; cbn [RetailRoutes.db RetailRoutes.log app].

Section RetailRoutesProperties.
Import JS Async RetailRoutes.

(** *** Numerals as bound values *)

Lemma digits_value_nonneg radix ds : 0 <= digits_value radix ds.
Proof.
  unfold digits_value.
  assert (H : forall acc, 0 <= acc ->
            0 <= fold_left (fun acc d => Z.of_N radix * acc + Z.of_N d) ds acc).
  { induction ds as [|d ds IH]; intros acc Hacc; cbn [fold_left];
      [exact Hacc|].
    apply IH. nia. }
  apply H. lia.
Qed.

Lemma numeral_value_nonneg s : 0 <= numeral_value s.
Proof. apply digits_value_nonneg. Qed.

Lemma int4_is_safe z : 0 <= z < 2 ^ 31 -> safe_integer z.
Proof.
  unfold safe_integer. intros H.
  assert (2 ^ 31 < 2 ^ 53) by reflexivity. lia.
Qed.

Lemma integer_parameter_32_integer z :
  0 <= z < 2 ^ 31 ->
  Api.integer_parameter 32 (Num (of_Z z)) = Normal (Some z).
Proof.
  intros H.
  destruct (safe_integer_bounds z (int4_is_safe z H)) as [H21 _].
  unfold Api.integer_parameter, of_Z, Api.is_integer.
  cbn [inject_Z Qnum Qden].
  rewrite Z.mod_1_r, Z.div_1_r. cbn [Z.eqb andb].
  change (2 ^ (32 - 1)) with (2 ^ 31).
  destruct (Z.ltb_spec (Z.abs z) (10 ^ 21)); [|lia].
  destruct (Z.leb_spec (- 2 ^ 31) z); [|lia].
  destruct (Z.ltb_spec z (2 ^ 31)); [|lia].
  reflexivity.
Qed.

Lemma integer_parameter_32_numeral s :
  is_numeral s = true -> numeral_value s < 2 ^ 31 ->
  Api.integer_parameter 32 (Str s) = Normal (Some (numeral_value s)).
Proof.
  intros Hs Hlt. pose proof (numeral_value_nonneg s) as H0.
  unfold Api.integer_parameter. rewrite (integer_of_text_numeral _ Hs).
  change (2 ^ (32 - 1)) with (2 ^ 31).
  destruct (Z.leb_spec (- 2 ^ 31) (numeral_value s)); [|lia].
  destruct (Z.ltb_spec (numeral_value s) (2 ^ 31)); [|lia].
  reflexivity.
Qed.

Lemma numeral_is_a_number s :
  is_numeral s = true -> isNaN_number (StringToNumber s) = false.
Proof.
  intros H. rewrite (StringToNumber_numeral _ H).
  apply to_double_is_a_number.
Qed.

Lemma numeral_truthy s : is_numeral s = true -> truthy (Str s) = true.
Proof. now destruct s. Qed.

Lemma parseInt_int4 s :
  is_numeral s = true -> numeral_value s < 2 ^ 31 ->
  parseInt s = of_Z (numeral_value s).
Proof.
  intros H Hlt. rewrite (parseInt_numeral _ H).
  apply to_double_safe_integer, int4_is_safe.
  split; [apply numeral_value_nonneg | exact Hlt].
Qed.

(** *** GET /monthly-sales *)

Lemma monthly_sales_of_a_month_run :
  forall (env : environment) (st : store) (year month : jsstring),
    no_fault env ->
    is_numeral year = true -> numeral_value year < 2 ^ 31 ->
    is_numeral month = true -> numeral_value month < 2 ^ 31 ->
    serve (router_get_monthly_sales env (Some (Api.QStr year))
             (Some (Api.QStr month))) st =
      (Normal {| status := 200;
                 json := TotalSales
                   (Monthly.get_monthly_sales (Some (numeral_value year))
                      (Some (numeral_value month)) (retail st)) |},
       {| db := st;
          log := [(SELECT_get_monthly_sales,
                   [Num (of_Z (numeral_value year));
                    Num (of_Z (numeral_value month))])] |}).
Proof.
  intros env st year month Hf Hy Hy31 Hm Hm31.
  unfold serve, router_get_monthly_sales.
  unfold Async.bind at 1. unfold lift at 1.
  cbn [value_of_query Api.value_of].
  rewrite (numeral_truthy _ Hy), (numeral_truthy _ Hm). cbn [negb orb].
  unfold isNaN. cbn [ToNumber Api.bindc].
  rewrite (numeral_is_a_number _ Hy), (numeral_is_a_number _ Hm).
  cbv beta iota. unfold try_catch.
  unfold Async.bind at 1. unfold lift at 1.
  cbn [parseInt_query Api.ToString Api.bindc].
  unfold Async.bind at 1. unfold lift at 1.
  rewrite (parseInt_int4 _ Hy Hy31), (parseInt_int4 _ Hm Hm31).
  retail_query. rewrite Hf. cbn [run Api.parameter nth_error Api.bindc].
  rewrite !integer_parameter_32_integer
    by (split; [apply numeral_value_nonneg | assumption]).
  reflexivity.
Qed.

(** X9: for a year and a month written as decimal numerals below 2^31,
    GET /monthly-sales answers 200 with [get_monthly_sales] of these two
    integers over the table, which it sends one statement for and leaves
    as it is. *)
Theorem monthly_sales_of_a_month :
  forall (env : environment) (st : store) (year month : jsstring),
    no_fault env ->
    is_numeral year = true -> numeral_value year < 2 ^ 31 ->
    is_numeral month = true -> numeral_value month < 2 ^ 31 ->
    serve (router_get_monthly_sales env (Some (Api.QStr year))
             (Some (Api.QStr month))) st =
      (Normal {| status := 200;
                 json := TotalSales
                   (Monthly.get_monthly_sales (Some (numeral_value year))
                      (Some (numeral_value month)) (retail st)) |},
       {| db := st;
          log := [(SELECT_get_monthly_sales,
                   [Num (of_Z (numeral_value year));
                    Num (of_Z (numeral_value month))])] |}).
Proof. exact monthly_sales_of_a_month_run. Qed.

Lemma monthly_sales_of_a_month_witness :
  exists total s,
    serve (router_get_monthly_sales sample_env (Some (Api.QStr (lit "2010")))
             (Some (Api.QStr (lit "12")))) sample_store =
      (Normal {| status := 200; json := TotalSales total |}, s) /\
    (total == 223 # 10)%Q.
Proof.
  eexists. eexists. split.
  - apply (monthly_sales_of_a_month sample_env sample_store (lit "2010")
             (lit "12")); try reflexivity. intros q params. reflexivity.
  - vm_compute. reflexivity.
Defined.

(** *** A numeral followed by something else *)

Lemma span_digits_app y c rest :
  forallb is_digit y = true -> is_digit c = false ->
  span_digits 10 (y ++ c :: rest) = (map (fun d => (d - 48)%N) y, c :: rest).
Proof.
  intros Hy Hc. induction y as [|d y IH]; cbn [app map].
  - now rewrite span_digits_cons, Hc.
  - cbn [forallb] in Hy. apply andb_true_iff in Hy. destruct Hy as [Hd Hy].
    now rewrite span_digits_cons, Hd, (IH Hy).
Qed.

Lemma trim_between s c r r' d :
  s = c :: r -> s = r' ++ [d] ->
  is_white_space c = false -> is_white_space d = false ->
  trim s = s /\ trim_start s = s.
Proof.
  intros Hc Hd Wc Wd.
  assert (Hs : trim_start s = s)
    by (rewrite Hc; now apply trim_start_not_white_space).
  split; [|exact Hs]. unfold trim, trim_end. rewrite Hs, Hd, rev_app_distr.
  cbn [rev app]. rewrite trim_start_not_white_space by exact Wd.
  change (d :: rev r') with (rev [d] ++ rev r').
  now rewrite <- rev_app_distr, rev_involutive.
Qed.

Lemma numeral_last s :
  is_numeral s = true -> exists r d, s = r ++ [d] /\ is_digit d = true.
Proof.
  unfold is_numeral. destruct s as [|c s]; [discriminate|]. intros H.
  destruct (exists_last (l := c :: s)) as (r & d & E); [discriminate|].
  exists r, d. split; [exact E|]. rewrite forallb_forall in H. apply H.
  rewrite E. apply in_or_app. right. now left.
Qed.

Lemma numeral_all_digits s : is_numeral s = true -> forallb is_digit s = true.
Proof. unfold is_numeral. now destruct s. Qed.

Lemma parseInt_prefix y c rest :
  is_numeral y = true -> is_digit c = false ->
  c <> 120%N -> c <> 88%N ->
  parseInt (y ++ c :: rest) = to_double (inject_Z (numeral_value y)).
Proof.
  intros Hy Hc Hx HX.
  destruct (numeral_head y Hy) as (d & r & -> & Hd).
  unfold parseInt. cbn [app].
  rewrite (trim_start_not_white_space _ _ (digit_not_white_space _ Hd)).
  rewrite (parse_sign_digit _ _ Hd). cbv beta iota zeta.
  assert (Hspan : span_digits 10 (d :: r ++ c :: rest) =
                  (map (fun x => (x - 48)%N) (d :: r), c :: rest))
    by exact (span_digits_app (d :: r) c rest (numeral_all_digits _ Hy) Hc).
  destruct r as [|d' r']; cbn [app] in *.
  - destruct (N.eqb_spec c 120); [contradiction|].
    destruct (N.eqb_spec c 88); [contradiction|].
    rewrite andb_false_r, Hspan. reflexivity.
  - assert (Hd' : is_digit d' = true).
    { apply numeral_all_digits in Hy. cbn [forallb] in Hy.
      rewrite !andb_true_iff in Hy. tauto. }
    apply is_digit_range in Hd'.
    destruct (N.eqb_spec d' 120); [lia|].
    destruct (N.eqb_spec d' 88); [lia|].
    rewrite andb_false_r, Hspan. reflexivity.
Qed.

Lemma with_fraction_is_a_number int frac :
  is_numeral int = true -> is_numeral frac = true ->
  isNaN_number (StringToNumber (with_fraction int frac)) = false.
Proof.
  intros Hi Hf. unfold with_fraction. change (lit ".") with [46%N].
  cbn [app].
  destruct (numeral_head int Hi) as (c & r & -> & Hc).
  destruct (numeral_last frac Hf) as (r' & d & Ef & Hd).
  assert (Htrim : trim ((c :: r) ++ 46%N :: frac) = (c :: r) ++ 46%N :: frac).
  { refine (proj1 (trim_between _ c (r ++ 46%N :: frac)
                     ((c :: r) ++ 46%N :: r') d eq_refl _ _ _)).
    - rewrite Ef, <- app_assoc. reflexivity.
    - now apply digit_not_white_space.
    - now apply digit_not_white_space. }
  assert (Hspan : span_digits 10 ((c :: r) ++ 46%N :: frac) =
                  (map (fun x => (x - 48)%N) (c :: r), 46%N :: frac))
    by exact (span_digits_app (c :: r) 46 frac (numeral_all_digits _ Hi)
                eq_refl).
  assert (Hnd : parse_non_decimal ((c :: r) ++ 46%N :: frac) = None).
  { unfold parse_non_decimal. cbn [app].
    destruct r as [|c' r0]; cbn [app].
    - cbn. now destruct (negb (c =? 48)%N).
    - assert (Hc' : is_digit c' = true).
      { apply numeral_all_digits in Hi. cbn [forallb] in Hi.
        rewrite !andb_true_iff in Hi. tauto. }
      apply is_digit_range in Hc'.
      destruct (N.eqb_spec c' 120); [lia|].
      destruct (N.eqb_spec c' 88); [lia|].
      destruct (N.eqb_spec c' 111); [lia|].
      destruct (N.eqb_spec c' 79); [lia|].
      destruct (N.eqb_spec c' 98); [lia|].
      destruct (N.eqb_spec c' 66); [lia|].
      cbn [orb]. now destruct (negb (c =? 48)%N). }
  assert (Hpd : exists n,
             parse_decimal ((c :: r) ++ 46%N :: frac) = Some (n, [])).
  { unfold parse_decimal. cbn [app].
    rewrite (parse_sign_digit _ _ Hc). unfold parse_unsigned_decimal.
    rewrite (starts_with_Infinity_digit _ _ Hc).
    cbn [app] in Hspan. rewrite Hspan.
    cbn [map after_point N.eqb Pos.eqb].
    rewrite (span_digits_all _ (numeral_all_digits _ Hf)).
    cbn [parse_exponent]. eauto. }
  destruct Hpd as [n Hpd].
  unfold StringToNumber. rewrite Htrim. cbn [app] in *.
  rewrite Hnd, Hpd. exact (parse_decimal_is_a_number _ _ _ Hpd).
Qed.

Lemma with_fraction_truthy int frac :
  truthy (Str (with_fraction int frac)) = true.
Proof. unfold with_fraction. now destruct int. Qed.

Lemma parseInt_with_fraction int frac :
  is_numeral int = true -> numeral_value int < 2 ^ 31 ->
  parseInt (with_fraction int frac) = of_Z (numeral_value int).
Proof.
  intros Hi Hlt. unfold with_fraction. change (lit ".") with [46%N].
  cbn [app]. rewrite parseInt_prefix; try (exact Hi || reflexivity || discriminate).
  apply to_double_safe_integer, int4_is_safe.
  split; [apply numeral_value_nonneg | exact Hlt].
Qed.

(** X10: the check of GET /monthly-sales lets a year with a fraction
    through, and the statement is bound to the integer before the point:
    the answer is that of the year without its fraction. *)
Theorem monthly_sales_drops_the_fraction :
  forall (env : environment) (st : store) (year frac month : jsstring),
    no_fault env ->
    is_numeral year = true -> numeral_value year < 2 ^ 31 ->
    is_numeral frac = true ->
    is_numeral month = true -> numeral_value month < 2 ^ 31 ->
    serve (router_get_monthly_sales env
             (Some (Api.QStr (with_fraction year frac)))
             (Some (Api.QStr month))) st =
    serve (router_get_monthly_sales env (Some (Api.QStr year))
             (Some (Api.QStr month))) st.
Proof.
  intros env st year frac month Hf Hy Hy31 Hfr Hm Hm31.
  rewrite (monthly_sales_of_a_month_run env st year month Hf Hy Hy31 Hm Hm31).
  unfold serve, router_get_monthly_sales.
  unfold Async.bind at 1. unfold lift at 1.
  cbn [value_of_query Api.value_of].
  rewrite with_fraction_truthy, (numeral_truthy _ Hm). cbn [negb orb].
  unfold isNaN. cbn [ToNumber Api.bindc].
  rewrite (with_fraction_is_a_number _ _ Hy Hfr), (numeral_is_a_number _ Hm).
  cbv beta iota. unfold try_catch.
  unfold Async.bind at 1. unfold lift at 1.
  cbn [parseInt_query Api.ToString Api.bindc].
  unfold Async.bind at 1. unfold lift at 1.
  rewrite (parseInt_with_fraction _ _ Hy Hy31), (parseInt_int4 _ Hm Hm31).
  retail_query. rewrite Hf. cbn [run Api.parameter nth_error Api.bindc].
  rewrite !integer_parameter_32_integer
    by (split; [apply numeral_value_nonneg | assumption]).
  reflexivity.
Qed.

Lemma monthly_sales_drops_the_fraction_witness :
  serve (router_get_monthly_sales sample_env
           (Some (Api.QStr (lit "2010.75"))) (Some (Api.QStr (lit "12"))))
    sample_store =
  serve (router_get_monthly_sales sample_env (Some (Api.QStr (lit "2010")))
           (Some (Api.QStr (lit "12")))) sample_store.
Proof.
  apply (monthly_sales_drops_the_fraction sample_env sample_store
           (lit "2010") (lit "75") (lit "12")); try reflexivity.
  intros q params. reflexivity.
Defined.

(** X11: for string parameters, GET /monthly-sales answers 400 exactly when
    the year or the month is absent, empty or not a number; a 400 sends no
    statement, and every other answer follows exactly one statement, bound
    to [parseInt] of the year and of the month. *)
Theorem monthly_sales_needs_numbers :
  forall (env : environment) (year month : option jsstring) (s : session),
    exists r s',
      router_get_monthly_sales env (option_map Api.QStr year)
        (option_map Api.QStr month) s = (Normal r, s') /\
      (status r = 400 <-> refused year || refused month = true) /\
      (status r = 400 -> s' = s) /\
      (status r <> 400 ->
       exists y m,
         year = Some y /\ month = Some m /\
         log s' = log s ++ [(SELECT_get_monthly_sales,
                             [Num (parseInt y); Num (parseInt m)])]).
Proof.
  intros env year month s.
  assert (Hrefuse : forall msg,
             exists r s',
               (@ret session response {| status := 400; json := Error msg |}) s
                 = (Normal r, s') /\
               (status r = 400 <-> true = true) /\
               (status r = 400 -> s' = s) /\
               (status r <> 400 ->
                exists y m,
                  year = Some y /\ month = Some m /\
                  log s' = log s ++ [(SELECT_get_monthly_sales,
                                      [Num (parseInt y); Num (parseInt m)])])).
  { intros msg. eexists. eexists. split; [reflexivity|]. cbn [status].
    repeat split; try reflexivity. intros H; now contradiction H. }
  unfold router_get_monthly_sales.
  unfold Async.bind at 1. unfold lift at 1.
  destruct year as [[|c r]|]; cbn [option_map value_of_query Api.value_of
                                   truthy negb orb refused];
    try apply Hrefuse.
  destruct month as [[|c' r']|]; cbn [option_map value_of_query Api.value_of
                                      truthy negb orb refused];
    try (rewrite orb_true_r; apply Hrefuse).
  unfold isNaN. cbn [ToNumber Api.bindc].
  destruct (isNaN_number (StringToNumber (c :: r))); cbn [orb];
    [apply Hrefuse|].
  destruct (isNaN_number (StringToNumber (c' :: r'))); [apply Hrefuse|].
  unfold try_catch.
  unfold Async.bind at 1. unfold lift at 1.
  cbn [parseInt_query Api.ToString Api.bindc].
  unfold Async.bind at 1. unfold lift at 1.
  retail_query.
  assert (Hrest : forall r0 s0,
             log s0 = log s ++ [(SELECT_get_monthly_sales,
                                 [Num (parseInt (c :: r));
                                  Num (parseInt (c' :: r'))])] ->
             status r0 = 200 \/ status r0 = 500 ->
             (status r0 = 400 <-> false = true) /\
             (status r0 = 400 -> s0 = s) /\
             (status r0 <> 400 ->
              exists y m,
                Some (c :: r) = Some y /\ Some (c' :: r') = Some m /\
                log s0 = log s ++ [(SELECT_get_monthly_sales,
                                    [Num (parseInt y); Num (parseInt m)])])).
  { intros r0 s0 Hlog Hst. repeat split; try discriminate.
    - intros H. destruct Hst as [E | E]; rewrite E in H; discriminate H.
    - intros H. destruct Hst as [E | E]; rewrite E in H; discriminate H.
    - intros _. eauto. }
  destruct (fault env _ _).
  - eexists. eexists. split; [reflexivity|]. apply Hrest; [reflexivity|].
    now right.
  - destruct (run env _ _ _) as [[rows st]|e].
    + eexists. eexists. split; [reflexivity|]. apply Hrest; [reflexivity|].
      now left.
    + eexists. eexists. split; [reflexivity|]. apply Hrest; [reflexivity|].
      now right.
Qed.

(** *** The records by [id] *)

Lemma has_id_false n (rows : list Retail.row) :
  (forall row, In row rows -> Retail.id row <> n) ->
  filter (has_id (Some n)) rows = [].
Proof.
  intros H. apply filter_none. intros row Hin. cbn [has_id].
  apply Z.eqb_neq. now apply H.
Qed.

Lemma has_id_head n (rows : list Retail.row) row rest :
  filter (has_id (Some n)) rows = row :: rest ->
  In row rows /\ Retail.id row = n.
Proof.
  intros H. assert (Hin : In row (filter (has_id (Some n)) rows))
    by (rewrite H; now left).
  apply filter_In in Hin. destruct Hin as [Hin Hid]. split; [exact Hin|].
  now apply Z.eqb_eq.
Qed.

Lemma get_id_run env st id :
  no_fault env -> is_numeral id = true -> numeral_value id < 2 ^ 31 ->
  serve (router_get_id env id) st =
    (Normal match filter (has_id (Some (numeral_value id))) (retail st) with
            | [] => record_not_found
            | row :: _ => {| status := 200; json := Row row |}
            end,
     {| db := st; log := [(SELECT_retail_WHERE_id, [Str id])] |}).
Proof.
  intros Hf Hid H31. unfold serve, router_get_id.
  rewrite (numeral_is_a_number _ Hid). unfold try_catch.
  retail_query. rewrite Hf. cbn [run Api.parameter nth_error Api.bindc].
  rewrite (integer_parameter_32_numeral _ Hid H31). cbn [Api.bindc].
  now destruct (filter _ _).
Qed.

(** X12: for an [id] written as a decimal numeral below 2^31, GET /:id
    answers 404 exactly when no record has this [id], and answers 200 with
    a record of the table that has this [id] otherwise; either way the
    table is left as it is. *)
Theorem get_retail_record :
  forall (env : environment) (st : store) (id : jsstring),
    no_fault env -> is_numeral id = true -> numeral_value id < 2 ^ 31 ->
    exists r s',
      serve (router_get_id env id) st = (Normal r, s') /\
      db s' = st /\
      (r = record_not_found <->
       forall row, In row (retail st) -> Retail.id row <> numeral_value id) /\
      (r <> record_not_found ->
       exists row, r = {| status := 200; json := Row row |} /\
                   In row (retail st) /\ Retail.id row = numeral_value id).
Proof.
  intros env st id Hf Hid H31. rewrite (get_id_run env st id Hf Hid H31).
  eexists. eexists. split; [reflexivity|]. split; [reflexivity|].
  destruct (filter _ _) as [|row rest] eqn:E.
  - split; [|intros H; now contradiction H].
    split; [|reflexivity]. intros _ row Hin Heq.
    assert (Hrow : In row (filter (has_id (Some (numeral_value id)))
                             (retail st))).
    { apply filter_In. split; [exact Hin|]. cbn [has_id].
      now apply Z.eqb_eq. }
    rewrite E in Hrow. destruct Hrow.
  - destruct (has_id_head _ _ _ _ E) as [Hin Heq]. split.
    + split; [discriminate|]. intros H. now contradiction (H row Hin).
    + intros _. exists row. auto.
Qed.

Lemma get_retail_record_witness :
  exists r s',
    serve (router_get_id sample_env (lit "3")) sample_store = (Normal r, s') /\
    db s' = sample_store /\
    (r = record_not_found <->
     forall row, In row (retail sample_store) ->
                 Retail.id row <> numeral_value (lit "3")) /\
    (r <> record_not_found ->
     exists row, r = {| status := 200; json := Row row |} /\
                 In row (retail sample_store) /\
                 Retail.id row = numeral_value (lit "3")).
Proof.
  apply (get_retail_record sample_env sample_store (lit "3"));
    [intros q params|..]; reflexivity.
Defined.

Lemma filter_filter_negb {A : Type} (f : A -> bool) (l : list A) :
  filter f (filter (fun x => negb (f x)) l) = [].
Proof.
  apply filter_none. intros x Hx. apply filter_In in Hx.
  destruct Hx as [_ Hx]. now destruct (f x).
Qed.

(** X13: for an [id] written as a decimal numeral below 2^31, DELETE /:id
    removes the records with this [id] and no other, answers 204 when there
    was one and 404 when there was none, and a GET of the same [id] then
    finds no record. *)
Theorem delete_retail_record :
  forall (env : environment) (st : store) (id : jsstring),
    no_fault env -> is_numeral id = true -> numeral_value id < 2 ^ 31 ->
    exists r s',
      serve (router_delete_id env id) st = (Normal r, s') /\
      retail (db s') =
        filter (fun row => negb (Retail.id row =? numeral_value id))
          (retail st) /\
      (r = {| status := 204; json := NoContent |} \/ r = record_not_found) /\
      (r = record_not_found <->
       forall row, In row (retail st) -> Retail.id row <> numeral_value id) /\
      fst (serve (router_get_id env id) (db s')) = Normal record_not_found.
Proof.
  intros env st id Hf Hid H31.
  assert (Hrun :
    serve (router_delete_id env id) st =
      (Normal match filter (has_id (Some (numeral_value id))) (retail st) with
              | [] => record_not_found
              | _ :: _ => {| status := 204; json := NoContent |}
              end,
       {| db := {| retail :=
                     filter (fun row => negb (has_id (Some (numeral_value id))
                                                row)) (retail st) |};
          log := [(DELETE_FROM_retail_WHERE_id, [Str id])] |})).
  { unfold serve, router_delete_id.
    rewrite (numeral_is_a_number _ Hid). unfold try_catch.
    retail_query. rewrite Hf. cbn [run Api.parameter nth_error Api.bindc].
    rewrite (integer_parameter_32_numeral _ Hid H31). cbn [Api.bindc].
    now destruct (filter _ _). }
  rewrite Hrun. eexists. eexists. split; [reflexivity|]. cbn [db retail].
  split; [reflexivity|].
  split; [destruct (filter _ _); auto|].
  split.
  - destruct (filter _ _) as [|row rest] eqn:E.
    + split; [|reflexivity]. intros _ row Hin Heq.
      assert (Hrow : In row (filter (has_id (Some (numeral_value id)))
                               (retail st))).
      { apply filter_In. split; [exact Hin|]. cbn [has_id].
        now apply Z.eqb_eq. }
      rewrite E in Hrow. destruct Hrow.
    + destruct (has_id_head _ _ _ _ E) as [Hin Heq].
      split; [discriminate|]. intros H. now contradiction (H row Hin).
  - rewrite (get_id_run env _ id Hf Hid H31). cbn [fst retail].
    now rewrite filter_filter_negb.
Qed.

Lemma delete_retail_record_witness :
  exists r s',
    serve (router_delete_id sample_env (lit "3")) sample_store =
      (Normal r, s') /\
    retail (db s') =
      filter (fun row => negb (Retail.id row =? numeral_value (lit "3")))
        (retail sample_store) /\
    (r = {| status := 204; json := NoContent |} \/ r = record_not_found) /\
    (r = record_not_found <->
     forall row, In row (retail sample_store) ->
                 Retail.id row <> numeral_value (lit "3")) /\
    fst (serve (router_get_id sample_env (lit "3")) (db s')) =
      Normal record_not_found.
Proof.
  apply (delete_retail_record sample_env sample_store (lit "3"));
    [intros q params|..]; reflexivity.
Defined.

(** *** Writes under the guard *)

Lemma trg_enforce_positive_values_accepts (NEW : Retail.row) :
  ~ Triggers.negative_int (Retail.quantity NEW) ->
  ~ Triggers.negative_numeric (Retail.unit_price NEW) ->
  trg_enforce_positive_values NEW = Normal NEW.
Proof.
  intros Hq Hp. unfold trg_enforce_positive_values.
  now rewrite (proj2 (enforce_positive_values_accepts
                        (Triggers.Retail.mk (Retail.id NEW) None
                           (Retail.quantity NEW) (Retail.unit_price NEW)))
                 (conj Hq Hp)).
Qed.

Lemma trg_enforce_positive_values_rejects (NEW : Retail.row) :
  Triggers.negative_int (Retail.quantity NEW) \/
  Triggers.negative_numeric (Retail.unit_price NEW) ->
  exists e, trg_enforce_positive_values NEW = Throw e.
Proof.
  intros H. unfold trg_enforce_positive_values.
  destruct (enforce_positive_values_rejects
              (Triggers.Retail.mk (Retail.id NEW) None (Retail.quantity NEW)
                 (Retail.unit_price NEW)) H) as [-> | ->]; eauto.
Qed.

Lemma post_retail_run :
  forall (env : environment) (st : store) (req_body : Api.object)
         (c : Retail.row),
    no_fault env ->
    columns env (bound_columns req_body) = Normal c ->
    (Triggers.negative_int (Retail.quantity c) \/
     Triggers.negative_numeric (Retail.unit_price c) ->
     serve (router_post env req_body) st =
       (Normal database_error_occurred,
        {| db := st;
           log := [(INSERT_INTO_retail, bound_columns req_body)] |})) /\
    (~ Triggers.negative_int (Retail.quantity c) ->
     ~ Triggers.negative_numeric (Retail.unit_price c) ->
     serve (router_post env req_body) st =
       (Normal {| status := 201;
                  json := Row (with_id (nextval env (retail st)) c) |},
        {| db := {| retail := retail st ++
                                [with_id (nextval env (retail st)) c] |};
           log := [(INSERT_INTO_retail, bound_columns req_body)] |})).
Proof.
  intros env st req_body c Hf Hc. split.
  - intros Hneg. unfold serve, router_post, try_catch.
    retail_query. rewrite Hf. cbn [run]. rewrite Hc. cbn [Api.bindc].
    destruct (trg_enforce_positive_values_rejects
                (with_id (nextval env (retail st)) c) Hneg) as [e ->].
    reflexivity.
  - intros Hq Hp. unfold serve, router_post, try_catch.
    retail_query. rewrite Hf. cbn [run]. rewrite Hc. cbn [Api.bindc].
    rewrite (trg_enforce_positive_values_accepts
               (with_id (nextval env (retail st)) c) Hq Hp).
    reflexivity.
Qed.

(** X14: POST / has no check of its own; the row goes through the guard of
    the table.  A row with a negative quantity or a negative unit price is
    answered with 500 and nothing is stored; any other row is stored at the
    end of the table under the next [id] and answered with 201. *)
Theorem post_retail_goes_through_the_guard :
  forall (env : environment) (st : store) (req_body : Api.object)
         (c : Retail.row),
    no_fault env ->
    columns env (bound_columns req_body) = Normal c ->
    (Triggers.negative_int (Retail.quantity c) \/
     Triggers.negative_numeric (Retail.unit_price c) ->
     serve (router_post env req_body) st =
       (Normal database_error_occurred,
        {| db := st;
           log := [(INSERT_INTO_retail, bound_columns req_body)] |})) /\
    (~ Triggers.negative_int (Retail.quantity c) ->
     ~ Triggers.negative_numeric (Retail.unit_price c) ->
     serve (router_post env req_body) st =
       (Normal {| status := 201;
                  json := Row (with_id (nextval env (retail st)) c) |},
        {| db := {| retail := retail st ++
                                [with_id (nextval env (retail st)) c] |};
           log := [(INSERT_INTO_retail, bound_columns req_body)] |})).
Proof. exact post_retail_run. Qed.

Lemma post_retail_goes_through_the_guard_witness :
  fst (serve (router_post sample_env (body_of (-1) (5 # 2))) sample_store) =
    Normal database_error_occurred /\
  fst (serve (router_post sample_env (body_of 0 0)) sample_store) =
    Normal {| status := 201;
              json := Row (Retail.mk 6 None (Some (lit "85123A")) None
                             (Some 0) None (Some 0%Q) None None) |}.
Proof.
  split.
  - rewrite (proj1 (post_retail_goes_through_the_guard sample_env sample_store
                      (body_of (-1) (5 # 2)) _ (fun _ _ => eq_refl) eq_refl));
      [reflexivity|].
    left. exists (-1). split; [reflexivity | lia].
  - rewrite (proj2 (post_retail_goes_through_the_guard sample_env sample_store
                      (body_of 0 0) _ (fun _ _ => eq_refl) eq_refl));
      [reflexivity| |].
    + intros (z & [= <-] & H). vm_compute in H. discriminate H.
    + intros (q & [= <-] & H). discriminate H.
Defined.

(** X15: a record that POST / has stored is the one GET /:id answers for
    the [id] it was given, when no older record has this [id]. *)
Theorem posted_record_is_found :
  forall (env : environment) (st : store) (req_body : Api.object)
         (c : Retail.row) (id : jsstring),
    no_fault env ->
    columns env (bound_columns req_body) = Normal c ->
    ~ Triggers.negative_int (Retail.quantity c) ->
    ~ Triggers.negative_numeric (Retail.unit_price c) ->
    (forall row, In row (retail st) ->
                 Retail.id row <> nextval env (retail st)) ->
    is_numeral id = true -> numeral_value id < 2 ^ 31 ->
    numeral_value id = nextval env (retail st) ->
    exists NEW s',
      serve (router_post env req_body) st =
        (Normal {| status := 201; json := Row NEW |}, s') /\
      Retail.id NEW = numeral_value id /\
      fst (serve (router_get_id env id) (db s')) =
        Normal {| status := 200; json := Row NEW |}.
Proof.
  intros env st req_body c id Hf Hc Hq Hp Hfresh Hid H31 Hnext.
  rewrite (proj2 (post_retail_run env st req_body c Hf Hc) Hq Hp).
  eexists. eexists. split; [reflexivity|]. split; [now rewrite Hnext|].
  rewrite (get_id_run env _ id Hf Hid H31). cbn [fst db retail].
  rewrite filter_app, (has_id_false _ _ (fun row Hin =>
    eq_ind_r (fun n => Retail.id row <> n) (Hfresh row Hin) Hnext)).
  cbn [app filter has_id with_id Retail.id].
  rewrite Hnext, Z.eqb_refl. reflexivity.
Qed.

Lemma posted_record_is_found_witness :
  exists NEW s',
    serve (router_post sample_env (body_of 2 (5 # 2))) sample_store =
      (Normal {| status := 201; json := Row NEW |}, s') /\
    Retail.id NEW = numeral_value (lit "6") /\
    fst (serve (router_get_id sample_env (lit "6")) (db s')) =
      Normal {| status := 200; json := Row NEW |}.
Proof.
  apply (posted_record_is_found sample_env sample_store (body_of 2 (5 # 2))
           (Retail.mk 0 None (Some (lit "85123A")) None (Some 2) None
              (Some (5 # 2)%Q) None None) (lit "6") (fun _ _ => eq_refl)
           eq_refl).
  - intros (z & [= <-] & H). discriminate H.
  - intros (q & [= <-] & H). discriminate H.
  - intros row [<- | [<- | [<- | [<- | [<- | []]]]]]; discriminate.
  - reflexivity.
  - reflexivity.
  - reflexivity.
Defined.

Lemma update_rows_none cond set (rows : list Retail.row) :
  (forall row, In row rows -> cond row = false) ->
  update_rows cond set rows = Normal (rows, []).
Proof.
  induction rows as [|r rest IH]; intros H; [reflexivity|].
  cbn [update_rows]. rewrite (H r (or_introl eq_refl)).
  rewrite IH by (intros; apply H; now right). reflexivity.
Qed.

Lemma update_rows_accepted' cond set (rows : list Retail.row) :
  (forall row, In row rows -> cond row = true ->
               trg_enforce_positive_values (set row) = Normal (set row)) ->
  update_rows cond set rows =
    Normal (map (fun r => if cond r then set r else r) rows,
            map set (filter cond rows)).
Proof.
  induction rows as [|r rest IH]; intros H; [reflexivity|].
  cbn [update_rows map filter].
  rewrite IH by (intros; apply H; auto; now right).
  destruct (cond r) eqn:Hc; cbn [Api.bindc fst snd map]; [|reflexivity].
  rewrite (H r (or_introl eq_refl) Hc). reflexivity.
Qed.

Lemma update_rows_rejected' cond set (rows : list Retail.row) row :
  In row rows -> cond row = true ->
  (forall r, exists e, trg_enforce_positive_values (set r) = Throw e) ->
  exists e, update_rows cond set rows = Throw e.
Proof.
  intros Hin Hc Hrej. induction rows as [|r rest IH]; [destruct Hin|].
  cbn [update_rows]. destruct (cond r) eqn:Hr.
  - destruct (Hrej r) as [e ->]. cbn [Api.bindc]. eauto.
  - destruct Hin as [-> | Hin]; [congruence|].
    destruct (IH Hin) as [e ->]. cbn [Api.bindc]. eauto.
Qed.

(** X16: for an [id] written as a decimal numeral below 2^31, PUT /:id
    answers 404 when no record has this [id], whatever the new values;
    when a record has it, a negative quantity or unit price is answered
    with 500 and the table is left as it is, and any other values replace
    the columns of the records with this [id], which keep their [id] and
    their place. *)
Theorem put_retail_record :
  forall (env : environment) (st : store) (id : jsstring)
         (req_body : Api.object) (c : Retail.row),
    no_fault env -> is_numeral id = true -> numeral_value id < 2 ^ 31 ->
    columns env (bound_columns req_body ++ [Str id]) = Normal c ->
    ((forall row, In row (retail st) -> Retail.id row <> numeral_value id) ->
     serve (router_put_id env id req_body) st =
       (Normal record_not_found,
        {| db := st;
           log := [(UPDATE_retail_WHERE_id,
                    bound_columns req_body ++ [Str id])] |})) /\
    ((exists row, In row (retail st) /\ Retail.id row = numeral_value id) ->
     (Triggers.negative_int (Retail.quantity c) \/
      Triggers.negative_numeric (Retail.unit_price c) ->
      serve (router_put_id env id req_body) st =
        (Normal database_error_occurred,
         {| db := st;
            log := [(UPDATE_retail_WHERE_id,
                     bound_columns req_body ++ [Str id])] |})) /\
     (~ Triggers.negative_int (Retail.quantity c) ->
      ~ Triggers.negative_numeric (Retail.unit_price c) ->
      serve (router_put_id env id req_body) st =
        (Normal {| status := 200;
                   json := Row (with_id (numeral_value id) c) |},
         {| db := {| retail :=
                       map (fun r => if Retail.id r =? numeral_value id
                                     then with_id (numeral_value id) c
                                     else r) (retail st) |};
            log := [(UPDATE_retail_WHERE_id,
                     bound_columns req_body ++ [Str id])] |}))).
Proof.
  intros env st id req_body c Hf Hid H31 Hc.
  assert (Hkey : Api.parameter (bound_columns req_body ++ [Str id]) 9 =
                 Normal (Str id)) by reflexivity.
  assert (Hrun : forall result,
    update_rows (has_id (Some (numeral_value id)))
      (fun r => with_id (Retail.id r) c) (retail st) = result ->
    serve (router_put_id env id req_body) st =
      match result with
      | Normal (table, []) =>
          (Normal record_not_found,
           {| db := {| retail := table |};
              log := [(UPDATE_retail_WHERE_id,
                       bound_columns req_body ++ [Str id])] |})
      | Normal (table, row :: _) =>
          (Normal {| status := 200; json := Row row |},
           {| db := {| retail := table |};
              log := [(UPDATE_retail_WHERE_id,
                       bound_columns req_body ++ [Str id])] |})
      | Throw _ =>
          (Normal database_error_occurred,
           {| db := st;
              log := [(UPDATE_retail_WHERE_id,
                       bound_columns req_body ++ [Str id])] |})
      end).
  { intros result Hres. unfold serve, router_put_id.
    rewrite (numeral_is_a_number _ Hid). unfold try_catch.
    retail_query. rewrite Hf. cbn [run]. rewrite Hkey. cbn [Api.bindc].
    rewrite (integer_parameter_32_numeral _ Hid H31). cbn [Api.bindc].
    rewrite Hc. cbn [Api.bindc]. rewrite Hres.
    destruct result as [[table [|row rest]]|e]; reflexivity. }
  split.
  - intros Hnone.
    rewrite (Hrun _ (update_rows_none _ _ _ (fun row Hin =>
               proj2 (Z.eqb_neq _ _) (Hnone row Hin)))).
    now destruct st.
  - intros (row & Hin & Hrow). split.
    + intros Hneg.
      destruct (update_rows_rejected' (has_id (Some (numeral_value id)))
                  (fun r => with_id (Retail.id r) c) (retail st) row Hin)
        as [e He].
      * cbn [has_id]. now apply Z.eqb_eq.
      * intros r. apply trg_enforce_positive_values_rejects. exact Hneg.
      * now rewrite (Hrun _ He).
    + intros Hq Hp.
      rewrite (Hrun _ (update_rows_accepted' _ _ _ (fun r _ _ =>
                 trg_enforce_positive_values_accepts
                   (with_id (Retail.id r) c) Hq Hp))).
      assert (Hmap :
        map (fun r => if has_id (Some (numeral_value id)) r
                      then with_id (Retail.id r) c else r) (retail st) =
        map (fun r => if Retail.id r =? numeral_value id
                      then with_id (numeral_value id) c else r) (retail st)).
      { apply map_ext. intros r. cbn [has_id].
        destruct (Z.eqb_spec (Retail.id r) (numeral_value id)) as [-> |];
          reflexivity. }
      rewrite Hmap.
      destruct (filter (has_id (Some (numeral_value id))) (retail st))
        as [|row' rest] eqn:E.
      * exfalso.
        assert (Hin' : In row (filter (has_id (Some (numeral_value id)))
                                 (retail st))).
        { apply filter_In. split; [exact Hin|]. cbn [has_id].
          now apply Z.eqb_eq. }
        rewrite E in Hin'. destruct Hin'.
      * cbn [map]. destruct (has_id_head _ _ _ _ E) as [_ ->]. reflexivity.
Qed.

Lemma put_retail_record_witness :
  fst (serve (router_put_id sample_env (lit "9") (body_of (-1) (5 # 2)))
         sample_store) = Normal record_not_found /\
  fst (serve (router_put_id sample_env (lit "3") (body_of (-1) (5 # 2)))
         sample_store) = Normal database_error_occurred.
Proof.
  split.
  - rewrite (proj1 (put_retail_record sample_env sample_store (lit "9")
                      (body_of (-1) (5 # 2)) _ (fun _ _ => eq_refl) eq_refl
                      eq_refl eq_refl)); [reflexivity|].
    intros row [<- | [<- | [<- | [<- | [<- | []]]]]]; discriminate.
  - destruct (put_retail_record sample_env sample_store (lit "3")
                (body_of (-1) (5 # 2)) _ (fun _ _ => eq_refl) eq_refl eq_refl
                eq_refl) as [_ H].
    destruct H as [H _].
    + eexists. split; [right; right; left; reflexivity | reflexivity].
    + rewrite H; [reflexivity|].
      left. exists (-1). split; [reflexivity | lia].
Defined.

(** *** GET /performance/inventory-status *)

Lemma status_is_one_of (item : inventory_item) :
  Z.b2z (status_is "OUT_OF_STOCK" item) + Z.b2z (status_is "LOW_STOCK" item)
  + Z.b2z (status_is "IN_STOCK" item) =
  Z.b2z (status_is "OUT_OF_STOCK" item || status_is "LOW_STOCK" item
         || status_is "IN_STOCK" item).
Proof.
  unfold status_is. destruct (status_column item) as [| | | |s|]; try reflexivity.
  destruct (str_eqb s (lit "OUT_OF_STOCK")) eqn:E1;
    destruct (str_eqb s (lit "LOW_STOCK")) eqn:E2;
    destruct (str_eqb s (lit "IN_STOCK")) eqn:E3;
    try reflexivity;
    repeat match goal with
           | H : str_eqb _ _ = true |- _ => apply str_eqb_eq in H
           end; subst; discriminate.
Qed.

Lemma count_cons text item rows :
  count text (item :: rows) = Z.b2z (status_is text item) + count text rows.
Proof.
  unfold count. cbn [filter]. destruct (status_is text item); cbn [Z.b2z];
    [cbn [List.length]; lia | lia].
Qed.

Lemma counts_add_up rows :
  count "OUT_OF_STOCK" rows + count "LOW_STOCK" rows + count "IN_STOCK" rows
  = Z.of_nat (List.length
      (filter (fun item => status_is "OUT_OF_STOCK" item
                           || status_is "LOW_STOCK" item
                           || status_is "IN_STOCK" item) rows)).
Proof.
  induction rows as [|item rows IH]; [reflexivity|].
  rewrite !count_cons. cbn [filter].
  pose proof (status_is_one_of item) as H.
  destruct (status_is "OUT_OF_STOCK" item || status_is "LOW_STOCK" item
            || status_is "IN_STOCK" item); cbn [Z.b2z List.length] in *; lia.
Qed.

Lemma filter_length_all {A : Type} (f : A -> bool) (l : list A) :
  List.length (filter f l) = List.length l <-> Forall (fun x => f x = true) l.
Proof.
  induction l as [|a l IH]; cbn [filter]; [split; [constructor | reflexivity]|].
  pose proof (filter_length_le f l) as Hle.
  destruct (f a) eqn:E; cbn [List.length]; split.
  - intros [= H]. constructor; [exact E | now apply IH].
  - intros H. inversion H; subst. f_equal. now apply IH.
  - intros H. lia.
  - intros H. inversion H; subst. congruence.
Qed.

(** X17: in the summary of GET /performance/inventory-status the three
    counts never add up to more than [total_items], and they add up to it
    exactly when every item has one of the three statuses the handler
    counts; an item with another status, or with none, is in the total and
    in no count. *)
Theorem inventory_status_counts :
  forall (env : environment) (s : session) (rows : list inventory_item),
    fault env SELECT_get_inventory_status [] = None ->
    get_inventory_status env = Normal rows ->
    exists total_items out_of_stock low_stock in_stock s',
      router_get_inventory_status env s =
        (Normal {| status := 200;
                   json := InventoryStatus rows total_items out_of_stock
                             low_stock in_stock |}, s') /\
      total_items = Z.of_nat (List.length rows) /\
      out_of_stock + low_stock + in_stock <= total_items /\
      (out_of_stock + low_stock + in_stock = total_items <->
       Forall (fun item => status_is "OUT_OF_STOCK" item
                           || status_is "LOW_STOCK" item
                           || status_is "IN_STOCK" item = true) rows).
Proof.
  intros env s rows Hf Hrows. unfold router_get_inventory_status, try_catch.
  retail_query. rewrite Hf. cbn [run]. rewrite Hrows. cbn [Api.bindc].
  do 5 eexists. split; [reflexivity|]. split; [reflexivity|].
  rewrite counts_add_up. split.
  - apply inj_le, filter_length_le.
  - rewrite <- filter_length_all. split; [apply Nat2Z.inj | now intros ->].
Qed.

Lemma inventory_status_counts_witness :
  exists total_items out_of_stock low_stock in_stock s',
    router_get_inventory_status sample_env
      {| db := sample_store; log := [] |} =
      (Normal {| status := 200;
                 json := InventoryStatus
                           [ mkItem (Str (lit "IN_STOCK")) [];
                             mkItem (Str (lit "LOW_STOCK")) [];
                             mkItem null [];
                             mkItem (Str (lit "OUT_OF_STOCK")) [] ]
                           total_items out_of_stock low_stock in_stock |},
       s') /\
    total_items = 4 /\
    out_of_stock + low_stock + in_stock <= total_items.
Proof.
  destruct (inventory_status_counts sample_env
              {| db := sample_store; log := [] |} _ eq_refl eq_refl)
    as (t & o & l & i & s' & Hrun & Ht & Hle & _).
  exists t, o, l, i, s'. auto.
Defined.

End RetailRoutesProperties.

(** ** The routes of index.js *)

Section Routes.
Import JS Express Index.

Lemma low_stock_is_an_id pieces r :
  match_segments (pattern_of "/api/products/low-stock") pieces = Some r ->
  exists x,
    match_segments (pattern_of "/api/products/:id") pieces =
      Some [(lit "id", x)].
Proof.
  change (pattern_of "/api/products/low-stock")
    with [literal (lit "api"); literal (lit "products");
          literal (lit "low-stock")].
  change (pattern_of "/api/products/:id")
    with [literal (lit "api"); literal (lit "products"); param (lit "id")].
  destruct pieces as [|p1 [|p2 [|p3 rest]]]; cbn [match_segments];
    try discriminate.
  - destruct (same_ignoring_case (lit "api") p1); discriminate.
  - destruct (same_ignoring_case (lit "api") p1); [|discriminate].
    destruct (same_ignoring_case (lit "products") p2); discriminate.
  - destruct (same_ignoring_case (lit "api") p1); [|discriminate].
    destruct (same_ignoring_case (lit "products") p2); [|discriminate].
    destruct (same_ignoring_case (lit "low-stock") p3) eqn:E; [|discriminate].
    destruct p3 as [|c p3]; [vm_compute in E; discriminate E|].
    destruct rest as [|[|c' p4] [|p5 rest']]; try discriminate; eauto.
Qed.

Lemma low_stock_path_is_an_id_path path matched :
  match_path (pattern_of "/api/products/low-stock") path = Some matched ->
  match_path (pattern_of "/api/products/:id") path <> None.
Proof.
  unfold match_path. destruct (split path) as [|[|c piece] pieces];
    try discriminate.
  intros H. destruct (low_stock_is_an_id _ _ H) as [x ->]. discriminate.
Qed.

(** *** The first route that matches handles the request *)

Lemma dispatch_handled {E : Type} decode (routes : list (route E)) m path e
    params :
  dispatch decode routes m path = handled e params ->
  exists r,
    In r routes /\ endpoint r = e /\ method_eqb (route_method r) m = true /\
    exists matched, match_path (route_path r) path = Some matched.
Proof.
  induction routes as [|r routes IH]; cbn [dispatch]; [discriminate|].
  destruct (match_path (route_path r) path) as [matched|] eqn:Ep.
  - destruct (decode_params decode matched) as [ps|]; [|discriminate].
    destruct (method_eqb (route_method r) m) eqn:Em.
    + intros [= <- <-]. exists r. split; [now left|]. eauto.
    + intros H. destruct (IH H) as (r' & Hin & Hr'). exists r'.
      split; [now right | exact Hr'].
  - intros H. destruct (IH H) as (r' & Hin & Hr'). exists r'.
    split; [now right | exact Hr'].
Qed.

Lemma dispatch_shadowed {E : Type} decode (before : list (route E)) r after
    m path e params :
  match_path (route_path r) path <> None ->
  method_eqb (route_method r) m = true ->
  dispatch decode (before ++ r :: after) m path = handled e params ->
  exists r', In r' (before ++ [r]) /\ endpoint r' = e.
Proof.
  intros Hpath Hm. induction before as [|r0 before IH];
    cbn [app dispatch].
  - destruct (match_path (route_path r) path) as [matched|];
      [|now contradiction Hpath].
    destruct (decode_params decode matched); [|discriminate].
    rewrite Hm. intros [= <- <-]. exists r. split; [now left | reflexivity].
  - destruct (match_path (route_path r0) path) as [matched|].
    + destruct (decode_params decode matched); [|discriminate].
      destruct (method_eqb (route_method r0) m).
      * intros [= <- <-]. exists r0. split; [now left | reflexivity].
      * intros H. destruct (IH H) as (r' & Hin & He). exists r'.
        split; [now right | exact He].
    + intros H. destruct (IH H) as (r' & Hin & He). exists r'.
      split; [now right | exact He].
Qed.

Lemma low_stock_is_not_a_number : Api.isNumeric (lit "low-stock") = false.
Proof. vm_compute. reflexivity. Qed.

(** X18: the handler of GET /api/products/low-stock is never run.  The
    route is registered after GET /api/products/:id, which matches every
    path that it matches; a request for it is handled as the lookup of the
    product whose identifier is [low-stock], and answered with 404 when no
    product has this [stock_code]. *)
Theorem low_stock_route_is_shadowed :
  (forall decodeURIComponent m path params,
      dispatch decodeURIComponent routes m path <>
        handled get_api_products_low_stock params) /\
  (forall decodeURIComponent,
      dispatch decodeURIComponent routes GET (lit "/api/products/low-stock") =
        handled get_api_products_id [(lit "id", lit "low-stock")]) /\
  (forall env st,
      (forall q params, Api.fault env q params = None) ->
      (forall p, In p (Api.products st) ->
                 Api.Products.stock_code p <> lit "low-stock") ->
      fst (Api.serve (Api.app_get_api_products_id env (lit "low-stock")) st) =
        Normal {| Api.status := 404;
                  Api.json := Api.Failure "Product not found" |}).
Proof.
  split; [|split].
  - intros decode m path params H.
    destruct (dispatch_handled _ _ _ _ _ _ H)
      as (r & Hin & He & Hm & matched & Hpath).
    assert (Hr : r = mkRoute GET (pattern_of "/api/products/low-stock")
                       get_api_products_low_stock).
    { unfold routes in Hin.
      repeat (destruct Hin as [<- | Hin]; [try discriminate He|]);
        [reflexivity | destruct Hin]. }
    subst r. cbn [route_method route_path] in Hm, Hpath.
    destruct (dispatch_shadowed decode
                [mkRoute GET (pattern_of "/api/products") get_api_products]
                (mkRoute GET (pattern_of "/api/products/:id")
                   get_api_products_id)
                _ m path _ params
                (low_stock_path_is_an_id_path _ _ Hpath) Hm H)
      as (r' & [<- | [<- | []]] & He'); discriminate He'.
  - intros decode. vm_compute. reflexivity.
  - intros env st Hf Hnone.
    unfold Api.serve, Api.app_get_api_products_id, Api.try_catch,
      Api.get_product_try, Api.searchField, Api.searchValue.
    rewrite low_stock_is_not_a_number.
    first_query. rewrite Hf.
    cbn [Api.run Api.parameter nth_error Api.bindc Api.where_search_field
         Api.text_parameter].
    rewrite filter_none; [reflexivity|].
    intros p Hin. destruct (str_eqb _ _) eqn:E; [|reflexivity].
    apply str_eqb_eq in E. now contradiction (Hnone p Hin).
Qed.

(** *** The analytics summary *)

Lemma filter_length_disjoint {A : Type} (f g : A -> bool) (l : list A) :
  (forall x, f x && g x = false) ->
  (List.length (filter f l) + List.length (filter g l) <= List.length l)%nat.
Proof.
  intros H. induction l as [|a l IH]; [apply Nat.le_refl|]. cbn [filter].
  specialize (H a). destruct (f a), (g a); try discriminate;
    cbn [List.length]; lia.
Qed.

Lemma Qmin_le x y : (Qmin x y <= x)%Q /\ (Qmin x y <= y)%Q.
Proof.
  unfold Qmin, Qleb. destruct (Qle_bool x y) eqn:E.
  - split; [apply Qle_refl | now apply Qle_bool_iff].
  - split; [|apply Qle_refl]. apply Qlt_le_weak, Qnot_le_lt.
    intros H. apply Qle_bool_iff in H. congruence.
Qed.

Lemma Qmax_le x y : (x <= Qmax x y)%Q /\ (y <= Qmax x y)%Q.
Proof.
  unfold Qmax, Qleb. destruct (Qle_bool x y) eqn:E.
  - split; [now apply Qle_bool_iff | apply Qle_refl].
  - split; [apply Qle_refl|]. apply Qlt_le_weak, Qnot_le_lt.
    intros H. apply Qle_bool_iff in H. congruence.
Qed.

Lemma fold_Qmin_le v vs x :
  In x (v :: vs) -> (fold_right Qmin v vs <= x)%Q.
Proof.
  induction vs as [|a vs IH]; cbn [fold_right].
  - intros [<- | []]. apply Qle_refl.
  - intros [<- | [<- | Hin]].
    + eapply Qle_trans; [apply Qmin_le | apply IH; now left].
    + apply Qmin_le.
    + eapply Qle_trans; [apply Qmin_le | apply IH; now right].
Qed.

Lemma fold_Qmax_le v vs x :
  In x (v :: vs) -> (x <= fold_right Qmax v vs)%Q.
Proof.
  induction vs as [|a vs IH]; cbn [fold_right].
  - intros [<- | []]. apply Qle_refl.
  - intros [<- | [<- | Hin]].
    + eapply Qle_trans; [apply IH; now left | apply Qmax_le].
    + apply Qmax_le.
    + eapply Qle_trans; [apply IH; now right | apply Qmax_le].
Qed.

Lemma total_bounds lo hi vs :
  (forall x, In x vs -> (lo <= x)%Q /\ (x <= hi)%Q) ->
  (lo * inject_Z (Z.of_nat (List.length vs)) <= Monthly.total vs)%Q /\
  (Monthly.total vs <= hi * inject_Z (Z.of_nat (List.length vs)))%Q.
Proof.
  induction vs as [|v vs IH]; intros H.
  - cbn. split; rewrite Qmult_0_r; apply Qle_refl.
  - destruct (IH (fun x Hx => H x (or_intror Hx))) as [Hlo Hhi].
    destruct (H v (or_introl eq_refl)) as [Hv1 Hv2].
    cbn [List.length Monthly.total fold_right].
    rewrite Nat2Z.inj_succ, <- Z.add_1_l, inject_Z_plus.
    change (inject_Z 1) with 1%Q. fold (Monthly.total vs).
    split.
    + setoid_replace (lo * (1 + inject_Z (Z.of_nat (List.length vs))))%Q
        with (lo + lo * inject_Z (Z.of_nat (List.length vs)))%Q by ring.
      now apply Qplus_le_compat.
    + setoid_replace (hi * (1 + inject_Z (Z.of_nat (List.length vs))))%Q
        with (hi + hi * inject_Z (Z.of_nat (List.length vs)))%Q by ring.
      now apply Qplus_le_compat.
Qed.

Lemma average_bounds v vs :
  (fold_right Qmin v vs <= average (v :: vs))%Q /\
  (average (v :: vs) <= fold_right Qmax v vs)%Q.
Proof.
  destruct (total_bounds (fold_right Qmin v vs) (fold_right Qmax v vs)
              (v :: vs)) as [Hlo Hhi].
  { intros x Hx. split; [now apply fold_Qmin_le | now apply fold_Qmax_le]. }
  assert (Hn : (0 < inject_Z (Z.of_nat (List.length (v :: vs))))%Q).
  { change 0%Q with (inject_Z 0). rewrite <- Zlt_Qlt. cbn [List.length]. lia. }
  unfold average. split.
  - now apply Qle_shift_div_l.
  - now apply Qle_shift_div_r.
Qed.

Lemma priced_prices rows :
  (forall p, In p rows -> priced p = true) ->
  List.length (Monthly.non_null (map Products.unit_price rows)) =
  List.length rows.
Proof.
  induction rows as [|p rows IH]; intros H; [reflexivity|].
  cbn [map]. pose proof (H p (or_introl eq_refl)) as Hp. unfold priced in Hp.
  destruct (Products.unit_price p); [|discriminate].
  cbn [Monthly.non_null List.length]. f_equal. apply IH.
  intros p' Hp'. apply H. now right.
Qed.

(** X19: the analytics summary counts the products that have a unit
    price, and no other.  The active and the inactive products among them
    are never more than [total_products], nor are those low on stock; with
    no priced product every aggregate is NULL, and with one the average
    price lies between the least and the greatest. *)
Theorem analytics_summary_is_consistent :
  forall (env : environment) (st : Api.store),
    fault env SELECT_summary = None ->
    exists d s',
      serve (app_get_api_products_analytics_summary env) st =
        (Normal {| status := 200; json := Summary d |}, s') /\
      db s' = st /\
      total_products d =
        Z.of_nat (List.length (filter priced (Api.products st))) /\
      0 <= active_products d /\ 0 <= inactive_products d /\
      active_products d + inactive_products d <= total_products d /\
      0 <= low_stock_products d <= total_products d /\
      (total_products d = 0 ->
       avg_product_price d = None /\ min_price d = None /\
       max_price d = None /\ total_stock_quantity d = None /\
       avg_stock_quantity d = None) /\
      (0 < total_products d ->
       exists lo av hi,
         min_price d = Some lo /\ avg_product_price d = Some av /\
         max_price d = Some hi /\ (lo <= av)%Q /\ (av <= hi)%Q).
Proof.
  intros env st Hf.
  unfold serve, app_get_api_products_analytics_summary, Async.try_catch.
  unfold Async.bind at 1. unfold client_query at 1.
  cbv beta iota zeta. cbn [db log app]. rewrite Hf. cbn [run].
  eexists. eexists. split; [reflexivity|]. split; [reflexivity|].
  unfold summary_of.
  cbn [total_products active_products inactive_products avg_product_price
       total_stock_quantity low_stock_products min_price max_price
       avg_stock_quantity].
  set (rows := filter priced (Api.products st)).
  assert (Hpriced : forall p, In p rows -> priced p = true)
    by (intros p Hp; apply filter_In in Hp; tauto).
  pose proof (priced_prices rows Hpriced) as Hlen.
  unfold COUNT_WHEN.
  split; [reflexivity|]. split; [lia|]. split; [lia|]. split.
  { rewrite <- Nat2Z.inj_add. apply inj_le, filter_length_disjoint.
    intros p. now destruct (Products.is_active p) as [[|]|]. }
  split.
  { split; [lia|]. apply inj_le, filter_length_le. }
  split.
  - intros H0. assert (E : rows = [])
      by (destruct rows; [reflexivity | discriminate H0]).
    rewrite E. repeat split; reflexivity.
  - intros Hpos. unfold MIN, AVG, MAX.
    destruct (Monthly.non_null (map Products.unit_price rows)) as [|v vs].
    + cbn [List.length] in Hlen. rewrite <- Hlen in Hpos. discriminate Hpos.
    + exists (fold_right Index.Qmin v vs), (average (v :: vs)),
        (fold_right Index.Qmax v vs).
      destruct (average_bounds v vs) as [Hlo Hhi]. auto.
Qed.

Lemma analytics_summary_is_consistent_witness :
  exists d s',
    serve (app_get_api_products_analytics_summary sample_env)
      Api.sample_store =
      (Normal {| status := 200; json := Summary d |}, s') /\
    total_products d = 3 /\
    active_products d + inactive_products d <= total_products d.
Proof.
  destruct (analytics_summary_is_consistent sample_env Api.sample_store
              eq_refl) as (d & s' & Hrun & _ & Ht & _ & _ & Hle & _).
  exists d, s'. split; [exact Hrun|]. split; [|exact Hle].
  rewrite Ht. reflexivity.
Defined.

End Routes.

(** ** The product handlers *)

Section ProductHandlers.
Import JS Api.

Lemma positive_number n :
  isNaN_number n = false /\ le n (Finite 0) = false <->
  lt (Finite 0) n = true.
Proof.
  destruct n as [|[|]|q]; cbn; try (split; [intros [? ?] | intros ?];
    try discriminate; auto; fail).
  rewrite negb_false_iff. tauto.
Qed.

(** X20: [validateProduct] calls [next()] exactly for the bodies whose
    [stock_code] is a string of 1 to 20 code units, whose [description] is
    anything truthy (a string is not asked for), and whose [unit_price] is
    absent or converts to a number above 0. *)
Theorem validateProduct_calls_next :
  forall req_body : object,
    validateProduct req_body = Normal None <->
    (exists s, property req_body "stock_code" = Str s /\ s <> [] /\
               (List.length s <= 20)%nat) /\
    truthy (property req_body "description") = true /\
    (property req_body "unit_price" = undefined \/
     exists n, ToNumber (property req_body "unit_price") = Normal n /\
               lt (Finite 0) n = true).
Proof.
  intros req_body. unfold validateProduct.
  set (sc := property req_body "stock_code").
  set (de := property req_body "description").
  set (up := property req_body "unit_price").
  split.
  - destruct (truthy sc) eqn:Esc; cbn [negb orb]; [|discriminate].
    destruct (truthy de) eqn:Ede; cbn [negb orb]; [|discriminate].
    destruct sc as [| | | |s|]; cbn [typeof_string negb orb];
      try discriminate.
    cbn [string_length].
    destruct (Z.ltb_spec 20 (Z.of_nat (List.length s))) as [Hlong|Hlen];
      [discriminate|].
    intros H. split.
    { exists s. split; [reflexivity|]. split; [|lia].
      destruct s; [discriminate Esc | discriminate]. }
    split; [reflexivity|].
    destruct (is_undefined up) eqn:Eu; cbn [negb] in H.
    { left. now destruct up. }
    right. unfold isNaN, le_number in H.
    destruct (ToNumber up) as [n|e] eqn:En; cbn [bindc] in H;
      [|discriminate].
    destruct (isNaN_number n) eqn:Enan; [discriminate|].
    destruct (le n (Finite 0)) eqn:Ele; [discriminate|].
    exists n. split; [reflexivity|].
    apply positive_number; split; assumption.
  - intros ((s & Hs & Hne & Hlen) & Hde & Hup).
    rewrite Hs, Hde. destruct s as [|c s]; [now contradiction Hne|].
    cbn [truthy negb orb typeof_string string_length].
    destruct (Z.ltb_spec 20 (Z.of_nat (List.length (c :: s))))
      as [Hlong|_]; [lia|].
    destruct Hup as [-> | (n & Hn & Hpos)]; [reflexivity|].
    apply positive_number in Hpos. destruct Hpos as [Hnan Hle].
    destruct (is_undefined up); [reflexivity|]. cbn [negb].
    unfold isNaN, le_number. rewrite Hn. cbn [bindc].
    now rewrite Hnan, Hle.
Qed.

Lemma not_found_by_stock_code env st id :
  (forall q params, fault env q params = None) ->
  isNumeric id = false ->
  (forall p, In p (products st) -> Products.stock_code p <> id) ->
  exists sel,
    where_search_field (searchField id) (searchValue id) = Normal sel /\
    filter sel (products st) = [].
Proof.
  intros Hf Hnum Hnone. unfold searchField, searchValue. rewrite Hnum.
  cbn [where_search_field text_parameter bindc].
  eexists. split; [reflexivity|]. apply filter_none.
  intros p Hin. destruct (str_eqb _ _) eqn:E; [|reflexivity].
  apply str_eqb_eq in E. now contradiction (Hnone p Hin).
Qed.

(** X21: for an identifier that is not numeric and is the [stock_code] of
    no product, the lookup, the update (of a body that passes validation)
    and the deletion all answer 404 after one SELECT: no UPDATE and no
    DELETE is sent, and the store is left as it is. *)
Theorem unknown_stock_code_is_not_found :
  forall (env : environment) (st : store) (id : jsstring) (req_body : object),
    (forall q params, fault env q params = None) ->
    isNumeric id = false ->
    (forall p, In p (products st) -> Products.stock_code p <> id) ->
    serve (app_get_api_products_id env id) st =
      (Normal {| status := 404; json := Failure "Product not found" |},
       {| db := st;
          log := [(SELECT_product_WHERE stock_code, [Str id])] |}) /\
    (validateProduct req_body = Normal None ->
     serve (app_put_api_products_id env id req_body) st =
       (Normal {| status := 404; json := Failure "Product not found" |},
        {| db := st;
           log := [(SELECT_product_id_WHERE stock_code, [Str id])] |})) /\
    serve (app_delete_api_products_id env id) st =
      (Normal {| status := 404; json := Failure "Product not found" |},
       {| db := st;
          log := [(SELECT_related_counts stock_code, [Str id])] |}).
Proof.
  intros env st id req_body Hf Hnum Hnone.
  destruct (not_found_by_stock_code env st id Hf Hnum Hnone)
    as (sel & Hsel & Hrows).
  assert (Hfield : searchField id = stock_code)
    by (unfold searchField; now rewrite Hnum).
  assert (Hvalue : searchValue id = Str id)
    by (unfold searchValue; now rewrite Hnum).
  split; [|split].
  - unfold serve, app_get_api_products_id, try_catch, get_product_try.
    first_query. rewrite Hf.
    cbn [run parameter nth_error bindc]. rewrite Hsel. cbn [bindc].
    rewrite Hrows, Hfield, Hvalue. reflexivity.
  - intros Hv.
    unfold serve, app_put_api_products_id, validated. rewrite Hv.
    unfold put_products_id, try_catch, put_products_try.
    first_query. rewrite Hf.
    cbn [run parameter nth_error bindc]. rewrite Hsel. cbn [bindc].
    rewrite Hrows, Hfield, Hvalue. reflexivity.
  - unfold serve, app_delete_api_products_id, try_catch, delete_product_try.
    first_query. rewrite Hf.
    cbn [run parameter nth_error bindc]. rewrite Hsel. cbn [bindc].
    rewrite Hrows, Hfield, Hvalue. reflexivity.
Qed.

Lemma unknown_stock_code_is_not_found_witness :
  serve (app_get_api_products_id sample_env (lit "low-stock")) sample_store =
    (Normal {| status := 404; json := Failure "Product not found" |},
     {| db := sample_store;
        log := [(SELECT_product_WHERE stock_code, [Str (lit "low-stock")])] |}).
Proof.
  apply (unknown_stock_code_is_not_found sample_env sample_store
           (lit "low-stock") []).
  - intros q params. reflexivity.
  - vm_compute. reflexivity.
  - intros p [<- | [<- | [<- | []]]]; discriminate.
Defined.

(** X22: the lookup of a product that the identifier names answers 200
    with this product and the analytics the second statement gives for its
    [product_id]; the store is left as it is. *)
Theorem named_product_is_found :
  forall (env : environment) (st : store) (id : jsstring) (p : Products.row)
         (a : analytics),
    (forall q params, fault env q params = None) ->
    NoDup (map Products.product_id (products st)) ->
    NoDup (map Products.stock_code (products st)) ->
    In p (products st) ->
    names id p ->
    analytics_of env st (Num (of_Z (Products.product_id p))) = Normal a ->
    serve (app_get_api_products_id env id) st =
      (Normal {| status := 200; json := SuccessProduct p (Some a) |},
       {| db := st;
          log := [(SELECT_product_WHERE (searchField id), [searchValue id]);
                  (SELECT_analytics,
                   [Num (of_Z (Products.product_id p))])] |}).
Proof.
  intros env st id p a Hf Hid Hcode Hin Hname Ha.
  destruct (named_product_selected st id p Hid Hcode Hin Hname)
    as (sel & Hsel & Hrows).
  unfold serve, app_get_api_products_id, try_catch, get_product_try.
  first_query. rewrite Hf.
  cbn [run parameter nth_error bindc]. rewrite Hsel. cbn [bindc].
  rewrite Hrows.
  unfold bind, try_catch, client_query, ret. cbn [db log app].
  rewrite Hf. cbn [run parameter nth_error bindc]. rewrite Ha. reflexivity.
Qed.

Lemma named_product_is_found_witness :
  serve (app_get_api_products_id sample_env (lit "ABC123")) sample_store =
    (Normal {| status := 200;
               json := SuccessProduct product_ABC123
                         (Some (mkAnalytics 0 None None None None)) |},
     {| db := sample_store;
        log := [(SELECT_product_WHERE (searchField (lit "ABC123")),
                 [searchValue (lit "ABC123")]);
                (SELECT_analytics, [Num (of_Z 42)])] |}).
Proof.
  apply (named_product_is_found sample_env sample_store (lit "ABC123")
           product_ABC123).
  - intros q params. reflexivity.
  - repeat constructor; cbn; intuition discriminate.
  - repeat constructor; cbn; intuition discriminate.
  - right; right; left; reflexivity.
  - reflexivity.
  - reflexivity.
Defined.

End ProductHandlers.

(** ** The dashboard *)

Section DashboardCache.
Import JS Dashboard.

Lemma cached_new key v s sent :
  cached key {| cache := (key, v) :: cache s; requests := sent |} = v.
Proof.
  unfold cached, key_eqb. cbn [cache find fst snd].
  now rewrite !Z.eqb_refl.
Qed.

(** X23: once [fetchMonthlySales] has returned a truthy total for a month,
    every later call for this month returns the same total and sends no
    request, whatever the server would answer by then. *)
Theorem fetchMonthlySales_caches_a_total :
  forall (fetch fetch' : server) (year month : Z) (s : state),
    truthy (fst (fetchMonthlySales fetch year month s)) = true ->
    fetchMonthlySales fetch' year month
      (snd (fetchMonthlySales fetch year month s)) =
    fetchMonthlySales fetch year month s.
Proof.
  intros fetch fetch' year month s.
  destruct (fetchMonthlySales fetch year month s) as [v s1] eqn:E.
  cbn [fst snd]. intros Hv. unfold fetchMonthlySales in E.
  destruct (truthy (cached (year, month) s)) eqn:Ec.
  - injection E as <- <-. unfold fetchMonthlySales. now rewrite Ec.
  - destruct (fetch (requests s) year month) as [| | |v0];
      injection E as <- <-; try discriminate Hv.
    unfold fetchMonthlySales. rewrite cached_new, Hv. reflexivity.
Qed.

Lemma fetchMonthlySales_caches_a_total_witness :
  fetchMonthlySales (fun _ _ _ => rejected) 2010 12
    (snd (fetchMonthlySales december_only 2010 12 empty)) =
  (Str (lit "22.30"),
   {| cache := [((2010, 12), Str (lit "22.30"))];
      requests := [(2010, 12)] |}).
Proof.
  rewrite (fetchMonthlySales_caches_a_total december_only
             (fun _ _ _ => rejected) 2010 12 empty eq_refl).
  reflexivity.
Defined.

(** X24: a call of [fetchMonthlySales] that returns a falsy value (the 0
    of a failed request, or a total that is 0, empty, [null] or absent)
    leaves nothing that a later call would use: the next call for the month
    sends a request again.  No call changes what is cached for another
    month. *)
Theorem fetchMonthlySales_asks_again :
  forall (fetch fetch' : server) (year month : Z) (s : state),
    (truthy (fst (fetchMonthlySales fetch year month s)) = false ->
     requests (snd (fetchMonthlySales fetch' year month
                      (snd (fetchMonthlySales fetch year month s)))) =
     requests (snd (fetchMonthlySales fetch year month s))
       ++ [(year, month)]) /\
    (forall year' month',
        key_eqb (year, month) (year', month') = false ->
        cached (year', month') (snd (fetchMonthlySales fetch year month s)) =
        cached (year', month') s).
Proof.
  intros fetch fetch' year month s. split.
  - destruct (fetchMonthlySales fetch year month s) as [v s1] eqn:E.
    cbn [fst snd]. intros Hv. unfold fetchMonthlySales in E.
    destruct (truthy (cached (year, month) s)) eqn:Ec.
    + injection E as <- <-. congruence.
    + assert (Hagain : truthy (cached (year, month) s1) = false
                       /\ requests s1 = requests s ++ [(year, month)]).
      { destruct (fetch (requests s) year month) as [| | |v0];
          injection E as <- <-; cbn [requests];
          (split; [|reflexivity]);
          try exact Ec. now rewrite cached_new. }
      destruct Hagain as [Hc Hr]. unfold fetchMonthlySales. rewrite Hc.
      now destruct (fetch' (requests s1) year month).
  - intros year' month' Hkey. unfold fetchMonthlySales.
    destruct (truthy (cached (year, month) s)); [reflexivity|].
    destruct (fetch (requests s) year month) as [| | |v]; try reflexivity.
    unfold cached. cbn [cache find fst snd]. now rewrite Hkey.
Qed.

Lemma fetchMonthlySales_asks_again_witness :
  requests (snd (fetchMonthlySales december_only 2010 11
                   (snd (fetchMonthlySales december_only 2010 11 empty)))) =
  [(2010, 11); (2010, 11)].
Proof.
  exact (proj1 (fetchMonthlySales_asks_again december_only december_only
                  2010 11 empty) eq_refl).
Defined.

End DashboardCache.
